(** * Simulaciones MPI / OpenMP (servidor WebSocket en Go)

    Shallow embedding of the first program of [src/main.go] ([correrMPI],
    [correrOpenMP], the command decoding of [wsHandler]), together with the
    command decoding of its two sibling revisions (the second program of
    [src/main.go], and [src/unnamed/part_000]) and the [send] and [runMPI]
    of [src/unnamed/part_000]; then the [correrMPI] of the second program,
    the channel of [wsHandler] with the goroutine that drains it
    ([Tuberia]), the function [sanitizar] and the buttons of the page
    ([Pagina]), and the ring of goroutines of [src/mpi.go] ([Anillo]).

    Conventions of the embedding.
    - Go's [int] is [Z]. The only arithmetic on it is [rand.Intn(n) + c] and
      loop counters that run from 1 to a bound received from
      [int(float64)], which is always below the largest [int]; no counter
      wraps. The conversion [int(v)] is the truncation of [v] where Go
      defines it, that is when the truncation fits in [int] (64 bits on
      the platforms the program is built for); outside, Go leaves the
      result to the implementation, and every theorem that depends on a
      converted number assumes that it fits ([cabe_en_int]).
    - Go's [float64] is held as an exact rational ([Q]) where the program
      holds a binary64. Every [float64] of the program is either the
      constant [1e9] or [float64(n) / 100.0] for an integer [n] below
      10000: the embedding holds [n/100], the program the rounding of
      [n/100] to the nearest binary64 ([Binary64.redondeo]), which is
      [n/100] itself only when [n] is a multiple of 25. The program only
      compares and prints these numbers, and [Binary64Adecuacion] checks
      against binary64 itself that the comparisons agree; what depends on
      the rounding (the durations themselves) is stated on
      [Binary64.redondeo].
    - [math/rand]'s global source is an arbitrary stream of raw integers;
      [rand.Intn n] reduces the next raw integer modulo [n], so that every
      sequence of results in [0, n) is produced by some stream.
    - The channel [enviar] is the ordered history of the messages it has
      accepted plus its closed flag; its capacity of 100 only delays a
      sender. A send on a closed channel panics, as Go's runtime does; no
      function of the program recovers. The bounded channel itself, with
      the goroutine that writes its messages on the connection, is the
      subject of [Tuberia].
    - A JavaScript string is the list of its UTF-16 code units; a number
      read by [parseInt] is an integer or [NaN].
    - In [Tuberia] and [Anillo] a schedule is the list of the events the
      scheduler tries, in order; an event whose goroutine cannot proceed
      leaves the state as it is.
    - The goroutines of [correrOpenMP] interleave at their atomic actions:
      a draw from the shared source, a send on the shared channel, the
      write of their own slot, their signal on [done]. An interleaving is
      the list of the goroutines' numbers in the order in which they act.
    - [time.Sleep] has no effect on the state.
    - The properties of the simulators are stated for a channel that is
      open; what a run does once the handler has closed the channel is the
      subject of the section on sending after the channel is closed. *)

From Stdlib Require Import ZArith QArith Lia Floats.
From stdpp Require Import base list gmap strings pretty.

Local Open Scope Z_scope.

(** ** float64, idealised

    The exact rational of which the program holds the rounding to the
    nearest binary64 ([Binary64.redondeo] below). *)

Definition float64 : Type := Q.

(** [float64(n)] *)
Definition float64_of_int (n : Z) : float64 := inject_Z n.

(** [a / b] *)
Definition float64_div (a b : float64) : float64 := (a / b)%Q.

(** [a < b] *)
Definition float64_ltb (a b : float64) : bool :=
  Qnum a * QDen b <? Qnum b * QDen a.

(** [int(v)]: truncation towards zero, where Go defines the conversion:
    for a [v] whose truncation fits in [int], see [cabe_en_int]. *)
Definition int_of_float64 (v : float64) : Z := Z.quot (Qnum v) (QDen v).

(** The truncation of [v] fits in an [int] of 64 bits. Go leaves [int(v)]
    to the implementation for any other [v]. *)
Definition cabe_en_int (v : float64) : bool :=
  (- 2 ^ 63 <=? int_of_float64 v) && (int_of_float64 v <? 2 ^ 63).

(** The literal [1e9]. *)
Definition f1e9 : float64 := inject_Z 1000000000.

(** The literal [100.0]. *)
Definition f100 : float64 := inject_Z 100.

(** ** float64, as the processor computes it

    The binary64 values the program really handles. The adequacy lemmas
    check that on every value the program can generate the comparisons of
    binary64 agree with those of the idealised [float64]; the theorems on
    the generated durations are stated on these values. *)
Module Binary64.

(** [float64(n)], for [0 <= n < 2^63]. *)
Definition of_int (n : Z) : float := PrimFloat.of_uint63 (Uint63.of_Z n).

(** [float64(n) / 100.0], rounded to nearest. *)
Definition centesimas (n : Z) : float := PrimFloat.div (of_int n) 100%float.

(** The literal [1e9]. *)
Definition f1e9 : float := 1e9%float.

(** The binary64 numbers nearest to 35.99 and to 95.99. *)
Definition f35_99 : float := 0x1.1feb851eb851fp+5%float.

(** The binary64 the program holds where the embedding holds the positive
    rational [t]: the quotient of its numerator by its denominator, both
    below 2^53, which the processor rounds to nearest. For
    [float64(n) / 100.0] it is [centesimas n]. *)
Definition redondeo (t : float64) : float :=
  PrimFloat.div (of_int (Qnum t)) (of_int (QDen t)).

(** One hundred times [x] is an integer, in exact arithmetic: [x] has at
    most two decimal places. *)
Definition es_centesimal (x : float) : bool :=
  match Prim2SF x with
  | S754_zero _ => true
  | S754_finite _ m e =>
      if 0 <=? e then true else (100 * Z.pos m) mod 2 ^ (- e) =? 0
  | _ => false
  end.

(** The significand of a positive finite binary64 whose exponent is [e]. *)
Definition mantisa (e : Z) (x : float) : option positive :=
  match Prim2SF x with
  | S754_finite false m e' => if e' =? e then Some m else None
  | _ => None
  end.

(** [x] is a positive finite binary64 [m * 2^-k] with [k >= 46] and
    [|100 * m - n * 2^k| <= 50], that is, [x] is within [2^-47] of [n/100]. *)
Definition cerca_de (n : Z) (x : float) : bool :=
  match Prim2SF x with
  | S754_finite false m e =>
      (e <=? -46) && (Z.abs (100 * Z.pos m - n * 2 ^ (- e)) <=? 50)
  | _ => false
  end.

(** [p] holds of [desde], [desde + 1], ..., [desde + cuantos - 1]. *)
Definition para_todo (desde cuantos : Z) (p : Z -> bool) : bool :=
  forallb p (seqZ desde cuantos).

End Binary64.

(** ** Messages *)

(** [ResultadoOpenMP] *)
Record ResultadoOpenMP := {
  AutoID : Z;
  MejorVuelta : float64;
  CantidadVueltas : Z
}.

#[local] Set Warnings "-register-all".

(** A decoded JSON value, as [encoding/json] stores it in an [any]:
    every number is a [float64]. *)
Inductive json :=
| JNull
| JBool (b : bool)
| JNum (x : float64)
| JStr (s : string)
| JArr (elementos : list json)
| JObj (campos : list (string * json)).

(** Arguments of a [fmt.Sprintf] call: [%d] takes an [int], [%.2f] a
    [float64], [%v] any value (here the [any] read from a command, [None]
    being Go's [nil]). The text is kept as the format with its arguments. *)
Inductive valor :=
| VInt (n : Z)
| VFloat (x : float64)
| VAny (x : option json).

Inductive texto :=
| Literal (s : string)
| Sprintf (formato : string) (args : list valor).

(** Values stored under the keys of the [map[string]any] of a summary. *)
Inductive dato :=
| DTexto (s : string)
| DResultados (rs : list ResultadoOpenMP)
| DResultado (r : ResultadoOpenMP).

(** [MensajeWS]; an omitted field has Go's zero value. *)
Record MensajeWS := {
  Tipo : string;
  Topico : string;
  Texto : texto;
  Obj : option (gmap string dato)
}.

(** ** The world: random source and channel *)

Record canal := {
  cerrado : bool;
  cola : list MensajeWS
}.

Record mundo := {
  crudo : nat -> Z;
  cursor : nat;
  enviar : canal
}.

Inductive resultado (A : Type) :=
| Normal (a : A) (m : mundo)
| Panico (motivo : string) (m : mundo).
Arguments Normal {A} a m.
Arguments Panico {A} motivo m.

Definition M (A : Type) : Type := mundo -> resultado A.

Definition ret {A} (a : A) : M A := fun m => Normal a m.

Definition bind {A B} (c : M A) (k : A -> M B) : M B :=
  fun m =>
    match c m with
    | Normal a m' => k a m'
    | Panico motivo m' => Panico motivo m'
    end.

Notation "x <- c ;; k" := (bind c (fun x => k))
  (at level 100, c at next level, right associativity).
Notation "c ;; k" := (bind c (fun _ => k))
  (at level 100, right associativity).

(** [enviar <- msg] *)
Definition enviar_msg (msg : MensajeWS) : M unit :=
  fun m =>
    if cerrado (enviar m)
    then Panico "send on closed channel" m
    else Normal tt {| crudo := crudo m; cursor := cursor m;
                      enviar := {| cerrado := false;
                                   cola := cola (enviar m) ++ [msg] |} |}.

(** [close(enviar)] *)
Definition cerrar_canal : M unit :=
  fun m =>
    if cerrado (enviar m)
    then Panico "close of closed channel" m
    else Normal tt {| crudo := crudo m; cursor := cursor m;
                      enviar := {| cerrado := true; cola := cola (enviar m) |} |}.

(** [rand.Intn(n)] *)
Definition rand_Intn (n : Z) : M Z :=
  fun m =>
    if n <=? 0
    then Panico "invalid argument to Intn" m
    else Normal (crudo m (cursor m) mod n)
                {| crudo := crudo m; cursor := S (cursor m); enviar := enviar m |}.

(** [time.Sleep(d)] *)
Definition dormir (milisegundos : Z) : M unit := ret tt.

(** [for i := desde; i <= hasta; i++ { cuerpo }] *)
Fixpoint repetir (n : nat) (i : Z) (cuerpo : Z -> M unit) : M unit :=
  match n with
  | O => ret tt
  | S k => cuerpo i ;; repetir k (i + 1) cuerpo
  end.

Definition para (desde hasta : Z) (cuerpo : Z -> M unit) : M unit :=
  repetir (Z.to_nat (hasta - desde + 1)) desde cuerpo.

(** ** MPI: the ring of sectors ([correrMPI], src/main.go) *)

Definition fmt_inicio_mpi : string := "Iniciando MPI: %d sectores, %d vueltas".
Definition fmt_cabecera : string := "=== Vuelta %d ===".
Definition fmt_sector : string := "Tiempo de sector %d: %.2f s (vuelta %d)".

Definition msg_error_mpi : MensajeWS :=
  {| Tipo := "registro"; Topico := "mpi";
     Texto := Literal "Error: sectores debe ser >= 1"; Obj := None |}.

Definition msg_fin_mpi : MensajeWS :=
  {| Tipo := "finalizado"; Topico := "mpi"; Texto := Literal ""; Obj := None |}.

Definition msg_inicio_mpi (sectores vueltas : Z) : MensajeWS :=
  {| Tipo := "registro"; Topico := "mpi";
     Texto := Sprintf fmt_inicio_mpi [VInt sectores; VInt vueltas]; Obj := None |}.

Definition msg_cabecera (v : Z) : MensajeWS :=
  {| Tipo := "registro"; Topico := "mpi";
     Texto := Sprintf fmt_cabecera [VInt v]; Obj := None |}.

Definition msg_sector (s : Z) (tiempoSector : float64) (v : Z) : MensajeWS :=
  {| Tipo := "registro"; Topico := "mpi";
     Texto := Sprintf fmt_sector [VInt s; VFloat tiempoSector; VInt v];
     Obj := None |}.

Definition msg_resumen_mpi : MensajeWS :=
  {| Tipo := "resumen"; Topico := "mpi"; Texto := Literal "";
     Obj := Some {[ "mensaje" := DTexto "MPI finalizado" ]} |}.

(** Body of the inner loop, for sector [s] of lap [v]. *)
Definition paso_sector (v s : Z) : M unit :=
  n <- rand_Intn 2300 ;;
  let tiempoSector := float64_div (float64_of_int (n + 1200)) f100 in
  dormir 300 ;;
  enviar_msg (msg_sector s tiempoSector v).

(** Body of the outer loop, for lap [v]. *)
Definition paso_vuelta (sectores v : Z) : M unit :=
  enviar_msg (msg_cabecera v) ;;
  para 1 sectores (paso_sector v).

Definition correrMPI (sectores vueltas : Z) : M unit :=
  if sectores <? 1 then
    enviar_msg msg_error_mpi ;;
    enviar_msg msg_fin_mpi
  else
    let vueltas := if vueltas <? 1 then 1 else vueltas in
    enviar_msg (msg_inicio_mpi sectores vueltas) ;;
    para 1 vueltas (paso_vuelta sectores) ;;
    enviar_msg msg_resumen_mpi ;;
    enviar_msg msg_fin_mpi.

(** ** OpenMP: cars running fast laps in parallel ([correrOpenMP], src/main.go) *)

Definition fmt_inicio_openmp : string :=
  "Iniciando OpenMP: %d autos, %d vueltas cada uno".
Definition fmt_vuelta : string := "Auto %d - Vuelta %d: %.2f s".
Definition fmt_mejor : string := "Auto %d - Nueva mejor vuelta: %.2f s".

Definition msg_error_openmp : MensajeWS :=
  {| Tipo := "registro"; Topico := "openmp";
     Texto := Literal "Error: cantidad de autos debe ser >= 1"; Obj := None |}.

Definition msg_fin_openmp : MensajeWS :=
  {| Tipo := "finalizado"; Topico := "openmp"; Texto := Literal ""; Obj := None |}.

Definition msg_inicio_openmp (cantidadAutos vueltas : Z) : MensajeWS :=
  {| Tipo := "registro"; Topico := "openmp";
     Texto := Sprintf fmt_inicio_openmp [VInt cantidadAutos; VInt vueltas];
     Obj := None |}.

Definition msg_vuelta (auto v : Z) (tiempoVuelta : float64) : MensajeWS :=
  {| Tipo := "registro"; Topico := "openmp";
     Texto := Sprintf fmt_vuelta [VInt auto; VInt v; VFloat tiempoVuelta];
     Obj := None |}.

Definition msg_mejor (auto : Z) (mejor : float64) : MensajeWS :=
  {| Tipo := "registro"; Topico := "openmp";
     Texto := Sprintf fmt_mejor [VInt auto; VFloat mejor]; Obj := None |}.

Definition msg_resumen_openmp (resultados : list ResultadoOpenMP)
    (mejorGeneral : ResultadoOpenMP) : MensajeWS :=
  {| Tipo := "resumen"; Topico := "openmp"; Texto := Literal "";
     Obj := Some (<["mejor_por_auto" := DResultados resultados]>
                  {[ "mejor_general" := DResultado mejorGeneral ]}) |}.

(** Where a car's goroutine stands between two of its atomic actions (a
    draw from the shared source, a send on the shared channel, the write of
    its slot, its signal on [done]). *)
Inductive punto :=
| EnBucle          (* at the head of [for v := 1; v <= vueltas; v++] *)
| PorEnviarVuelta  (* drew [tiempoVuelta], slept, about to send the lap record *)
| PorEnviarMejor   (* improved [mejor], about to send the best-lap record *)
| PorSenalar       (* wrote its slot, its deferred [done <- struct{}{}] pending *)
| Terminada.

(** The locals of the goroutine of car [autoID]. [g_sorteados] is a history
    variable: the lap times this goroutine has generated, oldest first. *)
Record gorutina := {
  g_autoID : Z;
  g_v : Z;
  g_mejor : float64;
  g_tiempoVuelta : float64;
  g_punto : punto;
  g_sorteados : list float64
}.

(** [go func(autoID int) { ... }(auto)]: [mejor := 1e9], [v := 1]. *)
Definition nueva_gorutina (auto : Z) : gorutina :=
  {| g_autoID := auto; g_v := 1; g_mejor := f1e9; g_tiempoVuelta := 0%Q;
     g_punto := EnBucle; g_sorteados := [] |}.

(** [make([]ResultadoOpenMP, n)]: [n] zero values. *)
Definition resultado_cero : ResultadoOpenMP :=
  {| AutoID := 0; MejorVuelta := 0%Q; CantidadVueltas := 0 |}.

Definition make_resultados (n : Z) : list ResultadoOpenMP :=
  replicate (Z.to_nat n) resultado_cero.

(** [resultados[i] = r]; Go panics when [i] is out of range. *)
Definition asignar (resultados : list ResultadoOpenMP) (i : Z)
    (r : ResultadoOpenMP) : M (list ResultadoOpenMP) :=
  fun m =>
    if (0 <=? i) && (i <? Z.of_nat (length resultados))
    then Normal (<[Z.to_nat i := r]> resultados) m
    else Panico "index out of range" m.

(** The locals of a call of [correrOpenMP] once its goroutines are
    launched: the slice [resultados], the goroutines, and how many signals
    the main goroutine has received on [done]. *)
Record corrida := {
  c_resultados : list ResultadoOpenMP;
  c_autos : list gorutina;
  c_senales : nat
}.

(** One atomic action of goroutine [g]. The result is the goroutine, the
    slice and whether the action was the signal on [done]. *)
Definition avanzar (vueltas : Z) (g : gorutina)
    (resultados : list ResultadoOpenMP)
    : M (gorutina * list ResultadoOpenMP * bool) :=
  match g_punto g with
  | EnBucle =>
      if g_v g <=? vueltas then
        n <- rand_Intn 2099 ;;
        let tiempoVuelta := float64_div (float64_of_int (n + 7500)) f100 in
        dormir 200 ;;
        ret ({| g_autoID := g_autoID g; g_v := g_v g; g_mejor := g_mejor g;
                g_tiempoVuelta := tiempoVuelta; g_punto := PorEnviarVuelta;
                g_sorteados := g_sorteados g ++ [tiempoVuelta] |},
             resultados, false)
      else
        resultados' <- asignar resultados (g_autoID g)
          {| AutoID := g_autoID g + 1; MejorVuelta := g_mejor g;
             CantidadVueltas := vueltas |} ;;
        ret ({| g_autoID := g_autoID g; g_v := g_v g; g_mejor := g_mejor g;
                g_tiempoVuelta := g_tiempoVuelta g; g_punto := PorSenalar;
                g_sorteados := g_sorteados g |},
             resultados', false)
  | PorEnviarVuelta =>
      enviar_msg (msg_vuelta (g_autoID g + 1) (g_v g) (g_tiempoVuelta g)) ;;
      if float64_ltb (g_tiempoVuelta g) (g_mejor g) then
        ret ({| g_autoID := g_autoID g; g_v := g_v g;
                g_mejor := g_tiempoVuelta g;
                g_tiempoVuelta := g_tiempoVuelta g; g_punto := PorEnviarMejor;
                g_sorteados := g_sorteados g |},
             resultados, false)
      else
        ret ({| g_autoID := g_autoID g; g_v := g_v g + 1; g_mejor := g_mejor g;
                g_tiempoVuelta := g_tiempoVuelta g; g_punto := EnBucle;
                g_sorteados := g_sorteados g |},
             resultados, false)
  | PorEnviarMejor =>
      enviar_msg (msg_mejor (g_autoID g + 1) (g_mejor g)) ;;
      ret ({| g_autoID := g_autoID g; g_v := g_v g + 1; g_mejor := g_mejor g;
              g_tiempoVuelta := g_tiempoVuelta g; g_punto := EnBucle;
              g_sorteados := g_sorteados g |},
           resultados, false)
  | PorSenalar =>
      ret ({| g_autoID := g_autoID g; g_v := g_v g; g_mejor := g_mejor g;
              g_tiempoVuelta := g_tiempoVuelta g; g_punto := Terminada;
              g_sorteados := g_sorteados g |},
           resultados, true)
  | Terminada => ret (g, resultados, false)
  end.

(** The scheduler lets goroutine number [k] perform its next action; a
    number that names no goroutine is skipped. *)
Definition paso_auto (vueltas : Z) (k : nat) (c : corrida) : M corrida :=
  match c_autos c !! k with
  | None => ret c
  | Some g =>
      r <- avanzar vueltas g (c_resultados c) ;;
      ret {| c_resultados := r.1.2;
             c_autos := <[k := r.1.1]> (c_autos c);
             c_senales := if r.2 then S (c_senales c) else c_senales c |}
  end.

(** An interleaving is the list of the goroutines' numbers in the order in
    which they act. *)
Fixpoint ejecutar (vueltas : Z) (plan : list nat) (c : corrida) : M corrida :=
  match plan with
  | [] => ret c
  | k :: plan' => c' <- paso_auto vueltas k c ;; ejecutar vueltas plan' c'
  end.

(** [for auto := 0; auto < cantidadAutos; auto++ { go func(autoID int) ... (auto) }] *)
Definition lanzar (cantidadAutos : Z) : corrida :=
  {| c_resultados := make_resultados cantidadAutos;
     c_autos := (fun k : nat => nueva_gorutina (Z.of_nat k))
                  <$> seq 0 (Z.to_nat cantidadAutos);
     c_senales := 0 |}.

(** [mejorGeneral := ResultadoOpenMP{AutoID: -1, MejorVuelta: 1e9}] *)
Definition centinela : ResultadoOpenMP :=
  {| AutoID := -1; MejorVuelta := f1e9; CantidadVueltas := 0 |}.

(** [for _, r := range resultados { if r.MejorVuelta < mejorGeneral.MejorVuelta { mejorGeneral = r } }] *)
Definition calcular_mejor_general (resultados : list ResultadoOpenMP)
    : ResultadoOpenMP :=
  fold_left
    (fun mejorGeneral r =>
       if float64_ltb (MejorVuelta r) (MejorVuelta mejorGeneral)
       then r else mejorGeneral)
    resultados centinela.

(** How a call of [correrOpenMP] stands when the interleaving [plan] has
    been played. *)
Inductive desenlace :=
| Retorno (final : option (corrida * ResultadoOpenMP)) (m : mundo)
    (* the call returned; [None]: by the early [return], nothing launched *)
| EnBarrera (c : corrida) (m : mundo)
    (* the main goroutine still waits on [<-done] *)
| Caida (motivo : string) (m : mundo).
    (* a goroutine panicked: the program is gone *)

Definition correrOpenMP (cantidadAutos vueltas : Z) (plan : list nat)
    (m : mundo) : desenlace :=
  if cantidadAutos <? 1 then
    match (enviar_msg msg_error_openmp ;; enviar_msg msg_fin_openmp) m with
    | Normal _ m' => Retorno None m'
    | Panico motivo m' => Caida motivo m'
    end
  else
    let vueltas := if vueltas <? 1 then 1 else vueltas in
    match (enviar_msg (msg_inicio_openmp cantidadAutos vueltas) ;;
           ejecutar vueltas plan (lanzar cantidadAutos)) m with
    | Panico motivo m' => Caida motivo m'
    | Normal c m' =>
        (* [for i := 0; i < cantidadAutos; i++ { <-done }] *)
        if Z.of_nat (c_senales c) <? cantidadAutos then EnBarrera c m'
        else
          let mejorGeneral := calcular_mejor_general (c_resultados c) in
          match (enviar_msg (msg_resumen_openmp (c_resultados c) mejorGeneral) ;;
                 enviar_msg msg_fin_openmp) m' with
          | Normal _ m'' => Retorno (Some (c, mejorGeneral)) m''
          | Panico motivo m'' => Caida motivo m''
          end
    end.



(** ** The goroutine launcher *)

(** [go f(...)]: a panic that leaves the goroutine's function terminates
    the whole program. *)
Inductive proceso :=
| Vivo (m : mundo)
| Muerto (motivo : string).

Definition go (f : M unit) (m : mundo) : proceso :=
  match f m with
  | Normal _ m' => Vivo m'
  | Panico motivo _ => Muerto motivo
  end.

(** ** Command decoding ([wsHandler]) *)

(** [v, ok := comando[clave].(float64)] *)
Definition campo_float64 (comando : gmap string json) (clave : string)
    : option float64 :=
  match comando !! clave with
  | Some (JNum v) => Some v
  | _ => None
  end.

(** [case s:] of [switch comando["action"]] *)
Definition accion_es (comando : gmap string json) (s : string) : bool :=
  match comando !! "action" with
  | Some (JStr a) => String.eqb a s
  | _ => false
  end.

(** What the handler does with one decoded command. *)
Inductive lanzamiento :=
| LanzaMPI (sectores vueltas : Z)          (* [go correrMPI(sectores, vueltas, enviar)] *)
| LanzaOpenMP (autos vueltas : Z)          (* [go correrOpenMP(autos, vueltas, enviar)] *)
| NoReconocido (msg : MensajeWS).          (* [enviar <- MensajeWS{...}] *)

(** The body of the [switch] of [wsHandler], src/main.go lines 172-195. *)
Definition despachar (comando : gmap string json) : lanzamiento :=
  if accion_es comando "iniciar_mpi" then
    let sectores := 1 in
    let vueltas := 1 in
    let sectores :=
      match campo_float64 comando "sectores" with
      | Some v => int_of_float64 v | None => sectores end in
    let vueltas :=
      match campo_float64 comando "vueltas" with
      | Some v => int_of_float64 v | None => vueltas end in
    LanzaMPI sectores vueltas
  else if accion_es comando "iniciar_openmp" then
    let autos := 3 in
    let vueltas := 5 in
    let autos :=
      match campo_float64 comando "autos" with
      | Some v => int_of_float64 v | None => autos end in
    let vueltas :=
      match campo_float64 comando "vueltas" with
      | Some v => int_of_float64 v | None => vueltas end in
    LanzaOpenMP autos vueltas
  else
    NoReconocido
      {| Tipo := "registro"; Topico := "";
         Texto := Sprintf "Comando no reconocido: %v" [VAny (comando !! "action")];
         Obj := None |}.

(** The same [switch] in the second program of src/main.go (lines 480-503),
    the revision that guards [resultados] with a mutex. *)
Module Revision2.

Definition despachar (comando : gmap string json) : lanzamiento :=
  if accion_es comando "iniciar_mpi" then
    let sectores := 5 in
    let vueltas := 3 in
    let sectores :=
      match campo_float64 comando "sectores" with
      | Some v => int_of_float64 v | None => sectores end in
    let vueltas :=
      match campo_float64 comando "vueltas" with
      | Some v => int_of_float64 v | None => vueltas end in
    LanzaMPI sectores vueltas
  else if accion_es comando "iniciar_openmp" then
    let autos := 4 in
    let vueltas := 5 in
    let autos :=
      match campo_float64 comando "autos" with
      | Some v => int_of_float64 v | None => autos end in
    let vueltas :=
      match campo_float64 comando "vueltas" with
      | Some v => int_of_float64 v | None => vueltas end in
    LanzaOpenMP autos vueltas
  else
    NoReconocido
      {| Tipo := "registro"; Topico := "";
         Texto := Sprintf "Comando no reconocido: %v" [VAny (comando !! "action")];
         Obj := None |}.

End Revision2.

(** The same [switch] in src/unnamed/part_000 (lines 175-204): English
    names, [cmd, _ := m["action"].(string)], and [runMPI] / [runOpenMP]
    in place of [correrMPI] / [correrOpenMP]. *)
Module Parte000.

Definition cmd (m : gmap string json) : string :=
  match m !! "action" with
  | Some (JStr a) => a
  | _ => ""
  end.

Definition despachar (m : gmap string json) : lanzamiento :=
  if String.eqb (cmd m) "start_mpi" then
    let sectors := 1 in
    let laps := 1 in
    let sectors :=
      match campo_float64 m "sectors" with
      | Some v => int_of_float64 v | None => sectors end in
    let laps :=
      match campo_float64 m "laps" with
      | Some v => int_of_float64 v | None => laps end in
    LanzaMPI sectors laps
  else if String.eqb (cmd m) "start_openmp" then
    let cars := 3 in
    let laps := 5 in
    let cars :=
      match campo_float64 m "cars" with
      | Some v => int_of_float64 v | None => cars end in
    let laps :=
      match campo_float64 m "laps" with
      | Some v => int_of_float64 v | None => laps end in
    LanzaOpenMP cars laps
  else
    NoReconocido
      {| Tipo := "log"; Topico := "";
         Texto := Sprintf "Comando no reconocido: %v" [VAny (Some (JStr (cmd m)))];
         Obj := None |}.

(** [send] of that handler (lines 157-162) writes to the connection
    itself: [conn.WriteJSON(msg)] returns an error once the connection is
    closed, and [send] drops it. The connection is the [enviar] component
    of the world: what was written, and whether it is closed. *)
Definition send (msg : MensajeWS) : M unit :=
  fun m =>
    if cerrado (enviar m)
    then Normal tt m
    else Normal tt {| crudo := crudo m; cursor := cursor m;
                      enviar := {| cerrado := false;
                                   cola := cola (enviar m) ++ [msg] |} |}.

(** [runMPI] (lines 40-71); [WSMessage] has the fields of [MensajeWS] under
    the names [Type], [Topic], [Text], [Obj]. *)
Definition runMPI (sectors laps : Z) : M unit :=
  if sectors <? 1 then
    send {| Tipo := "log"; Topico := "mpi";
            Texto := Literal "Error: sectores debe ser >= 1"; Obj := None |} ;;
    send {| Tipo := "done"; Topico := "mpi"; Texto := Literal "";
            Obj := None |}
  else
    let laps := if laps <? 1 then 1 else laps in
    send {| Tipo := "log"; Topico := "mpi";
            Texto := Sprintf fmt_inicio_mpi [VInt sectors; VInt laps];
            Obj := None |} ;;
    para 1 laps (fun lap =>
      send {| Tipo := "log"; Topico := "mpi";
              Texto := Sprintf fmt_cabecera [VInt lap]; Obj := None |} ;;
      para 1 sectors (fun s =>
        n <- rand_Intn 2300 ;;
        let secTime := float64_div (float64_of_int (n + 1200)) f100 in
        dormir 300 ;;
        send {| Tipo := "log"; Topico := "mpi";
                Texto := Sprintf fmt_sector [VInt s; VFloat secTime; VInt lap];
                Obj := None |})) ;;
    send {| Tipo := "summary"; Topico := "mpi"; Texto := Literal "";
            Obj := Some {[ "msg" := DTexto "MPI finalizado" ]} |} ;;
    send {| Tipo := "done"; Topico := "mpi"; Texto := Literal "";
            Obj := None |}.

End Parte000.

(** ** Example worlds *)

(** A world whose channel is open and has accepted nothing yet. *)
Definition mundo_inicial (fuente : nat -> Z) : mundo :=
  {| crudo := fuente; cursor := 0%nat;
     enviar := {| cerrado := false; cola := [] |} |}.

Definition fuente_ejemplo (i : nat) : Z := 977 * Z.of_nat i + 31.

(** The source that always returns [x]. *)
Definition fuente_constante (x : Z) (i : nat) : Z := x.

(** ** Reading the records of a run *)

Fixpoint contar {A} (f : A -> bool) (l : list A) : nat :=
  match l with
  | [] => 0%nat
  | x :: l' => if f x then S (contar f l') else contar f l'
  end.

Definition formato_de (r : MensajeWS) : option string :=
  match Texto r with
  | Sprintf f _ => Some f
  | Literal _ => None
  end.

Definition con_formato (f : string) (r : MensajeWS) : bool :=
  String.eqb (Tipo r) "registro" &&
  match formato_de r with
  | Some f' => String.eqb f' f
  | None => false
  end.

(** The duration printed by a per-sector record. *)
Definition duracion_sector (r : MensajeWS) : option float64 :=
  match Texto r with
  | Sprintf f [VInt _; VFloat t; VInt _] =>
      if String.eqb f fmt_sector then Some t else None
  | _ => None
  end.


Definition es_sector (r : MensajeWS) : bool := con_formato fmt_sector r.
Definition es_cabecera (r : MensajeWS) : bool := con_formato fmt_cabecera r.
Definition es_inicio (r : MensajeWS) : bool :=
  con_formato fmt_inicio_mpi r || con_formato fmt_inicio_openmp r.
Definition es_error (r : MensajeWS) : bool :=
  String.eqb (Tipo r) "registro" &&
  match Texto r with
  | Literal s => String.prefix "Error" s
  | Sprintf _ _ => false
  end.
Definition es_resumen (r : MensajeWS) : bool := String.eqb (Tipo r) "resumen".
Definition es_fin (r : MensajeWS) : bool := String.eqb (Tipo r) "finalizado".

(** The lap time printed by [r] when [r] is a per-lap record of car number
    [auto] (numbered from 1). *)
Definition tiempo_de (auto : Z) (r : MensajeWS) : option float64 :=
  match Texto r with
  | Sprintf f [VInt a; VInt _; VFloat t] =>
      if String.eqb (Tipo r) "registro" && String.eqb f fmt_vuelta
         && (a =? auto)
      then Some t else None
  | _ => None
  end.

(** The lap times printed by the per-lap records of car [auto], oldest
    first. *)
Definition tiempos_de (auto : Z) (regs : list MensajeWS) : list float64 :=
  omap (tiempo_de auto) regs.

(** A best-lap record of car number [auto] (numbered from 1). *)
Definition es_mejor_de (auto : Z) (r : MensajeWS) : bool :=
  String.eqb (Tipo r) "registro" &&
  match Texto r with
  | Sprintf f (VInt a :: _) => String.eqb f fmt_mejor && (a =? auto)
  | _ => false
  end.

(** The property of a ring run as the specification words it: so many
    per-sector records, one start, one summary, one done, the start first,
    the done last, and nothing else. *)
Definition anillo_segun_spec (sectores vueltas : Z) (regs : list MensajeWS)
    : Prop :=
  Z.of_nat (contar es_sector regs) = sectores * vueltas /\
  contar es_inicio regs = 1%nat /\
  contar es_resumen regs = 1%nat /\
  contar es_fin regs = 1%nat /\
  (forall (i j : nat) ri rj,
     regs !! i = Some ri -> es_inicio ri = true ->
     regs !! j = Some rj -> es_sector rj = true -> (i < j)%nat) /\
  (exists antes r, regs = antes ++ [r] /\ es_fin r = true) /\
  (forall r, r ∈ regs ->
     es_sector r || es_inicio r || es_resumen r || es_fin r = true).


(** The running minimum a car's loop keeps over the lap times [l]. *)
Definition mejor_de (l : list float64) : float64 :=
  fold_left (fun mejor t => if float64_ltb t mejor then t else mejor) l f1e9.

(** An upper bound of the atomic actions a goroutine has left. *)
Definition pendientes (vueltas : Z) (g : gorutina) : nat :=
  match g_punto g with
  | EnBucle => 3 * Z.to_nat (vueltas + 1 - g_v g) + 2
  | PorEnviarVuelta => 3 * Z.to_nat (vueltas + 1 - g_v g) + 1
  | PorEnviarMejor => 3 * Z.to_nat (vueltas + 1 - g_v g)
  | PorSenalar => 1
  | Terminada => 0
  end%nat.

(** Every goroutine gets at least the actions it can need. *)
Definition plan_justo (cantidadAutos vueltas : Z) (plan : list nat) : Prop :=
  forall k : nat, (k < Z.to_nat cantidadAutos)%nat ->
    (3 * Z.to_nat vueltas + 2 <= count_occ Nat.eq_dec plan k)%nat.

(** Round robin: [n] rounds over goroutines [0 .. autos-1]. *)
Definition plan_rondas (autos rondas : nat) : list nat :=
  concat (replicate rondas (seq 0 autos)).

(** World [m'] is [m] after the records [regs] were sent, the channel
    still open, the source the same stream. *)
Definition extiende (m m' : mundo) (regs : list MensajeWS) : Prop :=
  crudo m' = crudo m /\
  cerrado (enviar m') = false /\
  cola (enviar m') = cola (enviar m) ++ regs.

(** A per-sector record of lap [v] is well formed: its sector is one of
    [desde .. hasta] and its duration is [float64(n)/100.0] for an integer
    [n] the generator can return. *)
Definition sector_valido (desde hasta v : Z) (r : MensajeWS) : Prop :=
  exists s n, desde <= s <= hasta /\ 1200 <= n <= 3499 /\
    r = msg_sector s (float64_div (float64_of_int n) f100) v.

(** What a ring run sends between its start record and its summary. *)
Definition en_cuerpo (sectores desde hasta : Z) (r : MensajeWS) : Prop :=
  exists v, desde <= v <= hasta /\
    (r = msg_cabecera v \/ sector_valido 1 sectores v r).

(** ** Generated durations *)

(** [t] is a duration [float64(n) / 100.0] for an integer [n] of
    [desde .. hasta]. The embedding holds [n/100]; the binary64 the program
    holds, [Binary64.redondeo t], lies between [lo] and [hi], is within
    2^-47 of [n/100], and has two decimal places exactly when [n] is a
    multiple of 25. *)
Definition duracion_generada (desde hasta : Z) (lo hi : float)
    (t : float64) : Prop :=
  exists n : Z,
    desde <= n <= hasta /\
    t = float64_div (float64_of_int n) f100 /\
    Binary64.redondeo t = Binary64.centesimas n /\
    PrimFloat.leb lo (Binary64.redondeo t) = true /\
    PrimFloat.leb (Binary64.redondeo t) hi = true /\
    Binary64.cerca_de n (Binary64.redondeo t) = true /\
    Binary64.es_centesimal (Binary64.redondeo t) = (n mod 25 =? 0).

(** ** Invariants of a parallel run *)

(** A lap time the generator of [correrOpenMP] can return. *)
Definition tiempo_valido (t : float64) : Prop :=
  exists n, 7500 <= n <= 9598 /\ t = float64_div (float64_of_int n) f100.

Definition es_terminada (g : gorutina) : bool :=
  match g_punto g with
  | Terminada => true
  | _ => false
  end.

(** The laps goroutine [g] has completed. *)
Definition vueltas_hechas (vueltas : Z) (g : gorutina) : Z :=
  match g_punto g with
  | EnBucle | PorEnviarVuelta | PorEnviarMejor => g_v g - 1
  | PorSenalar | Terminada => vueltas
  end.

(** What the locals of a goroutine satisfy between two of its actions. *)
Definition inv_gorutina (vueltas : Z) (g : gorutina) : Prop :=
  Forall tiempo_valido (g_sorteados g) /\
  match g_punto g with
  | EnBucle =>
      1 <= g_v g <= vueltas + 1 /\
      Z.of_nat (length (g_sorteados g)) = g_v g - 1 /\
      g_mejor g = mejor_de (g_sorteados g)
  | PorEnviarVuelta =>
      1 <= g_v g <= vueltas /\
      Z.of_nat (length (g_sorteados g)) = g_v g /\
      exists l, g_sorteados g = l ++ [g_tiempoVuelta g] /\
                g_mejor g = mejor_de l
  | PorEnviarMejor =>
      1 <= g_v g <= vueltas /\
      Z.of_nat (length (g_sorteados g)) = g_v g /\
      g_mejor g = mejor_de (g_sorteados g)
  | PorSenalar | Terminada =>
      g_v g = vueltas + 1 /\
      Z.of_nat (length (g_sorteados g)) = vueltas /\
      g_mejor g = mejor_de (g_sorteados g)
  end.

(** Once goroutine number [k] has left its loop its slot holds its result. *)
Definition casilla_ok (vueltas : Z) (k : nat) (g : gorutina)
    (resultados : list ResultadoOpenMP) : Prop :=
  match g_punto g with
  | PorSenalar | Terminada =>
      resultados !! k =
        Some {| AutoID := Z.of_nat k + 1; MejorVuelta := g_mejor g;
                CantidadVueltas := vueltas |}
  | _ => True
  end.

(** The best-lap records of goroutine number [k] among [regs]: at most one
    per completed lap, and the first lap's time is announced. *)
Definition anuncios_ok (vueltas : Z) (k : nat) (g : gorutina)
    (regs : list MensajeWS) : Prop :=
  Z.of_nat (contar (es_mejor_de (Z.of_nat k + 1)) regs)
    <= vueltas_hechas vueltas g /\
  (1 <= vueltas_hechas vueltas g ->
   exists t, head (g_sorteados g) = Some t /\
             msg_mejor (Z.of_nat k + 1) t ∈ regs).

(** A record sent by goroutine number [k]. *)
Definition registro_de (k : nat) (r : MensajeWS) : Prop :=
  (exists v t, tiempo_valido t /\ r = msg_vuelta (Z.of_nat k + 1) v t) \/
  (exists t, r = msg_mejor (Z.of_nat k + 1) t).

(** The lap records of goroutine number [k] among [regs] print the lap
    times it has generated, in the order of generation; the one it has just
    drawn is still to be sent. *)
Definition bitacora_ok (k : nat) (g : gorutina) (regs : list MensajeWS)
    : Prop :=
  match g_punto g with
  | PorEnviarVuelta =>
      tiempos_de (Z.of_nat k + 1) regs ++ [g_tiempoVuelta g] = g_sorteados g
  | _ => tiempos_de (Z.of_nat k + 1) regs = g_sorteados g
  end.

(** The invariant of the concurrent phase of [correrOpenMP] with [n]
    goroutines, [m0] being the world when they were launched. *)
Definition inv_corrida (vueltas : Z) (n : nat) (m0 : mundo) (c : corrida)
    (m : mundo) : Prop :=
  length (c_resultados c) = n /\
  length (c_autos c) = n /\
  c_senales c = contar es_terminada (c_autos c) /\
  exists regs,
    extiende m0 m regs /\
    Forall (fun r => exists k, (k < n)%nat /\ registro_de k r) regs /\
    forall k g, c_autos c !! k = Some g ->
      g_autoID g = Z.of_nat k /\
      inv_gorutina vueltas g /\
      casilla_ok vueltas k g (c_resultados c) /\
      anuncios_ok vueltas k g regs /\
      bitacora_ok k g regs.

(** ** The ring runs in closed form *)

(** World [m] after [n] more numbers were drawn and the records [regs]
    were accepted by the open channel. *)
Definition tras (m : mundo) (n : nat) (regs : list MensajeWS) : mundo :=
  {| crudo := crudo m; cursor := cursor m + n;
     enviar := {| cerrado := false; cola := cola (enviar m) ++ regs |} |}.

(** The duration a ring run draws when the source [fuente] stands at
    [pos]: [float64(rand.Intn(2300)+1200) / 100.0]. *)
Definition duracion_en (fuente : nat -> Z) (pos : nat) : float64 :=
  float64_div (float64_of_int (fuente pos mod 2300 + 1200)) f100.

(** What a loop of [k] rounds sends when round number [i + j] sends
    [g (i + j) p], [p] being where the source stands at the start of the
    round, and every round draws [paso] numbers. *)
Definition bloques {A} (k : nat) (i : Z) (pos paso : nat)
    (g : Z -> nat -> list A) : list A :=
  concat (map (fun j : nat => g (i + Z.of_nat j) (pos + j * paso)%nat)
              (seq 0 k)).

(** The records of lap [v] of [correrMPI]. *)
Definition traza_vuelta (fuente : nat -> Z) (sectores : nat) (v : Z)
    (pos : nat) : list MensajeWS :=
  msg_cabecera v ::
  bloques sectores 1 pos 1
    (fun s p => [msg_sector s (duracion_en fuente p) v]).

(** The records of a run of [correrMPI] with at least one sector. *)
Definition traza_mpi (fuente : nat -> Z) (sectores vueltas : Z) (pos : nat)
    : list MensajeWS :=
  msg_inicio_mpi sectores vueltas ::
  bloques (Z.to_nat vueltas) 1 pos (Z.to_nat sectores)
    (traza_vuelta fuente (Z.to_nat sectores)) ++
  [msg_resumen_mpi; msg_fin_mpi].

(** The sector and the lap printed by a per-sector record. *)
Definition sector_y_vuelta (r : MensajeWS) : option (Z * Z) :=
  match Texto r with
  | Sprintf f [VInt s; VFloat _; VInt v] =>
      if String.eqb (Tipo r) "registro" && String.eqb f fmt_sector
      then Some (s, v) else None
  | _ => None
  end.

(** ** The records of one car *)










(** ** The second program of src/main.go *)
Module SegundoPrograma.

Definition fmt_sector : string :=
  "Sector %d recibió tiempo %.2f s (vuelta %d)".

Definition msg_sector (s : Z) (tiempo : float64) (v : Z) : MensajeWS :=
  {| Tipo := "registro"; Topico := "mpi";
     Texto := Sprintf fmt_sector [VInt s; VFloat tiempo; VInt v];
     Obj := None |}.

Definition msg_fin_mpi : MensajeWS :=
  {| Tipo := "finalizado"; Topico := "mpi";
     Texto := Literal "MPI finalizado"; Obj := None |}.

(** [correrMPI], lines 353-384 of src/main.go: the record of a sector is
    sent before the sleep, there is no summary record, and the done record
    of a complete run carries a text. *)
Definition correrMPI (sectores vueltas : Z) : M unit :=
  if sectores <? 1 then
    enviar_msg msg_error_mpi ;;
    enviar_msg {| Tipo := "finalizado"; Topico := "mpi";
                  Texto := Literal ""; Obj := None |}
  else
    let vueltas := if vueltas <? 1 then 1 else vueltas in
    enviar_msg (msg_inicio_mpi sectores vueltas) ;;
    para 1 vueltas (fun v =>
      enviar_msg (msg_cabecera v) ;;
      para 1 sectores (fun s =>
        n <- rand_Intn 2300 ;;
        let tiempo := float64_div (float64_of_int (n + 1200)) f100 in
        enviar_msg (msg_sector s tiempo v) ;;
        dormir 300)) ;;
    enviar_msg msg_fin_mpi.

Definition traza_vuelta (fuente : nat -> Z) (sectores : nat) (v : Z)
    (pos : nat) : list MensajeWS :=
  msg_cabecera v ::
  bloques sectores 1 pos 1
    (fun s p => [msg_sector s (duracion_en fuente p) v]).

Definition traza_mpi (fuente : nat -> Z) (sectores vueltas : Z) (pos : nat)
    : list MensajeWS :=
  msg_inicio_mpi sectores vueltas ::
  bloques (Z.to_nat vueltas) 1 pos (Z.to_nat sectores)
    (traza_vuelta fuente (Z.to_nat sectores)) ++
  [msg_fin_mpi].

End SegundoPrograma.

(** ** src/unnamed/part_000 against the first program *)

(** World [m] after [n] more numbers were drawn and the records [regs]
    were handed to [Parte000.send]: a closed connection keeps nothing. *)
Definition escribe (m : mundo) (n : nat) (regs : list MensajeWS) : mundo :=
  {| crudo := crudo m; cursor := cursor m + n;
     enviar := if cerrado (enviar m) then enviar m
               else {| cerrado := false; cola := cola (enviar m) ++ regs |} |}.

(** The names part_000 gives to the record types of src/main.go. *)
Definition traducir_tipo (t : string) : string :=
  if String.eqb t "registro" then "log"
  else if String.eqb t "resumen" then "summary"
  else if String.eqb t "finalizado" then "done"
  else t.

(** The key ["mensaje"] of a summary is ["msg"] in part_000. *)
Definition traducir_obj (o : gmap string dato) : gmap string dato :=
  match o !! "mensaje" with
  | Some d => <["msg" := d]> (delete "mensaje" o)
  | None => o
  end.

Definition traducir (r : MensajeWS) : MensajeWS :=
  {| Tipo := traducir_tipo (Tipo r); Topico := Topico r; Texto := Texto r;
     Obj := traducir_obj <$> Obj r |}.

(** ** The page served by [indexHandler] (JavaScript of [htmlIndex]) *)
Module Pagina.

(** A JavaScript string is a sequence of UTF-16 code units. *)
Definition cadena : Type := list N.

Definition unidades (s : string) : cadena :=
  Ascii.N_of_ascii <$> String.list_ascii_of_string s.

(** [s.replace(/c/g, por)] for a one-unit pattern [c]. *)
Fixpoint replace_g (c : N) (por : cadena) (s : cadena) : cadena :=
  match s with
  | [] => []
  | u :: s' =>
      if (u =? c)%N then por ++ replace_g c por s'
      else u :: replace_g c por s'
  end.

Definition menor : N := 60.  (* < *)
Definition mayor : N := 62.  (* > *)

(** [function sanitizar(s){ if(!s) return ""; return
    s.replace(/</g,"&lt;").replace(/>/g,"&gt;");}]; [None] stands for a
    text that is [undefined] (the field was omitted). *)
Definition sanitizar (s : option cadena) : cadena :=
  match s with
  | None => []
  | Some [] => []
  | Some s =>
      replace_g mayor (unidades "&gt;") (replace_g menor (unidades "&lt;") s)
  end.

(** [parseInt(...) || d]: [parseInt] gives an integer or [NaN] ([None]);
    [NaN] and 0 are falsy. *)
Definition o (x : option Z) (d : Z) : Z :=
  match x with
  | None => d
  | Some 0 => d
  | Some n => n
  end.

(** The number read by [parseInt], if any, fits in [int]: the handler's
    conversion is defined on it. *)
Definition en_rango (x : option Z) : bool :=
  match x with
  | Some n => cabe_en_int (inject_Z n)
  | None => true
  end.

(** What the [onclick] of [start-mpi] sends, as the handler decodes it:
    [{action:"iniciar_mpi",sectores:sectores,vueltas:vueltas}]. *)
Definition comando_mpi (sectores vueltas : option Z) : gmap string json :=
  {[ "action" := JStr "iniciar_mpi";
     "sectores" := JNum (inject_Z (o sectores 5));
     "vueltas" := JNum (inject_Z (o vueltas 3)) ]}.

(** What the [onclick] of [start-openmp] sends. *)
Definition comando_openmp (autos vueltas : option Z) : gmap string json :=
  {[ "action" := JStr "iniciar_openmp";
     "autos" := JNum (inject_Z (o autos 4));
     "vueltas" := JNum (inject_Z (o vueltas 5)) ]}.

End Pagina.

(** ** The channel of [wsHandler] and the goroutine that drains it *)
Module Tuberia.

(** [enviar := make(chan MensajeWS, 100)] *)
Definition capacidad : nat := 100.

(** The goroutine [for msg := range enviar { ... }] either is in its loop
    or has returned. *)
Inductive consumidor := Activo | Salio.

(** [buffer] is what the channel holds; [escritos] is what
    [conn.WriteJSON] has written. [aceptados] and [perdidos] are history
    variables: every message the channel has accepted, and the message
    whose write failed. *)
Record estado := {
  buffer : list MensajeWS;
  canal_cerrado : bool;
  lector : consumidor;
  escritos : list MensajeWS;
  aceptados : list MensajeWS;
  perdidos : list MensajeWS
}.

Definition inicial : estado :=
  {| buffer := []; canal_cerrado := false; lector := Activo;
     escritos := []; aceptados := []; perdidos := [] |}.

Inductive evento :=
| Enviar (msg : MensajeWS)   (* some goroutine runs [enviar <- msg] *)
| Consumir (ok : bool)       (* the next round of the draining goroutine;
                                [ok]: whether [conn.WriteJSON] succeeds *)
| Cerrar.                    (* the deferred [close(enviar)] *)

Inductive efecto :=
| Avanza (e : estado)
| Bloquea                    (* the goroutine cannot proceed now *)
| Panico (motivo : string).

Definition paso (ev : evento) (e : estado) : efecto :=
  match ev with
  | Enviar msg =>
      if canal_cerrado e then Panico "send on closed channel"
      else if Nat.ltb (length (buffer e)) capacidad then
        Avanza {| buffer := buffer e ++ [msg];
                  canal_cerrado := canal_cerrado e; lector := lector e;
                  escritos := escritos e;
                  aceptados := aceptados e ++ [msg];
                  perdidos := perdidos e |}
      else Bloquea
  | Consumir ok =>
      match lector e with
      | Salio => Bloquea
      | Activo =>
          match buffer e with
          | msg :: resto =>
              if ok then
                Avanza {| buffer := resto;
                          canal_cerrado := canal_cerrado e; lector := Activo;
                          escritos := escritos e ++ [msg];
                          aceptados := aceptados e;
                          perdidos := perdidos e |}
              else
                Avanza {| buffer := resto;
                          canal_cerrado := canal_cerrado e; lector := Salio;
                          escritos := escritos e;
                          aceptados := aceptados e;
                          perdidos := perdidos e ++ [msg] |}
          | [] =>
              if canal_cerrado e then
                Avanza {| buffer := [];
                          canal_cerrado := true; lector := Salio;
                          escritos := escritos e;
                          aceptados := aceptados e;
                          perdidos := perdidos e |}
              else Bloquea
          end
      end
  | Cerrar =>
      if canal_cerrado e then Panico "close of closed channel"
      else Avanza {| buffer := buffer e;
                     canal_cerrado := true; lector := lector e;
                     escritos := escritos e;
                     aceptados := aceptados e;
                     perdidos := perdidos e |}
  end.

(** The events in the order in which the scheduler tries them; a
    goroutine that cannot proceed stays where it is. *)
Fixpoint correr (evs : list evento) (e : estado) : efecto :=
  match evs with
  | [] => Avanza e
  | ev :: evs' =>
      match paso ev e with
      | Avanza e' => correr evs' e'
      | Bloquea => correr evs' e
      | Panico motivo => Panico motivo
      end
  end.

Definition escritura_fallida (ev : evento) : bool :=
  match ev with
  | Consumir false => true
  | _ => false
  end.

Definition inv (e : estado) : Prop :=
  aceptados e = escritos e ++ perdidos e ++ buffer e /\
  (length (buffer e) <= capacidad)%nat /\
  (length (perdidos e) <= 1)%nat /\
  (lector e = Activo -> perdidos e = []).

End Tuberia.

(** ** The ring of goroutines of src/mpi.go *)
Module Anillo.

(** [fmt.Sprintf("Ping desde nodo %d", n)] *)
Definition ping (n : Z) : string := "Ping desde nodo " +:+ pretty n.

(** [fmt.Printf("Terminó el tiempo en el nodo %d\n", n)], as a line. *)
Definition aviso (n : Z) : string :=
  "Terminó el tiempo en el nodo " +:+ pretty n.

(** [fmt.Println("Terminó el tiempo")] *)
Definition fin : string := "Terminó el tiempo".

(** Where a goroutine [NodoAnilo] stands. *)
Inductive estado_nodo :=
| EnSelect     (* at its [select] *)
| PorEnviar    (* printed the message, slept, about to run [out <- ...] *)
| Retornado.

(** Where [mpi] itself stands once it has launched the goroutines. *)
Inductive principal :=
| PorIniciar   (* about to run [canales[0] <- "Ping desde nodo 1"] *)
| EnWait       (* in [WgAnillo.Wait()] *)
| Finalizado.

(** [canales]: five channels of capacity 1, each empty or holding one
    message; [done_cerrado]: whether [done] is closed; [wg]: the counter of
    [WgAnillo]; [salida]: the lines printed so far. *)
Record estado := {
  canales : list (option string);
  nodo : list estado_nodo;
  done_cerrado : bool;
  wg : Z;
  main : principal;
  salida : list string
}.

(** After [WgAnillo.Add(5)] and the six [go] statements. *)
Definition inicial : estado :=
  {| canales := replicate 5 None; nodo := replicate 5 EnSelect;
     done_cerrado := false; wg := 5; main := PorIniciar; salida := [] |}.

(** [go NodoAnilo(0, canales[4], canales[0], done)] and
    [go NodoAnilo(i, canales[i-1], canales[i], done)]: the channel node
    [id] receives from; it sends on [canales[id]]. *)
Definition entrada (id : nat) : nat :=
  match id with
  | O => 4
  | S k => k
  end.

Inductive evento :=
| Recibe (id : nat)    (* node [id] takes [case msj := <-in] and prints *)
| Envia (id : nat)     (* node [id] runs [out <- Sprintf(...)] *)
| Termina (id : nat)   (* node [id] takes [case <-done] *)
| Inicia               (* [mpi] runs [canales[0] <- "Ping desde nodo 1"] *)
| Cierra               (* the timer goroutine runs [close(done)] *)
| Espera.              (* [WgAnillo.Wait()] returns and [mpi] prints *)

Inductive efecto :=
| Avanza (e : estado)
| Bloquea
| Panico (motivo : string).

Definition paso (ev : evento) (e : estado) : efecto :=
  match ev with
  | Recibe id =>
      match nodo e !! id, canales e !! entrada id with
      | Some EnSelect, Some (Some msj) =>
          Avanza {| canales := <[entrada id := None]> (canales e);
                    nodo := <[id := PorEnviar]> (nodo e);
                    done_cerrado := done_cerrado e; wg := wg e;
                    main := main e; salida := salida e ++ [msj] |}
      | _, _ => Bloquea
      end
  | Envia id =>
      match nodo e !! id, canales e !! id with
      | Some PorEnviar, Some None =>
          Avanza {| canales :=
                      <[id := Some (ping (Z.of_nat id + 1))]> (canales e);
                    nodo := <[id := EnSelect]> (nodo e);
                    done_cerrado := done_cerrado e; wg := wg e;
                    main := main e; salida := salida e |}
      | _, _ => Bloquea
      end
  | Termina id =>
      match nodo e !! id with
      | Some EnSelect =>
          if done_cerrado e then
            if wg e - 1 <? 0
            then Panico "sync: negative WaitGroup counter"
            else Avanza {| canales := canales e;
                           nodo := <[id := Retornado]> (nodo e);
                           done_cerrado := done_cerrado e; wg := wg e - 1;
                           main := main e;
                           salida := salida e ++
                                     [aviso (Z.of_nat id + 1)] |}
          else Bloquea
      | _ => Bloquea
      end
  | Inicia =>
      match main e, canales e !! 0%nat with
      | PorIniciar, Some None =>
          Avanza {| canales := <[0%nat := Some "Ping desde nodo 1"]> (canales e);
                    nodo := nodo e;
                    done_cerrado := done_cerrado e; wg := wg e;
                    main := EnWait; salida := salida e |}
      | _, _ => Bloquea
      end
  | Cierra =>
      if done_cerrado e then Bloquea
      else Avanza {| canales := canales e; nodo := nodo e;
                     done_cerrado := true; wg := wg e;
                     main := main e; salida := salida e |}
  | Espera =>
      match main e with
      | EnWait =>
          if wg e =? 0 then
            Avanza {| canales := canales e; nodo := nodo e;
                      done_cerrado := done_cerrado e; wg := wg e;
                      main := Finalizado; salida := salida e ++ [fin] |}
          else Bloquea
      | _ => Bloquea
      end
  end.

(** The events in the order in which the scheduler tries them; a
    goroutine that cannot proceed stays where it is. *)
Fixpoint correr (evs : list evento) (e : estado) : efecto :=
  match evs with
  | [] => Avanza e
  | ev :: evs' =>
      match paso ev e with
      | Avanza e' => correr evs' e'
      | Bloquea => correr evs' e
      | Panico motivo => Panico motivo
      end
  end.

(** Where the message of the ring is. *)
Inductive testigo :=
| SinTestigo            (* [mpi] has not sent it yet *)
| EnCanal (i : nat)
| EnNodo (id : nat).

Definition canales_de (t : testigo) : list (option string) :=
  match t with
  | EnCanal i => <[i := Some (ping (Z.of_nat i + 1))]> (replicate 5 None)
  | _ => replicate 5 None
  end.

Definition lugar (t : testigo) : option nat :=
  match t with
  | SinTestigo => None
  | EnCanal i | EnNodo i => Some i
  end.

Definition es_ping (s : string) : bool := String.prefix "Ping desde nodo " s.
Definition es_aviso (s : string) : bool :=
  String.prefix "Terminó el tiempo en" s.

(** The first [n] lines of the ring: nodes 1, 2, 3, 4, 5, 1, 2, ... *)
Definition pings_hasta (n : nat) : list string :=
  (fun k : nat => ping (Z.of_nat (k mod 5) + 1)) <$> seq 0 n.

Definition vivo (n : estado_nodo) : bool :=
  match n with
  | Retornado => false
  | _ => true
  end.

Definition inv (e : estado) : Prop :=
  exists (t : testigo) (n : nat),
    length (nodo e) = 5%nat /\
    canales e = canales_de t /\
    (forall i, lugar t = Some i -> (i < 5)%nat /\ (n mod 5 = i)%nat) /\
    (t = SinTestigo <-> main e = PorIniciar) /\
    (t = SinTestigo -> n = 0%nat) /\
    (forall id, nodo e !! id = Some PorEnviar <-> t = EnNodo id) /\
    (forall id, nodo e !! id = Some Retornado -> done_cerrado e = true) /\
    wg e = Z.of_nat (contar vivo (nodo e)) /\
    (main e = Finalizado -> wg e = 0) /\
    List.filter es_ping (salida e) = pings_hasta n /\
    (Z.of_nat (length (List.filter es_aviso (salida e))) = 5 - wg e) /\
    (fin ∈ salida e -> main e = Finalizado) /\
    (main e = Finalizado -> last (salida e) = Some fin).

(** A schedule that shuts the ring down. *)
Definition apagar : list evento :=
  [Inicia; Cierra] ++
  concat ((fun id : nat => [Envia id; Termina id]) <$> seq 0 5) ++
  [Espera].

End Anillo.

(** * Properties *)

(** ** Arithmetic of the idealised float64 *)

Lemma float64_ltb_lt (a b : float64) : float64_ltb a b = true <-> (a < b)%Q.
Proof. unfold float64_ltb, Qlt. apply Z.ltb_lt. Qed.

Lemma float64_ltb_ge (a b : float64) : float64_ltb a b = false <-> (b <= a)%Q.
Proof. unfold float64_ltb, Qle. apply Z.ltb_ge. Qed.

Lemma centesimas_cotas (n a b : Z) :
  a <= n <= b ->
  (a # 100 <= float64_div (float64_of_int n) f100)%Q /\
  (float64_div (float64_of_int n) f100 <= b # 100)%Q.
Proof.
  intros Hn. unfold float64_div, float64_of_int, f100, Qle. simpl. lia.
Qed.

Lemma centesimas_bajo_1e9 (n : Z) :
  n <= 9598 -> float64_ltb (float64_div (float64_of_int n) f100) f1e9 = true.
Proof.
  intros Hn. apply float64_ltb_lt.
  unfold float64_div, float64_of_int, f100, f1e9, Qlt. simpl. lia.
Qed.

(** ** The channel *)

Lemma extiende_refl (m : mundo) :
  cerrado (enviar m) = false -> extiende m m [].
Proof. intros H. repeat split; [done|]. by rewrite app_nil_r. Qed.

Lemma extiende_trans (m1 m2 m3 : mundo) (r1 r2 : list MensajeWS) :
  extiende m1 m2 r1 -> extiende m2 m3 r2 -> extiende m1 m3 (r1 ++ r2).
Proof.
  intros (Hc1 & _ & Hq1) (Hc2 & Ha2 & Hq2). repeat split.
  - congruence.
  - done.
  - by rewrite Hq2, Hq1, app_assoc.
Qed.

Lemma enviar_msg_abierto (msg : MensajeWS) (m : mundo) :
  cerrado (enviar m) = false ->
  exists m', enviar_msg msg m = Normal tt m' /\ extiende m m' [msg] /\
             cursor m' = cursor m.
Proof.
  intros H. unfold enviar_msg. rewrite H. eexists. split; [done|].
  repeat split.
Qed.

Lemma enviar_msg_cerrado (msg : MensajeWS) (m : mundo) :
  cerrado (enviar m) = true ->
  enviar_msg msg m = Panico "send on closed channel" m.
Proof. intros H. unfold enviar_msg. by rewrite H. Qed.

Lemma rand_Intn_cotas (n : Z) (m : mundo) :
  0 < n ->
  exists x, rand_Intn n m =
              Normal x {| crudo := crudo m; cursor := S (cursor m);
                          enviar := enviar m |} /\
            0 <= x < n.
Proof.
  intros Hn. unfold rand_Intn. destruct (Z.leb_spec n 0); [lia|].
  eexists. split; [done|]. by apply Z.mod_pos_bound.
Qed.

(** A ring run of two sectors and one lap sends six records. *)
Example correrMPI_ejemplo :
  match correrMPI 2 1 (mundo_inicial fuente_ejemplo) with
  | Normal _ m => length (cola (enviar m))
  | Panico _ _ => 0%nat
  end = 6%nat.
Proof. vm_compute. reflexivity. Qed.


(** ** Counting records *)

Lemma contar_app {A} (f : A -> bool) (l1 l2 : list A) :
  contar f (l1 ++ l2) = (contar f l1 + contar f l2)%nat.
Proof.
  induction l1 as [|x l1 IH]; simpl; [done|].
  destruct (f x); simpl; by rewrite IH.
Qed.

Lemma contar_ninguno {A} (f : A -> bool) (l : list A) :
  Forall (fun x => f x = false) l -> contar f l = 0%nat.
Proof.
  induction 1 as [|x l Hx _ IH]; simpl; [done|]. by rewrite Hx.
Qed.

Lemma contar_todos {A} (f : A -> bool) (l : list A) :
  Forall (fun x => f x = true) l -> contar f l = length l.
Proof.
  induction 1 as [|x l Hx _ IH]; simpl; [done|]. by rewrite Hx, IH.
Qed.

Lemma contar_cota {A} (f : A -> bool) (l : list A) :
  (contar f l <= length l)%nat.
Proof.
  induction l as [|x l IH]; simpl; [done|]. destruct (f x); lia.
Qed.

Lemma contar_elem {A} (f : A -> bool) (x : A) (l : list A) :
  x ∈ l -> f x = true -> (1 <= contar f l)%nat.
Proof.
  induction 1 as [y l|y z l _ IH]; simpl; intros Hf.
  - rewrite Hf. lia.
  - destruct (f z); [lia|auto].
Qed.

(** Closes a goal whose hypothesis [Hin] puts a record in a list of fixed
    records, none of which passes the test [Hd] says it passes. *)
Ltac ninguno_de Hin Hd :=
  repeat (apply elem_of_cons in Hin as [-> | Hin]; [discriminate Hd|]);
  by apply elem_of_nil in Hin.

(** ** The ring run *)

Lemma paso_sector_abierto (v s : Z) (m : mundo) :
  cerrado (enviar m) = false ->
  exists m' r, paso_sector v s m = Normal tt m' /\
    extiende m m' [r] /\ sector_valido s s v r /\
    cursor m' = S (cursor m).
Proof.
  intros Ha. unfold paso_sector, bind, dormir, ret.
  destruct (rand_Intn_cotas 2300 m) as (x & -> & Hx); [lia|].
  destruct (enviar_msg_abierto
              (msg_sector s (float64_div (float64_of_int (x + 1200)) f100) v)
              {| crudo := crudo m; cursor := S (cursor m); enviar := enviar m |})
    as (m' & -> & He & Hc); [done|].
  exists m', (msg_sector s (float64_div (float64_of_int (x + 1200)) f100) v).
  repeat split; try apply He; [|done].
  exists s, (x + 1200). repeat split; lia.
Qed.

Lemma sector_valido_ancho (a b a' b' v : Z) (r : MensajeWS) :
  a' <= a -> b <= b' -> sector_valido a b v r -> sector_valido a' b' v r.
Proof.
  intros Ha Hb (s & n & Hs & Hn & ->). exists s, n. repeat split; lia.
Qed.

Lemma sectores_de_vuelta (v : Z) (k : nat) (i : Z) (m : mundo) :
  cerrado (enviar m) = false ->
  exists m' regs, repetir k i (paso_sector v) m = Normal tt m' /\
    extiende m m' regs /\ length regs = k /\
    Forall (sector_valido i (i + Z.of_nat k - 1) v) regs /\
    cursor m' = (cursor m + k)%nat.
Proof.
  revert i m. induction k as [|k IH]; intros i m Ha.
  - exists m, []. split; [done|]. split; [by apply extiende_refl|].
    repeat split; [done|lia].
  - simpl. unfold bind.
    destruct (paso_sector_abierto v i m Ha) as (m1 & r & -> & He1 & Hr & Hc1).
    destruct (IH (i + 1) m1) as (m2 & regs & -> & He2 & Hl & Hf & Hc2);
      [apply He1|].
    exists m2, ([r] ++ regs). split; [done|]. split; [|split; [|split]].
    + eapply extiende_trans; eauto.
    + simpl. by rewrite Hl.
    + constructor.
      * eapply sector_valido_ancho; [| |exact Hr]; lia.
      * eapply Forall_impl; [exact Hf|]. intros r' Hr'.
        eapply sector_valido_ancho; [| |exact Hr']; lia.
    + lia.
Qed.

Lemma clases_sector (a b v : Z) (r : MensajeWS) :
  sector_valido a b v r ->
  es_sector r = true /\ es_cabecera r = false /\ es_inicio r = false /\
  es_resumen r = false /\ es_fin r = false /\ es_error r = false.
Proof. intros (s & n & _ & _ & ->). repeat split. Qed.

Lemma clases_cabecera (v : Z) :
  es_sector (msg_cabecera v) = false /\ es_cabecera (msg_cabecera v) = true /\
  es_inicio (msg_cabecera v) = false /\ es_resumen (msg_cabecera v) = false /\
  es_fin (msg_cabecera v) = false /\ es_error (msg_cabecera v) = false.
Proof. repeat split. Qed.

Lemma clases_cuerpo (sectores a b : Z) (r : MensajeWS) :
  en_cuerpo sectores a b r ->
  es_sector r || es_cabecera r = true /\ es_inicio r = false /\
  es_resumen r = false /\ es_fin r = false /\ es_error r = false.
Proof.
  intros (v & _ & [-> | Hs]).
  - repeat split.
  - destruct (clases_sector _ _ _ _ Hs) as (-> & _ & -> & -> & -> & ->).
    repeat split.
Qed.

Lemma en_cuerpo_ancho (sectores a b a' b' : Z) (r : MensajeWS) :
  a' <= a -> b <= b' -> en_cuerpo sectores a b r -> en_cuerpo sectores a' b' r.
Proof. intros Ha Hb (v & Hv & H). exists v. split; [lia|done]. Qed.

Lemma paso_vuelta_abierto (sectores v : Z) (m : mundo) :
  cerrado (enviar m) = false ->
  exists m' regs, paso_vuelta sectores v m = Normal tt m' /\
    extiende m m' (msg_cabecera v :: regs) /\
    length regs = Z.to_nat sectores /\
    Forall (sector_valido 1 sectores v) regs /\
    cursor m' = (cursor m + Z.to_nat sectores)%nat.
Proof.
  intros Ha. unfold paso_vuelta, bind, para.
  destruct (enviar_msg_abierto (msg_cabecera v) m Ha) as (m1 & -> & He1 & Hc1).
  replace (sectores - 1 + 1) with sectores by lia.
  destruct (sectores_de_vuelta v (Z.to_nat sectores) 1 m1)
    as (m2 & regs & -> & He2 & Hl & Hf & Hc2); [apply He1|].
  exists m2, regs. split; [done|]. split; [|split; [done|split]].
  - apply (extiende_trans _ _ _ [msg_cabecera v] regs He1 He2).
  - destruct (Z.le_gt_cases 0 sectores) as [Hpos|Hneg].
    + eapply Forall_impl; [exact Hf|]. intros r Hr.
      eapply sector_valido_ancho; [| |exact Hr]; lia.
    + destruct regs; [constructor|simpl in Hl; lia].
  - lia.
Qed.

Lemma vueltas_del_anillo (sectores : Z) (k : nat) (i : Z) (m : mundo) :
  cerrado (enviar m) = false ->
  exists m' regs, repetir k i (paso_vuelta sectores) m = Normal tt m' /\
    extiende m m' regs /\
    Forall (en_cuerpo sectores i (i + Z.of_nat k - 1)) regs /\
    contar es_sector regs = (k * Z.to_nat sectores)%nat /\
    contar es_cabecera regs = k /\
    cursor m' = (cursor m + k * Z.to_nat sectores)%nat.
Proof.
  revert i m. induction k as [|k IH]; intros i m Ha.
  - exists m, []. split; [done|]. split; [by apply extiende_refl|].
    repeat split; simpl; [done|lia].
  - simpl repetir. unfold bind.
    destruct (paso_vuelta_abierto sectores i m Ha)
      as (m1 & r1 & -> & He1 & Hl1 & Hf1 & Hc1).
    destruct (IH (i + 1) m1) as (m2 & r2 & -> & He2 & Hf2 & Hs2 & Hk2 & Hc2);
      [apply He1|].
    exists m2, ((msg_cabecera i :: r1) ++ r2). split; [done|].
    split; [by eapply extiende_trans|].
    assert (Hsec : Forall (fun r => es_sector r = true) r1).
    { eapply Forall_impl; [exact Hf1|]. intros r Hr.
      by destruct (clases_sector _ _ _ _ Hr) as (-> & _). }
    assert (Hcab : Forall (fun r => es_cabecera r = false) r1).
    { eapply Forall_impl; [exact Hf1|]. intros r Hr.
      by destruct (clases_sector _ _ _ _ Hr) as (_ & -> & _). }
    split; [|split; [|split]].
    + apply Forall_app. split.
      * constructor.
        -- exists i. split; [lia|by left].
        -- eapply Forall_impl; [exact Hf1|]. intros r Hr.
           exists i. split; [lia|by right].
      * eapply Forall_impl; [exact Hf2|]. intros r Hr.
        eapply en_cuerpo_ancho; [| |exact Hr]; lia.
    + rewrite contar_app. simpl.
      replace (es_sector (msg_cabecera i)) with false by done.
      rewrite (contar_todos _ _ Hsec), Hs2, Hl1. lia.
    + rewrite contar_app. simpl.
      replace (es_cabecera (msg_cabecera i)) with true by done.
      rewrite (contar_ninguno _ _ Hcab), Hk2. lia.
    + lia.
Qed.

(** The run of [correrMPI] on an open channel, for at least one sector. *)
Lemma correrMPI_abierto (sectores vueltas : Z) (m : mundo) :
  1 <= sectores ->
  cerrado (enviar m) = false ->
  let vueltas' := if vueltas <? 1 then 1 else vueltas in
  exists m' cuerpo,
    correrMPI sectores vueltas m = Normal tt m' /\
    extiende m m'
      (msg_inicio_mpi sectores vueltas' :: cuerpo ++
       [msg_resumen_mpi; msg_fin_mpi]) /\
    Forall (en_cuerpo sectores 1 vueltas') cuerpo /\
    contar es_sector cuerpo = (Z.to_nat vueltas' * Z.to_nat sectores)%nat /\
    contar es_cabecera cuerpo = Z.to_nat vueltas' /\
    cursor m' = (cursor m + Z.to_nat vueltas' * Z.to_nat sectores)%nat.
Proof.
  intros Hs Ha vueltas'. unfold correrMPI.
  destruct (Z.ltb_spec sectores 1); [lia|]. fold vueltas'.
  unfold bind, para.
  destruct (enviar_msg_abierto (msg_inicio_mpi sectores vueltas') m Ha)
    as (m1 & -> & He1 & Hc1).
  replace (vueltas' - 1 + 1) with vueltas' by lia.
  destruct (vueltas_del_anillo sectores (Z.to_nat vueltas') 1 m1)
    as (m2 & cuerpo & -> & He2 & Hf & Hns & Hnc & Hc2); [apply He1|].
  destruct (enviar_msg_abierto msg_resumen_mpi m2) as (m3 & -> & He3 & Hc3);
    [apply He2|].
  destruct (enviar_msg_abierto msg_fin_mpi m3) as (m4 & -> & He4 & Hc4);
    [apply He3|].
  exists m4, cuerpo. split; [done|]. split; [|split; [|split; [done|split]]].
  - pose proof (extiende_trans _ _ _ _ _ He1
                 (extiende_trans _ _ _ _ _ He2
                    (extiende_trans _ _ _ _ _ He3 He4))) as He.
    exact He.
  - eapply Forall_impl; [exact Hf|]. intros r Hr.
    eapply en_cuerpo_ancho; [| |exact Hr]; [lia|].
    assert (1 <= vueltas') by (unfold vueltas'; destruct (Z.ltb_spec vueltas 1); lia).
    lia.
  - done.
  - lia.
Qed.

Lemma cuerpo_longitud (sectores a b : Z) (cuerpo : list MensajeWS) :
  Forall (en_cuerpo sectores a b) cuerpo ->
  length cuerpo = (contar es_sector cuerpo + contar es_cabecera cuerpo)%nat.
Proof.
  induction 1 as [|r l Hr _ IH]; simpl; [done|].
  destruct Hr as (v & _ & [-> | Hs]).
  - replace (es_sector (msg_cabecera v)) with false by done.
    replace (es_cabecera (msg_cabecera v)) with true by done. lia.
  - destruct (clases_sector _ _ _ _ Hs) as (-> & -> & _). lia.
Qed.

Lemma cuerpo_sin (f : MensajeWS -> bool) (sectores a b : Z)
    (cuerpo : list MensajeWS) :
  (forall r, en_cuerpo sectores a b r -> f r = false) ->
  Forall (en_cuerpo sectores a b) cuerpo -> contar f cuerpo = 0%nat.
Proof.
  intros Hf Hc. apply contar_ninguno.
  eapply Forall_impl; [exact Hc|]. exact Hf.
Qed.

(** C1, as the specification words it, fails at one sector and one lap: the
    run also sends the header record of the lap, which is none of the four
    kinds the sentence allows. *)
Lemma C1_contraejemplo :
  exists m', correrMPI 1 1 (mundo_inicial fuente_ejemplo) = Normal tt m' /\
             ~ anillo_segun_spec 1 1 (cola (enviar m')).
Proof.
  eexists. split; [vm_compute; reflexivity|].
  intros (_ & _ & _ & _ & _ & _ & H).
  assert (Hf : es_sector (msg_cabecera 1) || es_inicio (msg_cabecera 1) ||
               es_resumen (msg_cabecera 1) || es_fin (msg_cabecera 1) = false)
    by reflexivity.
  rewrite H in Hf; [discriminate Hf|].
  apply list_elem_of_further, list_elem_of_here.
Qed.

(** C1 (amended): for every sectores >= 1 and vueltas >= 1 a ring run on an
    open channel returns normally and sends exactly
    sectores * vueltas per-sector records, vueltas lap-header records, one
    start record, one summary record and one done record, that is
    sectores * vueltas + vueltas + 3 records, each of one of these five
    kinds; the start record is the first of them and the done record the
    last. *)
Theorem C1_registros_del_anillo (sectores vueltas : Z) (m : mundo) :
  1 <= sectores -> 1 <= vueltas -> cerrado (enviar m) = false ->
  exists m' regs,
    correrMPI sectores vueltas m = Normal tt m' /\
    cola (enviar m') = cola (enviar m) ++ regs /\
    Z.of_nat (contar es_sector regs) = sectores * vueltas /\
    Z.of_nat (contar es_cabecera regs) = vueltas /\
    contar es_inicio regs = 1%nat /\
    contar es_resumen regs = 1%nat /\
    contar es_fin regs = 1%nat /\
    Z.of_nat (length regs) = sectores * vueltas + vueltas + 3 /\
    (forall r, r ∈ regs ->
       es_sector r || es_cabecera r || es_inicio r || es_resumen r
         || es_fin r = true) /\
    (exists resto, regs = msg_inicio_mpi sectores vueltas :: resto) /\
    (exists antes, regs = antes ++ [msg_fin_mpi]).
Proof.
  intros Hs Hv Ha.
  destruct (correrMPI_abierto sectores vueltas m Hs Ha)
    as (m' & cuerpo & Hrun & He & Hf & Hns & Hnc & _).
  destruct (Z.ltb_spec vueltas 1) as [|_]; [lia|].
  pose proof (cuerpo_longitud _ _ _ _ Hf) as Hlen.
  assert (Hi : contar es_inicio cuerpo = 0%nat).
  { eapply cuerpo_sin; [|exact Hf]. intros r Hr.
    by destruct (clases_cuerpo _ _ _ _ Hr) as (_ & -> & _). }
  assert (Hr : contar es_resumen cuerpo = 0%nat).
  { eapply cuerpo_sin; [|exact Hf]. intros r Hr.
    by destruct (clases_cuerpo _ _ _ _ Hr) as (_ & _ & -> & _). }
  assert (Hfin : contar es_fin cuerpo = 0%nat).
  { eapply cuerpo_sin; [|exact Hf]. intros r Hr'.
    by destruct (clases_cuerpo _ _ _ _ Hr') as (_ & _ & _ & -> & _). }
  exists m', (msg_inicio_mpi sectores vueltas :: cuerpo ++
              [msg_resumen_mpi; msg_fin_mpi]).
  split; [done|]. split; [apply He|].
  assert (Hcnt : forall f,
            contar f (msg_inicio_mpi sectores vueltas :: cuerpo ++
                      [msg_resumen_mpi; msg_fin_mpi]) =
            ((if f (msg_inicio_mpi sectores vueltas) then 1 else 0) +
             contar f cuerpo +
             ((if f msg_resumen_mpi then 1 else 0) +
              (if f msg_fin_mpi then 1 else 0)))%nat).
  { intros f. simpl. rewrite contar_app. simpl.
    destruct (f (msg_inicio_mpi sectores vueltas)), (f msg_resumen_mpi),
      (f msg_fin_mpi); lia. }
  rewrite !Hcnt.
  replace (es_sector (msg_inicio_mpi sectores vueltas)) with false by done.
  replace (es_cabecera (msg_inicio_mpi sectores vueltas)) with false by done.
  replace (es_inicio (msg_inicio_mpi sectores vueltas)) with true by done.
  replace (es_resumen (msg_inicio_mpi sectores vueltas)) with false by done.
  replace (es_fin (msg_inicio_mpi sectores vueltas)) with false by done.
  change (es_sector msg_resumen_mpi) with false.
  change (es_sector msg_fin_mpi) with false.
  change (es_cabecera msg_resumen_mpi) with false.
  change (es_cabecera msg_fin_mpi) with false.
  change (es_inicio msg_resumen_mpi) with false.
  change (es_inicio msg_fin_mpi) with false.
  change (es_resumen msg_resumen_mpi) with true.
  change (es_resumen msg_fin_mpi) with false.
  change (es_fin msg_resumen_mpi) with false.
  change (es_fin msg_fin_mpi) with true.
  rewrite Hi, Hr, Hfin, Hns, Hnc.
  repeat split; try lia.
  - simpl. rewrite length_app. simpl. rewrite Hlen, Hns, Hnc. lia.
  - intros r Hin. apply elem_of_cons in Hin as [-> | Hin]; [done|].
    apply elem_of_app in Hin as [Hin | Hin].
    + rewrite Forall_forall in Hf. apply Hf in Hin.
      destruct (clases_cuerpo _ _ _ _ Hin) as (-> & _). done.
    + apply elem_of_cons in Hin as [-> | Hin]; [done|].
      apply elem_of_cons in Hin as [-> | Hin]; [done|].
      by apply elem_of_nil in Hin.
  - by eexists.
  - exists (msg_inicio_mpi sectores vueltas :: cuerpo ++ [msg_resumen_mpi]).
    simpl. by rewrite <- app_assoc.
Qed.

Lemma C1_registros_del_anillo_testigo :
  exists m' regs,
    correrMPI 3 2 (mundo_inicial fuente_ejemplo) = Normal tt m' /\
    cola (enviar m') = cola (enviar (mundo_inicial fuente_ejemplo)) ++ regs /\
    Z.of_nat (contar es_sector regs) = 3 * 2 /\
    Z.of_nat (contar es_cabecera regs) = 2 /\
    contar es_inicio regs = 1%nat /\
    contar es_resumen regs = 1%nat /\
    contar es_fin regs = 1%nat /\
    Z.of_nat (length regs) = 3 * 2 + 2 + 3 /\
    (forall r, r ∈ regs ->
       es_sector r || es_cabecera r || es_inicio r || es_resumen r
         || es_fin r = true) /\
    (exists resto, regs = msg_inicio_mpi 3 2 :: resto) /\
    (exists antes, regs = antes ++ [msg_fin_mpi]).
Proof.
  apply (C1_registros_del_anillo 3 2 (mundo_inicial fuente_ejemplo));
    [lia | lia | reflexivity].
Defined.

Lemma correrMPI_sin_sectores (sectores vueltas : Z) (m : mundo) :
  sectores < 1 -> cerrado (enviar m) = false ->
  correrMPI sectores vueltas m =
    Normal tt {| crudo := crudo m; cursor := cursor m;
                 enviar := {| cerrado := false;
                              cola := cola (enviar m) ++
                                      [msg_error_mpi; msg_fin_mpi] |} |}.
Proof.
  intros Hs Ha. unfold correrMPI. destruct (Z.ltb_spec sectores 1); [|lia].
  unfold bind, enviar_msg. rewrite Ha. simpl. by rewrite <- app_assoc.
Qed.

Lemma duracion_sector_valido (a b v : Z) (r : MensajeWS) :
  sector_valido a b v r ->
  exists t n, duracion_sector r = Some t /\ 1200 <= n <= 3499 /\
              t = float64_div (float64_of_int n) f100.
Proof. intros (s & n & _ & Hn & ->). by exists (float64_div (float64_of_int n) f100), n. Qed.

(** [rand.Intn(2300) + 1200] is at most 3499: no sector duration is meant
    to exceed 34.99. *)
Lemma maximo_de_sector (v s : Z) (m : mundo) :
  cerrado (enviar m) = false ->
  exists m' t, paso_sector v s m = Normal tt m' /\
    cola (enviar m') = cola (enviar m) ++ [msg_sector s t v] /\
    (12 <= t)%Q /\ (t <= 34.99)%Q.
Proof.
  intros Ha.
  destruct (paso_sector_abierto v s m Ha) as (m' & r & Hrun & He & Hr & _).
  destruct Hr as (s' & n & Hs' & Hn & ->).
  exists m', (float64_div (float64_of_int n) f100).
  split; [done|]. split.
  - replace s with s' by lia. apply He.
  - destruct (centesimas_cotas n 1200 3499 Hn) as [Hlo Hhi]. split.
    + eapply Qle_trans; [|exact Hlo]. by unfold Qle.
    + eapply Qle_trans; [exact Hhi|]. by unfold Qle.
Qed.

(** ** The running minimum *)

Lemma mejor_de_snoc (l : list float64) (t : float64) :
  mejor_de (l ++ [t]) =
    if float64_ltb t (mejor_de l) then t else mejor_de l.
Proof. unfold mejor_de. by rewrite fold_left_app. Qed.

Lemma tiempo_valido_bajo_1e9 (t : float64) :
  tiempo_valido t -> float64_ltb t f1e9 = true.
Proof. intros (n & Hn & ->). apply centesimas_bajo_1e9. lia. Qed.




(** ** One action of one goroutine *)

Lemma asignar_en_rango (res : list ResultadoOpenMP) (i : Z)
    (r : ResultadoOpenMP) (m : mundo) :
  0 <= i < Z.of_nat (length res) ->
  asignar res i r m = Normal (<[Z.to_nat i := r]> res) m.
Proof.
  intros Hi. unfold asignar.
  destruct (Z.leb_spec 0 i); [|lia].
  destruct (Z.ltb_spec i (Z.of_nat (length res))); [done|lia].
Qed.

Lemma extiende_sorteo (m : mundo) :
  cerrado (enviar m) = false ->
  extiende m {| crudo := crudo m; cursor := S (cursor m); enviar := enviar m |} [].
Proof. intros Ha. repeat split; [done|]. simpl. by rewrite app_nil_r. Qed.

Lemma anuncios_tras_vuelta (vueltas : Z) (k : nat) (g g' : gorutina)
    (regs : list MensajeWS) (v : Z) (t : float64) :
  vueltas_hechas vueltas g' = vueltas_hechas vueltas g ->
  g_sorteados g' = g_sorteados g ->
  anuncios_ok vueltas k g regs ->
  anuncios_ok vueltas k g' (regs ++ [msg_vuelta (Z.of_nat k + 1) v t]).
Proof.
  intros Hh Hs (Hb & Hp). unfold anuncios_ok. rewrite Hh, Hs.
  rewrite contar_app. simpl.
  replace (es_mejor_de (Z.of_nat k + 1) (msg_vuelta (Z.of_nat k + 1) v t))
    with false by done.
  split; [lia|]. intros H1. destruct (Hp H1) as (t' & Ht' & Hin).
  exists t'. split; [done|]. apply elem_of_app. by left.
Qed.

Lemma avanzar_ok (vueltas : Z) (n k : nat) (g : gorutina)
    (res : list ResultadoOpenMP) (m : mundo) :
  1 <= vueltas -> cerrado (enviar m) = false ->
  g_autoID g = Z.of_nat k -> (k < n)%nat -> length res = n ->
  inv_gorutina vueltas g -> casilla_ok vueltas k g res ->
  exists g' res' s m' nuevos,
    avanzar vueltas g res m = Normal (g', res', s) m' /\
    extiende m m' nuevos /\
    Forall (registro_de k) nuevos /\
    g_autoID g' = Z.of_nat k /\
    inv_gorutina vueltas g' /\
    casilla_ok vueltas k g' res' /\
    length res' = n /\
    (forall j, j <> k -> res' !! j = res !! j) /\
    s = es_terminada g' && negb (es_terminada g) /\
    (es_terminada g = true -> es_terminada g' = true) /\
    (pendientes vueltas g' <= pred (pendientes vueltas g))%nat /\
    (forall regs, anuncios_ok vueltas k g regs ->
                  anuncios_ok vueltas k g' (regs ++ nuevos)) /\
    (forall regs, bitacora_ok k g regs ->
                  bitacora_ok k g' (regs ++ nuevos)).
Proof.
  intros Hv Ha Hid Hk Hlen (Hval & Hinv) Hcas.
  destruct g as [id v mejor t pc sort]. simpl in *. subst id.
  destruct pc; unfold avanzar; simpl.
  - (* EnBucle *)
    destruct Hinv as (Hrange & Hl & Hm).
    destruct (Z.leb_spec v vueltas) as [Hle|Hgt].
    + unfold bind, dormir, ret.
      destruct (rand_Intn_cotas 2099 m) as (x & -> & Hx); [lia|].
      do 5 eexists. split; [reflexivity|].
      split; [by apply extiende_sorteo|]. split; [constructor|].
      split; [done|]. split.
      { split; simpl.
        - apply Forall_app. split; [done|]. constructor; [|constructor].
          exists (x + 7500). split; [lia|done].
        - split; [lia|]. split; [rewrite length_app; simpl; lia|].
          by exists sort. }
      split; [done|]. split; [done|]. split; [done|]. split; [done|].
      split; [done|]. split; [unfold pendientes; simpl; lia|]. split.
      { intros regs (Hb & Hp). rewrite app_nil_r. split; [done|].
        unfold vueltas_hechas in *. simpl in *. intros H1.
        destruct (Hp H1) as (t' & Ht' & Hin).
        exists t'. split; [|done].
        destruct sort; [discriminate Ht'|done]. }
      intros regs Hbit. rewrite app_nil_r. unfold bitacora_ok in *.
      simpl in *. by rewrite Hbit.
    + unfold bind, ret.
      rewrite asignar_en_rango by lia.
      do 5 eexists. split; [reflexivity|].
      split; [by apply extiende_refl|]. split; [constructor|].
      split; [done|]. split.
      { split; [done|]. simpl. split; [lia|]. split; [lia|done]. }
      split.
      { unfold casilla_ok. simpl. rewrite Nat2Z.id.
        by rewrite list_lookup_insert_eq by lia. }
      split; [by rewrite length_insert|]. split.
      { intros j Hj. rewrite Nat2Z.id. by rewrite list_lookup_insert_ne. }
      split; [done|]. split; [done|].
      split; [unfold pendientes; simpl; lia|].
      split.
      { intros regs (Hb & Hp). rewrite app_nil_r.
        unfold anuncios_ok, vueltas_hechas in *.
        simpl in *. replace vueltas with (v - 1) by lia. by split. }
      intros regs Hbit. by rewrite app_nil_r.
  - (* PorEnviarVuelta *)
    destruct Hinv as (Hrange & Hl & l & Hsort & Hm).
    unfold bind.
    destruct (enviar_msg_abierto (msg_vuelta (Z.of_nat k + 1) v t) m Ha)
      as (m' & -> & He & _).
    assert (Ht : tiempo_valido t).
    { rewrite Hsort in Hval. apply Forall_app in Hval as [_ Hval].
      by inversion Hval. }
    assert (Hrec : Forall (registro_de k) [msg_vuelta (Z.of_nat k + 1) v t]).
    { constructor; [|constructor]. left. by exists v, t. }
    assert (Hbit : forall regs g',
              g_punto g' <> PorEnviarVuelta -> g_sorteados g' = sort ->
              tiempos_de (Z.of_nat k + 1) regs ++ [t] = sort ->
              bitacora_ok k g'
                (regs ++ [msg_vuelta (Z.of_nat k + 1) v t])).
    { intros regs g' Hp' Hs' Hreg.
      assert (Hts : tiempos_de (Z.of_nat k + 1)
                      (regs ++ [msg_vuelta (Z.of_nat k + 1) v t]) = sort).
      { unfold tiempos_de. rewrite omap_app. simpl.
        unfold tiempo_de at 2. simpl. rewrite Z.eqb_refl. exact Hreg. }
      unfold bitacora_ok. rewrite Hts, Hs'.
      destruct (g_punto g'); [done|by destruct Hp'|done|done|done]. }
    destruct (float64_ltb t mejor) eqn:Hlt; unfold ret.
    + do 5 eexists. split; [reflexivity|]. split; [exact He|].
      split; [exact Hrec|]. split; [done|]. split.
      { split; simpl; [done|]. split; [lia|]. split; [done|].
        rewrite Hsort, mejor_de_snoc, <- Hm, Hlt. done. }
      split; [done|]. split; [done|]. split; [done|]. split; [done|].
      split; [done|]. split; [unfold pendientes; simpl; lia|]. split.
      { intros regs Hreg. by eapply anuncios_tras_vuelta. }
      intros regs Hreg. by apply Hbit.
    + do 5 eexists. split; [reflexivity|]. split; [exact He|].
      split; [exact Hrec|]. split; [done|]. split.
      { split; simpl; [done|]. split; [lia|]. split; [lia|].
        rewrite Hsort, mejor_de_snoc, <- Hm, Hlt. done. }
      split; [done|]. split; [done|]. split; [done|]. split; [done|].
      split; [done|]. split; [unfold pendientes; simpl; lia|].
      split; [|intros regs' Hreg; by apply Hbit].
      intros regs (Hb & Hp). unfold anuncios_ok, vueltas_hechas in *. simpl in *.
      rewrite contar_app. simpl.
      replace (es_mejor_de (Z.of_nat k + 1) (msg_vuelta (Z.of_nat k + 1) v t))
        with false by done.
      { split; [lia|]. intros _.
        destruct (Z.eq_dec v 1) as [-> | Hv1].
        * exfalso.
          destruct l; [|rewrite Hsort, length_app in Hl; simpl in Hl; lia].
          apply tiempo_valido_bajo_1e9 in Ht.
          rewrite Hm in Hlt. unfold mejor_de in Hlt. simpl in Hlt. congruence.
        * destruct Hp as (t' & Ht' & Hin); [lia|].
          exists t'. split; [done|]. apply elem_of_app. by left. }
  - (* PorEnviarMejor *)
    destruct Hinv as (Hrange & Hl & Hm).
    unfold bind, ret.
    destruct (enviar_msg_abierto (msg_mejor (Z.of_nat k + 1) mejor) m Ha)
      as (m' & -> & He & _).
    do 5 eexists. split; [reflexivity|]. split; [exact He|]. split.
    { constructor; [|constructor]. right. by exists mejor. }
    split; [done|]. split.
    { split; simpl; [done|]. split; [lia|]. split; [lia|done]. }
    split; [done|]. split; [done|]. split; [done|]. split; [done|].
    split; [done|]. split; [unfold pendientes; simpl; lia|].
    split.
    2:{ intros regs Hbit. unfold bitacora_ok in *. simpl in *.
        unfold tiempos_de in *. rewrite omap_app.
        change (omap (tiempo_de (Z.of_nat k + 1))
                  [msg_mejor (Z.of_nat k + 1) mejor]) with (@nil float64).
        by rewrite app_nil_r. }
    intros regs (Hb & Hp). unfold anuncios_ok, vueltas_hechas in *. simpl in *.
    rewrite contar_app. simpl.
    assert (Hes : es_mejor_de (Z.of_nat k + 1)
                    (msg_mejor (Z.of_nat k + 1) mejor) = true).
    { unfold es_mejor_de. simpl. by rewrite Z.eqb_refl. }
    rewrite Hes. split; [lia|]. intros _.
    destruct (Z.eq_dec v 1) as [-> | Hv1].
    + destruct sort as [|t1 [|t2 sort]]; simpl in Hl; try lia.
      exists t1. split; [done|]. apply elem_of_app. right.
      assert (Ht1 : tiempo_valido t1) by (by inversion Hval).
      apply tiempo_valido_bajo_1e9 in Ht1.
      rewrite Hm. unfold mejor_de. simpl. rewrite Ht1. apply list_elem_of_here.
    + destruct Hp as (t' & Ht' & Hin); [lia|].
      exists t'. split; [done|]. apply elem_of_app. by left.
  - (* PorSenalar *)
    unfold ret. do 5 eexists. split; [reflexivity|].
    split; [by apply extiende_refl|]. split; [constructor|].
    split; [done|]. split; [by split|].
    split; [done|]. split; [done|]. split; [done|]. split; [done|].
    split; [done|]. split; [unfold pendientes; simpl; lia|].
    split; intros regs Hreg; by rewrite app_nil_r.
  - (* Terminada *)
    unfold ret. do 5 eexists. split; [reflexivity|].
    split; [by apply extiende_refl|]. split; [constructor|].
    split; [done|]. split; [by split|].
    split; [done|]. split; [done|]. split; [done|]. split; [done|].
    split; [done|]. split; [unfold pendientes; simpl; lia|].
    split; intros regs Hreg; by rewrite app_nil_r.
Qed.

(** ** One action within the whole run *)

Lemma contar_insert {A} (f : A -> bool) (l : list A) (k : nat) (x y : A) :
  l !! k = Some x ->
  (contar f (<[k:=y]> l) + (if f x then 1 else 0) =
   contar f l + (if f y then 1 else 0))%nat.
Proof.
  revert k. induction l as [|z l IH]; intros [|k] Hlk; simpl in *; try done.
  - injection Hlk as ->. destruct (f x), (f y); lia.
  - specialize (IH k Hlk). destruct (f z); lia.
Qed.

Lemma contar_lleno {A} (f : A -> bool) (l : list A) :
  contar f l = length l -> Forall (fun x => f x = true) l.
Proof.
  induction l as [|x l IH]; simpl; [constructor|].
  pose proof (contar_cota f l). destruct (f x) eqn:Hx; intros Hc; [|lia].
  constructor; [done|]. apply IH. lia.
Qed.

Lemma anuncios_ajenos (vueltas : Z) (j k : nat) (g : gorutina)
    (regs nuevos : list MensajeWS) :
  j <> k -> Forall (registro_de k) nuevos ->
  anuncios_ok vueltas j g regs -> anuncios_ok vueltas j g (regs ++ nuevos).
Proof.
  intros Hjk Hn (Hb & Hp). split.
  - rewrite contar_app, (contar_ninguno _ nuevos); [by rewrite Nat.add_0_r|].
    eapply Forall_impl; [exact Hn|].
    intros r [(v & t & _ & ->) | (t & ->)]; [done|].
    unfold es_mejor_de. simpl.
    destruct (Z.eqb_spec (Z.of_nat k + 1) (Z.of_nat j + 1)); [lia|done].
  - intros H1. destruct (Hp H1) as (t & Ht & Hin).
    exists t. split; [done|]. apply elem_of_app. by left.
Qed.

Lemma tiempos_de_ajenos (j k : nat) (nuevos : list MensajeWS) :
  j <> k -> Forall (registro_de k) nuevos ->
  tiempos_de (Z.of_nat j + 1) nuevos = [].
Proof.
  intros Hjk. induction 1 as [|r l Hr _ IH]; [done|].
  change (tiempos_de (Z.of_nat j + 1) (r :: l)) with
    (match tiempo_de (Z.of_nat j + 1) r with
     | Some t => t :: tiempos_de (Z.of_nat j + 1) l
     | None => tiempos_de (Z.of_nat j + 1) l
     end).
  rewrite IH.
  destruct Hr as [(v & t & _ & ->) | (t & ->)]; [|done].
  unfold tiempo_de. simpl.
  by destruct (Z.eqb_spec (Z.of_nat k + 1) (Z.of_nat j + 1)); [lia|].
Qed.

Lemma bitacora_ajenos (j k : nat) (g : gorutina)
    (regs nuevos : list MensajeWS) :
  j <> k -> Forall (registro_de k) nuevos ->
  bitacora_ok j g regs -> bitacora_ok j g (regs ++ nuevos).
Proof.
  intros Hjk Hn Hb. unfold bitacora_ok, tiempos_de in *.
  rewrite omap_app.
  fold (tiempos_de (Z.of_nat j + 1) nuevos).
  rewrite (tiempos_de_ajenos j k nuevos Hjk Hn), app_nil_r. exact Hb.
Qed.

(** The invariant is kept by every action of every interleaving of a run of
    [n] goroutines with at least one lap, launched in world [m0]. *)
Section Intercalado.

Context (vueltas : Z) (Hv : 1 <= vueltas) (n : nat) (m0 : mundo).

Lemma paso_auto_ok (k : nat) (c : corrida) (m : mundo) :
  inv_corrida vueltas n m0 c m ->
  exists c' m',
    paso_auto vueltas k c m = Normal c' m' /\
    inv_corrida vueltas n m0 c' m' /\
    forall j g, c_autos c !! j = Some g ->
      exists g', c_autos c' !! j = Some g' /\
        (pendientes vueltas g' <=
         if Nat.eq_dec k j then pred (pendientes vueltas g)
         else pendientes vueltas g)%nat.
Proof.
  intros (Hlr & Hla & Hsen & regs & He & Hregs & Hall).
  unfold paso_auto. destruct (c_autos c !! k) as [g|] eqn:Hg.
  - assert (Hk : (k < n)%nat) by (rewrite <- Hla; by eapply lookup_lt_Some).
    destruct (Hall k g Hg) as (Hid & Hinv & Hcas & Han & Hbi).
    destruct (avanzar_ok vueltas n k g (c_resultados c) m Hv
                (proj1 (proj2 He)) Hid Hk Hlr Hinv Hcas)
      as (g' & res' & s & m' & nuevos & Hav & He' & Hnuevos & Hid' & Hinv' &
          Hcas' & Hlr' & Hotros & Hs & Hterm & Hpend & Han' & Hbi').
    unfold bind, ret. rewrite Hav. simpl.
    eexists _, m'. split; [reflexivity|]. split.
    + split; [done|]. split; [simpl; by rewrite length_insert|]. split.
      { simpl. pose proof (contar_insert es_terminada _ k g g' Hg) as Hc.
        rewrite Hs. destruct (es_terminada g) eqn:Htg.
        - rewrite (Hterm eq_refl) in *. simpl in *. lia.
        - destruct (es_terminada g'); simpl in *; lia. }
      exists (regs ++ nuevos). split; [by eapply extiende_trans|]. split.
      { apply Forall_app. split; [done|].
        eapply Forall_impl; [exact Hnuevos|]. intros r Hr. by exists k. }
      simpl. intros j gj Hj. destruct (Nat.eq_dec j k) as [-> | Hjk].
      * rewrite list_lookup_insert_eq in Hj by lia. injection Hj as <-.
        split; [done|]. split; [done|]. split; [done|].
        split; [by apply Han'|by apply Hbi'].
      * rewrite list_lookup_insert_ne in Hj by done.
        destruct (Hall j gj Hj) as (Hidj & Hinvj & Hcasj & Hanj & Hbij).
        split; [done|]. split; [done|]. split; [|split].
        -- unfold casilla_ok in *. by rewrite Hotros.
        -- by apply anuncios_ajenos with k.
        -- by apply bitacora_ajenos with k.
    + simpl. intros j gj Hj. destruct (Nat.eq_dec k j) as [<- | Hjk].
      * exists g'. rewrite list_lookup_insert_eq by lia.
        split; [done|]. congruence.
      * exists gj. rewrite list_lookup_insert_ne by done. split; [done|lia].
  - exists c, m. split; [done|]. split.
    + split; [done|]. split; [done|]. split; [done|]. by exists regs.
    + intros j gj Hj. exists gj. split; [done|].
      destruct (Nat.eq_dec k j) as [-> | _]; [congruence|lia].
Qed.

Lemma ejecutar_ok (plan : list nat) (c : corrida) (m : mundo) :
  inv_corrida vueltas n m0 c m ->
  exists c' m',
    ejecutar vueltas plan c m = Normal c' m' /\
    inv_corrida vueltas n m0 c' m' /\
    forall j g, c_autos c !! j = Some g ->
      exists g', c_autos c' !! j = Some g' /\
        (pendientes vueltas g' <=
         pendientes vueltas g - count_occ Nat.eq_dec plan j)%nat.
Proof.
  revert c m. induction plan as [|k plan IH]; intros c m Hinv.
  - exists c, m. split; [done|]. split; [done|].
    intros j g Hj. exists g. split; [done|]. simpl. lia.
  - simpl ejecutar. unfold bind.
    destruct (paso_auto_ok k c m Hinv)
      as (c1 & m1 & -> & Hinv1 & Hp1).
    destruct (IH c1 m1 Hinv1) as (c2 & m2 & -> & Hinv2 & Hp2).
    exists c2, m2. split; [done|]. split; [done|].
    intros j g Hj. destruct (Hp1 j g Hj) as (g1 & Hj1 & Hle1).
    destruct (Hp2 j g1 Hj1) as (g2 & Hj2 & Hle2).
    exists g2. split; [done|]. simpl.
    destruct (Nat.eq_dec k j); lia.
Qed.

End Intercalado.

Lemma inv_lanzar (cantidadAutos vueltas : Z) (m : mundo) :
  1 <= vueltas -> cerrado (enviar m) = false ->
  inv_corrida vueltas (Z.to_nat cantidadAutos) m (lanzar cantidadAutos) m.
Proof.
  intros Hv Ha. unfold lanzar, make_resultados. split; [|split; [|split]]; simpl.
  - by rewrite length_replicate.
  - by rewrite length_fmap, length_seq.
  - symmetry. apply contar_ninguno, Forall_fmap, Forall_forall. by intros.
  - exists []. split; [by apply extiende_refl|]. split; [constructor|].
    intros k g Hk. rewrite list_lookup_fmap in Hk.
    destruct (seq 0 (Z.to_nat cantidadAutos) !! k) as [i|] eqn:Hi;
      [|discriminate Hk].
    apply lookup_seq in Hi as [-> _]. injection Hk as <-. simpl.
    split; [done|]. split; [|split; [done|split; [|done]]].
    + split; [constructor|]. simpl. split; [lia|]. by split.
    + split; simpl; [unfold vueltas_hechas; simpl; lia|].
      unfold vueltas_hechas. simpl. lia.
Qed.

Lemma lanzar_lookup (cantidadAutos : Z) (j : nat) :
  (j < Z.to_nat cantidadAutos)%nat ->
  c_autos (lanzar cantidadAutos) !! j = Some (nueva_gorutina (Z.of_nat j)).
Proof.
  intros Hj. unfold lanzar. simpl. rewrite list_lookup_fmap.
  by rewrite (lookup_seq_lt 0 _ _ Hj).
Qed.

Lemma pendientes_cero (vueltas : Z) (g : gorutina) :
  inv_gorutina vueltas g -> pendientes vueltas g = 0%nat ->
  es_terminada g = true.
Proof.
  intros (_ & Hinv). unfold pendientes, es_terminada.
  destruct (g_punto g); try done; lia.
Qed.

(** ** The whole parallel run *)

Lemma correrOpenMP_sin_autos (cantidadAutos vueltas : Z) (plan : list nat)
    (m : mundo) :
  cantidadAutos < 1 -> cerrado (enviar m) = false ->
  correrOpenMP cantidadAutos vueltas plan m =
    Retorno None
      {| crudo := crudo m; cursor := cursor m;
         enviar := {| cerrado := false;
                      cola := cola (enviar m) ++
                              [msg_error_openmp; msg_fin_openmp] |} |}.
Proof.
  intros Hs Ha. unfold correrOpenMP.
  destruct (Z.ltb_spec cantidadAutos 1); [|lia].
  unfold bind, enviar_msg. rewrite Ha. simpl. by rewrite <- app_assoc.
Qed.

(** The run of [correrOpenMP] on an open channel, for at least one car:
    the start record is sent, the goroutines act as [plan] says and keep the
    invariant, and the call either still waits at the barrier or has sent
    the summary and the done record and returned. *)
Lemma correrOpenMP_abierto (cantidadAutos vueltas : Z) (plan : list nat)
    (m : mundo) :
  1 <= cantidadAutos -> cerrado (enviar m) = false ->
  let vueltas' := if vueltas <? 1 then 1 else vueltas in
  exists m1 c m2,
    extiende m m1 [msg_inicio_openmp cantidadAutos vueltas'] /\
    inv_corrida vueltas' (Z.to_nat cantidadAutos) m1 c m2 /\
    (forall j, (j < Z.to_nat cantidadAutos)%nat ->
       exists g, c_autos c !! j = Some g /\
         (pendientes vueltas' g <=
          3 * Z.to_nat vueltas' + 2 - count_occ Nat.eq_dec plan j)%nat) /\
    ((Z.of_nat (c_senales c) < cantidadAutos /\
      correrOpenMP cantidadAutos vueltas plan m = EnBarrera c m2) \/
     (Forall (fun g => es_terminada g = true) (c_autos c) /\
      exists m3,
        correrOpenMP cantidadAutos vueltas plan m =
          Retorno (Some (c, calcular_mejor_general (c_resultados c))) m3 /\
        extiende m2 m3
          [msg_resumen_openmp (c_resultados c)
             (calcular_mejor_general (c_resultados c));
           msg_fin_openmp])).
Proof.
  intros Hn Ha vueltas'.
  assert (Hv : 1 <= vueltas')
    by (unfold vueltas'; destruct (Z.ltb_spec vueltas 1); lia).
  unfold correrOpenMP. destruct (Z.ltb_spec cantidadAutos 1); [lia|].
  cbv zeta. fold vueltas'. unfold bind.
  destruct (enviar_msg_abierto (msg_inicio_openmp cantidadAutos vueltas') m Ha)
    as (m1 & -> & He1 & _).
  destruct (ejecutar_ok vueltas' Hv (Z.to_nat cantidadAutos) m1 plan
              (lanzar cantidadAutos) m1)
    as (c & m2 & -> & Hinv & Hpend);
    [apply inv_lanzar; [done|apply He1]|].
  exists m1, c, m2. split; [done|]. split; [done|]. split.
  { intros j Hj. destruct (Hpend j _ (lanzar_lookup _ _ Hj)) as (g & Hg & Hle).
    exists g. split; [done|]. unfold pendientes in Hle at 2. simpl in Hle.
    replace (vueltas' + 1 - 1) with vueltas' in Hle by lia. exact Hle. }
  destruct (Z.ltb_spec (Z.of_nat (c_senales c)) cantidadAutos) as [Hlt|Hge].
  - left. by split.
  - right. destruct Hinv as (Hlr & Hla & Hsen & regs & He & Hrest).
    split.
    { apply contar_lleno. pose proof (contar_cota es_terminada (c_autos c)).
      lia. }
    destruct (enviar_msg_abierto
                (msg_resumen_openmp (c_resultados c)
                   (calcular_mejor_general (c_resultados c))) m2)
      as (m3 & -> & He3 & _); [apply He|].
    destruct (enviar_msg_abierto msg_fin_openmp m3) as (m4 & -> & He4 & _);
      [apply He3|].
    exists m4. split; [done|].
    apply (extiende_trans _ _ _ _ _ He3 He4).
Qed.

(** With a fair plan every goroutine finishes and the call returns. *)
Lemma correrOpenMP_plan_justo (cantidadAutos vueltas : Z) (plan : list nat)
    (m : mundo) :
  1 <= cantidadAutos -> 1 <= vueltas -> cerrado (enviar m) = false ->
  plan_justo cantidadAutos vueltas plan ->
  exists c g m',
    correrOpenMP cantidadAutos vueltas plan m = Retorno (Some (c, g)) m'.
Proof.
  intros Hn Hv Ha Hjusto.
  destruct (correrOpenMP_abierto cantidadAutos vueltas plan m Hn Ha)
    as (m1 & c & m2 & _ & Hinv & Hpend & Hfin).
  destruct (Z.ltb_spec vueltas 1) as [|_]; [lia|].
  destruct Hfin as [(Hlt & _) | (_ & m3 & -> & _)]; [|by eauto].
  exfalso. destruct Hinv as (Hlr & Hla & Hsen & regs & He & _ & Hall).
  assert (Hterm : Forall (fun g => es_terminada g = true) (c_autos c)).
  { apply Forall_lookup. intros j g Hj.
    assert (Hjn : (j < Z.to_nat cantidadAutos)%nat)
      by (rewrite <- Hla; by eapply lookup_lt_Some).
    destruct (Hpend j Hjn) as (g' & Hg' & Hle).
    rewrite Hj in Hg'. injection Hg' as <-.
    destruct (Hall j g Hj) as (_ & Hg & _).
    apply (pendientes_cero vueltas g Hg).
    specialize (Hjusto j Hjn). lia. }
  apply contar_todos in Hterm. lia.
Qed.

(** ** Round robin is fair *)

Lemma count_occ_seq_uno (desde cuantos k : nat) :
  count_occ Nat.eq_dec (seq desde cuantos) k =
    if decide (desde <= k < desde + cuantos)%nat then 1%nat else 0%nat.
Proof.
  revert desde. induction cuantos as [|c IH]; intros desde; simpl.
  - case_decide; [lia|done].
  - rewrite IH. destruct (Nat.eq_dec desde k); repeat case_decide; lia.
Qed.

Lemma plan_rondas_cuenta (autos rondas k : nat) :
  (k < autos)%nat ->
  count_occ Nat.eq_dec (plan_rondas autos rondas) k = rondas.
Proof.
  intros Hk. unfold plan_rondas. induction rondas as [|r IH]; [done|].
  simpl. rewrite count_occ_app, IH, count_occ_seq_uno.
  case_decide; lia.
Qed.

Lemma plan_rondas_es_justo (cantidadAutos vueltas : Z) :
  plan_justo cantidadAutos vueltas
    (plan_rondas (Z.to_nat cantidadAutos) (3 * Z.to_nat vueltas + 2)).
Proof. intros k Hk. by rewrite plan_rondas_cuenta. Qed.

(** Some interleaving lets the call return, whatever the number of cars and
    of laps: the barrier is not passed vacuously. *)
Lemma correrOpenMP_retorna (cantidadAutos vueltas : Z) (m : mundo) :
  1 <= cantidadAutos -> 1 <= vueltas -> cerrado (enviar m) = false ->
  exists plan c g m',
    correrOpenMP cantidadAutos vueltas plan m = Retorno (Some (c, g)) m'.
Proof.
  intros Hn Hv Ha. eexists.
  eapply correrOpenMP_plan_justo; [done..|]. apply plan_rondas_es_justo.
Qed.





(** Eight rounds of round robin are fair for two cars and two laps, so the
    run of the instance above does return. *)
Example plan_rondas_justo : plan_justo 2 2 (plan_rondas 2 8).
Proof. apply (plan_rondas_es_justo 2 2). Qed.

(** ** The overall best *)

Lemma primer_minimo (l : list ResultadoOpenMP) (inicial : ResultadoOpenMP) :
  let g := fold_left
             (fun mejorGeneral r =>
                if float64_ltb (MejorVuelta r) (MejorVuelta mejorGeneral)
                then r else mejorGeneral) l inicial in
  (g = inicial /\
   forall r, r ∈ l -> (MejorVuelta inicial <= MejorVuelta r)%Q) \/
  (exists i : nat, l !! i = Some g /\
     (MejorVuelta g < MejorVuelta inicial)%Q /\
     forall (j : nat) r, l !! j = Some r ->
       (MejorVuelta g <= MejorVuelta r)%Q /\
       ((j < i)%nat -> (MejorVuelta g < MejorVuelta r)%Q)).
Proof.
  revert inicial. induction l as [|x l IH]; intros inicial; simpl.
  - left. split; [done|]. intros r Hr. by apply elem_of_nil in Hr.
  - destruct (float64_ltb (MejorVuelta x) (MejorVuelta inicial)) eqn:Hx.
    + apply float64_ltb_lt in Hx. right.
      destruct (IH x) as [(Hg & Hall) | (i & Hi & Hlt & Hall)].
      * exists 0%nat. rewrite Hg. split; [done|]. split; [done|].
        intros [|j] r Hr; simpl in Hr.
        -- injection Hr as <-. split; [apply Qle_refl|lia].
        -- split; [|lia]. apply Hall. by eapply list_elem_of_lookup_2.
      * exists (S i). split; [done|]. split; [by eapply Qlt_trans|].
        intros [|j] r Hr; simpl in Hr.
        -- injection Hr as <-. split; [by apply Qlt_le_weak|done].
        -- destruct (Hall j r Hr) as [Hle Hlt']. split; [done|].
           intros Hj. apply Hlt'. lia.
    + apply float64_ltb_ge in Hx.
      destruct (IH inicial) as [(Hg & Hall) | (i & Hi & Hlt & Hall)].
      * left. split; [done|]. intros r Hr.
        apply elem_of_cons in Hr as [-> | Hr]; [done|by apply Hall].
      * right. exists (S i). split; [done|]. split; [done|].
        intros [|j] r Hr; simpl in Hr.
        -- injection Hr as <-.
           assert (MejorVuelta
                     (fold_left
                        (fun mejorGeneral r =>
                           if float64_ltb (MejorVuelta r)
                                (MejorVuelta mejorGeneral)
                           then r else mejorGeneral) l inicial)
                   < MejorVuelta x)%Q by (by eapply Qlt_le_trans).
           split; [by apply Qlt_le_weak|done].
        -- destruct (Hall j r Hr) as [Hle Hlt']. split; [done|].
           intros Hj. apply Hlt'. lia.
Qed.






(** The tie rule at work: two cars with the same best lap, the first wins. *)
Example empate_gana_el_primero :
  calcular_mejor_general
    [ {| AutoID := 1; MejorVuelta := 80.5%Q; CantidadVueltas := 3 |};
      {| AutoID := 2; MejorVuelta := 77.25%Q; CantidadVueltas := 3 |};
      {| AutoID := 3; MejorVuelta := 77.25%Q; CantidadVueltas := 3 |} ]
  = {| AutoID := 2; MejorVuelta := 77.25%Q; CantidadVueltas := 3 |}.
Proof. reflexivity. Qed.


(** ** Lap times *)


(** ** The sentinel *)




(** ** Invalid configurations *)

(** C7: with a unit count below 1 and an open channel, [correrMPI] and
    [correrOpenMP] send exactly one error record followed by one done record
    and return: no duration is drawn, no goroutine is launched, the slice of
    results is never made, and the goroutine that runs the call does not
    panic. *)
Theorem C7_sin_unidades (unidades vueltas : Z) (plan : list nat) (m : mundo) :
  unidades < 1 -> cerrado (enviar m) = false ->
  correrMPI unidades vueltas m =
    Normal tt {| crudo := crudo m; cursor := cursor m;
                 enviar := {| cerrado := false;
                              cola := cola (enviar m) ++
                                      [msg_error_mpi; msg_fin_mpi] |} |} /\
  correrOpenMP unidades vueltas plan m =
    Retorno None
      {| crudo := crudo m; cursor := cursor m;
         enviar := {| cerrado := false;
                      cola := cola (enviar m) ++
                              [msg_error_openmp; msg_fin_openmp] |} |} /\
  (exists m', go (correrMPI unidades vueltas) m = Vivo m') /\
  es_error msg_error_mpi = true /\ es_fin msg_fin_mpi = true /\
  es_error msg_error_openmp = true /\ es_fin msg_fin_openmp = true /\
  Topico msg_error_mpi = "mpi" /\ Topico msg_fin_mpi = "mpi" /\
  Topico msg_error_openmp = "openmp" /\ Topico msg_fin_openmp = "openmp".
Proof.
  intros Hu Ha. split; [by apply correrMPI_sin_sectores|].
  split; [by apply correrOpenMP_sin_autos|]. split; [|by repeat split].
  unfold go. rewrite (correrMPI_sin_sectores _ _ _ Hu Ha). by eexists.
Qed.

Lemma C7_sin_unidades_testigo :
  correrMPI 0 3 (mundo_inicial fuente_ejemplo) =
    Normal tt {| crudo := crudo (mundo_inicial fuente_ejemplo);
                 cursor := cursor (mundo_inicial fuente_ejemplo);
                 enviar := {| cerrado := false;
                              cola := cola (enviar (mundo_inicial fuente_ejemplo)) ++
                                      [msg_error_mpi; msg_fin_mpi] |} |} /\
  correrOpenMP 0 3 [0; 1]%nat (mundo_inicial fuente_ejemplo) =
    Retorno None
      {| crudo := crudo (mundo_inicial fuente_ejemplo);
         cursor := cursor (mundo_inicial fuente_ejemplo);
         enviar := {| cerrado := false;
                      cola := cola (enviar (mundo_inicial fuente_ejemplo)) ++
                              [msg_error_openmp; msg_fin_openmp] |} |} /\
  (exists m', go (correrMPI 0 3) (mundo_inicial fuente_ejemplo) = Vivo m') /\
  es_error msg_error_mpi = true /\ es_fin msg_fin_mpi = true /\
  es_error msg_error_openmp = true /\ es_fin msg_fin_openmp = true /\
  Topico msg_error_mpi = "mpi" /\ Topico msg_fin_mpi = "mpi" /\
  Topico msg_error_openmp = "openmp" /\ Topico msg_fin_openmp = "openmp".
Proof.
  apply (C7_sin_unidades 0 3 [0; 1]%nat (mundo_inicial fuente_ejemplo));
    [lia | reflexivity].
Defined.

(** ** Lap counts below 1 *)





(** ** Sending after the channel is closed *)

Lemma cerrar_canal_abierto (m : mundo) :
  cerrado (enviar m) = false ->
  cerrar_canal m =
    Normal tt {| crudo := crudo m; cursor := cursor m;
                 enviar := {| cerrado := true; cola := cola (enviar m) |} |}.
Proof. intros Ha. unfold cerrar_canal. by rewrite Ha. Qed.

Lemma correrMPI_cerrado (sectores vueltas : Z) (m : mundo) :
  cerrado (enviar m) = true ->
  correrMPI sectores vueltas m = Panico "send on closed channel" m.
Proof.
  intros Hc. unfold correrMPI.
  destruct (sectores <? 1); unfold bind; by rewrite enviar_msg_cerrado.
Qed.

Lemma paso_sector_cerrado (v s : Z) (m : mundo) :
  cerrado (enviar m) = true ->
  exists m', paso_sector v s m = Panico "send on closed channel" m'.
Proof.
  intros Hc. unfold paso_sector, bind, dormir, ret.
  destruct (rand_Intn_cotas 2300 m) as (x & -> & _); [lia|].
  rewrite enviar_msg_cerrado by done. by eexists.
Qed.

Lemma correrOpenMP_cerrado (cantidadAutos vueltas : Z) (plan : list nat)
    (m : mundo) :
  cerrado (enviar m) = true ->
  correrOpenMP cantidadAutos vueltas plan m =
    Caida "send on closed channel" m.
Proof.
  intros Hc. unfold correrOpenMP.
  destruct (cantidadAutos <? 1); unfold bind; by rewrite enviar_msg_cerrado.
Qed.

(** C6 (what the code does): once [wsHandler] has returned and its deferred
    [close(enviar)] has run, a send on [enviar] does not block, but it does
    not return an error either: it panics, and since neither [correrMPI]
    nor [correrOpenMP] recovers, the goroutine started by [go correrMPI] or
    [go correrOpenMP] takes the whole program down, both when the run
    starts after the close and when the close happens while the run sleeps
    between two sends. *)
Theorem C6_envio_tras_cierre (fuente : nat -> Z) (previos : list MensajeWS)
    (pos : nat) :
  let m := {| crudo := fuente; cursor := pos;
              enviar := {| cerrado := false; cola := previos |} |} in
  exists m1,
    cerrar_canal m = Normal tt m1 /\
    (forall msg, enviar_msg msg m1 = Panico "send on closed channel" m1) /\
    (forall sectores vueltas,
       go (correrMPI sectores vueltas) m1 = Muerto "send on closed channel") /\
    (forall v s, go (paso_sector v s) m1 = Muerto "send on closed channel") /\
    (forall cantidadAutos vueltas plan,
       correrOpenMP cantidadAutos vueltas plan m1 =
         Caida "send on closed channel" m1).
Proof.
  intros m. eexists. split; [by apply cerrar_canal_abierto|].
  split; [|split; [|split]].
  - intros msg. by apply enviar_msg_cerrado.
  - intros sectores vueltas. unfold go. by rewrite correrMPI_cerrado.
  - intros v s. unfold go.
    by destruct (paso_sector_cerrado v s
                   {| crudo := crudo m; cursor := cursor m;
                      enviar := {| cerrado := true;
                                   cola := cola (enviar m) |} |} eq_refl)
      as (m' & ->).
  - intros cantidadAutos vueltas plan. by apply correrOpenMP_cerrado.
Qed.

(** The failing scenario of C6 played out: a ring run of one sector and one
    lap sends its first two records, draws a duration and sleeps; the client
    disconnects, [wsHandler] returns and closes [enviar]; the run wakes up
    and its next send kills the program. *)
Example C6_desconexion_durante_la_corrida :
  let antes :=
    enviar_msg (msg_inicio_mpi 1 1) ;;
    enviar_msg (msg_cabecera 1) ;;
    cerrar_canal in
  go (antes ;; paso_sector 1 1) (mundo_inicial fuente_ejemplo) =
    Muerto "send on closed channel".
Proof. reflexivity. Qed.

(** The sibling of [correrMPI] in src/unnamed/part_000 sends through a
    function that drops the error of a closed connection: there a run never
    panics, and on a closed connection it writes nothing. *)
Lemma runMPI_no_entra_en_panico (sectors laps : Z) (m : mundo) :
  exists m', Parte000.runMPI sectors laps m = Normal tt m' /\
             cerrado (enviar m') = cerrado (enviar m) /\
             (cerrado (enviar m) = true -> enviar m' = enviar m).
Proof.
  assert (Hsend : forall msg m0, exists m1,
            Parte000.send msg m0 = Normal tt m1 /\
            cerrado (enviar m1) = cerrado (enviar m0) /\
            (cerrado (enviar m0) = true -> enviar m1 = enviar m0)).
  { intros msg m0. unfold Parte000.send.
    destruct (cerrado (enviar m0)) eqn:Hc; eexists; (split; [done|]).
    - by rewrite Hc.
    - by split. }
  assert (Hseq : forall (c1 c2 : M unit) m0,
            (forall m, exists m1, c1 m = Normal tt m1 /\
               cerrado (enviar m1) = cerrado (enviar m) /\
               (cerrado (enviar m) = true -> enviar m1 = enviar m)) ->
            (forall m, exists m1, c2 m = Normal tt m1 /\
               cerrado (enviar m1) = cerrado (enviar m) /\
               (cerrado (enviar m) = true -> enviar m1 = enviar m)) ->
            exists m2, (c1 ;; c2) m0 = Normal tt m2 /\
               cerrado (enviar m2) = cerrado (enviar m0) /\
               (cerrado (enviar m0) = true -> enviar m2 = enviar m0)).
  { intros c1 c2 m0 H1 H2. unfold bind.
    destruct (H1 m0) as (m1 & -> & Hc1 & He1).
    destruct (H2 m1) as (m2 & -> & Hc2 & He2).
    exists m2. split; [done|]. split; [congruence|].
    intros Hc. rewrite He2, He1; [done|done|congruence]. }
  assert (Hrep : forall (cuerpo : Z -> M unit),
            (forall i m, exists m1, cuerpo i m = Normal tt m1 /\
               cerrado (enviar m1) = cerrado (enviar m) /\
               (cerrado (enviar m) = true -> enviar m1 = enviar m)) ->
            forall n i m0, exists m1, repetir n i cuerpo m0 = Normal tt m1 /\
               cerrado (enviar m1) = cerrado (enviar m0) /\
               (cerrado (enviar m0) = true -> enviar m1 = enviar m0)).
  { intros cuerpo Hc n. induction n as [|n IH]; intros i m0.
    - by exists m0.
    - simpl. apply Hseq; [apply Hc|]. intros m1. apply IH. }
  assert (Hsector : forall lap s m0, exists m1,
            (n <- rand_Intn 2300 ;;
             let secTime := float64_div (float64_of_int (n + 1200)) f100 in
             dormir 300 ;;
             Parte000.send
               {| Tipo := "log"; Topico := "mpi";
                  Texto := Sprintf fmt_sector [VInt s; VFloat secTime; VInt lap];
                  Obj := None |}) m0 = Normal tt m1 /\
            cerrado (enviar m1) = cerrado (enviar m0) /\
            (cerrado (enviar m0) = true -> enviar m1 = enviar m0)).
  { intros lap s m0. unfold bind at 1.
    destruct (rand_Intn_cotas 2300 m0) as (x & -> & _); [lia|].
    cbv zeta. unfold bind, dormir, ret.
    destruct (Hsend {| Tipo := "log"; Topico := "mpi";
                 Texto := Sprintf fmt_sector
                   [VInt s;
                    VFloat (float64_div (float64_of_int (x + 1200)) f100);
                    VInt lap];
                 Obj := None |}
                {| crudo := crudo m0; cursor := S (cursor m0);
                   enviar := enviar m0 |}) as (m1 & -> & Hc & He).
    by exists m1. }
  unfold Parte000.runMPI. destruct (sectors <? 1).
  - apply Hseq; intros; apply Hsend.
  - cbv zeta. apply Hseq; [intros; apply Hsend|]. intros m1.
    apply Hseq; [|intros; apply Hseq; intros; apply Hsend].
    intros m2. unfold para. apply Hrep. intros lap m3.
    apply Hseq; [intros; apply Hsend|].
    intros m4. apply Hrep. intros s m5. apply Hsector.
Qed.

(** ** Defaults of the start commands *)

(** A field that is absent or holds anything but a number. *)
Lemma campo_no_numerico (comando : gmap string json) (clave : string) :
  (forall v, comando !! clave <> Some (JNum v)) ->
  campo_float64 comando clave = None.
Proof.
  intros Hno. unfold campo_float64.
  destruct (comando !! clave) as [[]|]; try done. by destruct (Hno x).
Qed.

Lemma despachar_mpi_por_defecto (comando : gmap string json) :
  accion_es comando "iniciar_mpi" = true ->
  (forall v, comando !! "sectores" <> Some (JNum v)) ->
  (forall v, comando !! "vueltas" <> Some (JNum v)) ->
  despachar comando = LanzaMPI 1 1 /\
  Revision2.despachar comando = LanzaMPI 5 3.
Proof.
  intros Ha Hs%campo_no_numerico Hv%campo_no_numerico.
  unfold despachar, Revision2.despachar. by rewrite Ha, Hs, Hv.
Qed.

Lemma despachar_openmp_por_defecto (comando : gmap string json) :
  accion_es comando "iniciar_openmp" = true ->
  (forall v, comando !! "autos" <> Some (JNum v)) ->
  (forall v, comando !! "vueltas" <> Some (JNum v)) ->
  despachar comando = LanzaOpenMP 3 5 /\
  Revision2.despachar comando = LanzaOpenMP 4 5.
Proof.
  intros Ha Hs%campo_no_numerico Hv%campo_no_numerico.
  unfold despachar, Revision2.despachar.
  assert (Hm : accion_es comando "iniciar_mpi" = false).
  { unfold accion_es in *. destruct (comando !! "action") as [[]|]; try done.
    apply String.eqb_eq in Ha as ->. done. }
  by rewrite Hm, Ha, Hs, Hv.
Qed.

Lemma despachar_parte000_por_defecto (m : gmap string json) :
  (Parte000.cmd m = "start_mpi" ->
   (forall v, m !! "sectors" <> Some (JNum v)) ->
   (forall v, m !! "laps" <> Some (JNum v)) ->
   Parte000.despachar m = LanzaMPI 1 1) /\
  (Parte000.cmd m = "start_openmp" ->
   (forall v, m !! "cars" <> Some (JNum v)) ->
   (forall v, m !! "laps" <> Some (JNum v)) ->
   Parte000.despachar m = LanzaOpenMP 3 5).
Proof.
  unfold Parte000.despachar.
  split; intros -> ->%campo_no_numerico ->%campo_no_numerico; done.
Qed.

(** C9 (what the code does): on a start command without numeric fields, or
    with fields that are not numbers, the [wsHandler] of src/main.go lines
    172-192 starts the ring run with 1 sector and 1 lap and the parallel run
    with 3 cars and 5 laps, and so does the handler of src/unnamed/part_000;
    the values 5 and 3, 4 and 5 of the sentence are those of the revised
    handler in the second program of src/main.go. *)
Theorem C9_valores_por_defecto :
  despachar {[ "action" := JStr "iniciar_mpi" ]} = LanzaMPI 1 1 /\
  despachar {[ "action" := JStr "iniciar_openmp" ]} = LanzaOpenMP 3 5 /\
  despachar (<[ "sectores" := JStr "cinco" ]>
             (<[ "vueltas" := JNull ]>
              {[ "action" := JStr "iniciar_mpi" ]})) = LanzaMPI 1 1 /\
  despachar (<[ "autos" := JBool true ]>
             {[ "action" := JStr "iniciar_openmp" ]}) = LanzaOpenMP 3 5 /\
  Parte000.despachar {[ "action" := JStr "start_mpi" ]} = LanzaMPI 1 1 /\
  Parte000.despachar {[ "action" := JStr "start_openmp" ]} = LanzaOpenMP 3 5 /\
  Revision2.despachar {[ "action" := JStr "iniciar_mpi" ]} = LanzaMPI 5 3 /\
  Revision2.despachar {[ "action" := JStr "iniciar_openmp" ]} = LanzaOpenMP 4 5.
Proof. repeat split; vm_compute; reflexivity. Qed.

(** Numeric fields are taken as sent, truncated towards zero. *)
Example despachar_con_campos :
  despachar (<[ "sectores" := JNum 4.9%Q ]>
             (<[ "vueltas" := JNum 2%Q ]>
              {[ "action" := JStr "iniciar_mpi" ]})) = LanzaMPI 4 2.
Proof. vm_compute. reflexivity. Qed.

(** ** Adequacy of the idealised float64

    The simulators were embedded over exact rationals. These lemmas check
    the idealisation against binary64 itself (Rocq's primitive floats) on
    every value the program can generate. *)

Module Binary64Adecuacion.
Import Binary64.

Lemma para_todo_spec (desde cuantos : Z) (p : Z -> bool) :
  para_todo desde cuantos p = true ->
  forall n, desde <= n < desde + cuantos -> p n = true.
Proof.
  unfold para_todo. rewrite forallb_forall. intros Hall n Hn.
  apply Hall, list_elem_of_In, elem_of_seqZ. lia.
Qed.

(** Sector durations compare with the bounds of the specification as
    binary64 numbers too. *)
Lemma rango_sector (n : Z) :
  1200 <= n <= 3499 ->
  PrimFloat.leb 12%float (centesimas n) = true /\
  PrimFloat.leb (centesimas n) f35_99 = true.
Proof.
  intros Hn.
  assert (Hall : para_todo 1200 2300 (fun k =>
            PrimFloat.leb 12%float (centesimas k) &&
            PrimFloat.leb (centesimas k) f35_99) = true)
    by (vm_compute; reflexivity).
  apply andb_true_iff. apply (para_todo_spec _ _ _ Hall). lia.
Qed.


(** The binary64 quotient is the number of hundredths up to the rounding of
    the division, far below half a hundredth: [%.2f] prints [n/100]. *)
Lemma centesimas_cercanas (n : Z) :
  1200 <= n <= 3499 \/ 7500 <= n <= 9598 ->
  cerca_de n (centesimas n) = true.
Proof.
  assert (H1 : para_todo 1200 2300 (fun k => cerca_de k (centesimas k)) = true)
    by (vm_compute; reflexivity).
  assert (H2 : para_todo 7500 2099 (fun k => cerca_de k (centesimas k)) = true)
    by (vm_compute; reflexivity).
  intros [Hn | Hn].
  - apply (para_todo_spec _ _ _ H1). lia.
  - apply (para_todo_spec _ _ _ H2). lia.
Qed.

Lemma mantisa_vecinas (n : Z) :
  7500 <= n < 9598 ->
  exists a b, mantisa (-46) (centesimas n) = Some a /\
              mantisa (-46) (centesimas (n + 1)) = Some b /\
              (a < b)%positive.
Proof.
  intros Hn.
  assert (Hall : para_todo 7500 2098 (fun k =>
            match mantisa (-46) (centesimas k),
                  mantisa (-46) (centesimas (k + 1)) with
            | Some a, Some b => (a <? b)%positive
            | _, _ => false
            end) = true)
    by (vm_compute; reflexivity).
  assert (Hn' : 7500 <= n < 7500 + 2098) by lia.
  pose proof (para_todo_spec _ _ _ Hall n Hn') as H. cbv beta in H.
  destruct (mantisa (-46) (centesimas n)) as [a|]; [|discriminate H].
  destruct (mantisa (-46) (centesimas (n + 1))) as [b|]; [|discriminate H].
  exists a, b. split; [done|]. split; [done|]. by apply Pos.ltb_lt.
Qed.

Lemma mantisa_definida (n : Z) :
  7500 <= n <= 9598 -> exists m, mantisa (-46) (centesimas n) = Some m.
Proof.
  intros Hn. destruct (Z.eq_dec n 9598) as [-> | Hne].
  - destruct (mantisa_vecinas 9597) as (a & b & _ & Hb & _); [lia|].
    by exists b.
  - destruct (mantisa_vecinas n) as (a & b & Ha & _); [lia|]. by exists a.
Qed.

Lemma mantisa_creciente (k : nat) (a : Z) :
  7500 <= a -> a + 1 + Z.of_nat k <= 9598 ->
  exists ma mb, mantisa (-46) (centesimas a) = Some ma /\
                mantisa (-46) (centesimas (a + 1 + Z.of_nat k)) = Some mb /\
                (ma < mb)%positive.
Proof.
  induction k as [|k IH]; intros Ha Hb.
  - replace (a + 1 + Z.of_nat 0) with (a + 1) by lia.
    apply mantisa_vecinas. lia.
  - destruct IH as (ma & mb & Hma & Hmb & Hlt); [lia|lia|].
    destruct (mantisa_vecinas (a + 1 + Z.of_nat k)) as (mb' & mc & Hmb' & Hmc & Hlt');
      [lia|].
    rewrite Hmb in Hmb'. injection Hmb' as <-.
    exists ma, mc. split; [done|]. split.
    + rewrite <- Hmc. f_equal. f_equal. lia.
    + by eapply Pos.lt_trans.
Qed.

Lemma mantisa_Prim2SF (e : Z) (x : float) (m : positive) :
  mantisa e x = Some m -> Prim2SF x = S754_finite false m e.
Proof.
  unfold mantisa. destruct (Prim2SF x) as [| | |[] m' e']; try done.
  destruct (Z.eqb_spec e' e) as [-> |]; [|done]. by intros [= ->].
Qed.

Lemma ltb_misma_escala (x y : float) (e : Z) (mx my : positive) :
  mantisa e x = Some mx -> mantisa e y = Some my ->
  PrimFloat.ltb x y = (mx <? my)%positive.
Proof.
  intros Hx%mantisa_Prim2SF Hy%mantisa_Prim2SF.
  rewrite ltb_spec, Hx, Hy. unfold SFltb, SFcompare.
  rewrite Z.compare_refl. unfold Pos.ltb.
  change (PosDef.Pos.compare_cont Eq mx my) with (mx ?= my)%positive.
  by destruct (mx ?= my)%positive.
Qed.

(** On lap times, [<] of binary64 is [<] of the idealised float64: the
    running minimum and the overall best select the same laps. *)
Lemma orden_de_vueltas (a b : Z) :
  7500 <= a <= 9598 -> 7500 <= b <= 9598 ->
  PrimFloat.ltb (centesimas a) (centesimas b) =
  float64_ltb (float64_div (float64_of_int a) f100)
              (float64_div (float64_of_int b) f100).
Proof.
  intros Ha Hb.
  assert (Hq : float64_ltb (float64_div (float64_of_int a) f100)
                 (float64_div (float64_of_int b) f100) = (a <? b)).
  { destruct (Z.ltb_spec a b).
    - apply float64_ltb_lt. unfold Qlt. simpl. lia.
    - apply float64_ltb_ge. unfold Qle. simpl. lia. }
  rewrite Hq. destruct (Z.lt_trichotomy a b) as [Hlt | [-> | Hgt]].
  - destruct (mantisa_creciente (Z.to_nat (b - a - 1)) a)
      as (ma & mb & Hma & Hmb & Hm); [lia|lia|].
    replace (a + 1 + Z.of_nat (Z.to_nat (b - a - 1))) with b in Hmb by lia.
    rewrite (ltb_misma_escala _ _ _ _ _ Hma Hmb).
    destruct (Z.ltb_spec a b); [|lia]. by apply Pos.ltb_lt.
  - rewrite Z.ltb_irrefl.
    destruct (mantisa_definida b Hb) as (mb & Hmb).
    rewrite (ltb_misma_escala _ _ _ _ _ Hmb Hmb). apply Pos.ltb_irrefl.
  - destruct (mantisa_creciente (Z.to_nat (a - b - 1)) b)
      as (mb & ma & Hmb & Hma & Hm); [lia|lia|].
    replace (b + 1 + Z.of_nat (Z.to_nat (a - b - 1))) with a in Hma by lia.
    rewrite (ltb_misma_escala _ _ _ _ _ Hma Hmb).
    destruct (Z.ltb_spec a b); [lia|]. apply Pos.ltb_ge. lia.
Qed.

(** A generated duration has two decimal places, as a binary64 number,
    exactly when it is a multiple of 0.25. *)
Lemma centesimal_sii_multiplo_de_25 (n : Z) :
  1200 <= n <= 3499 \/ 7500 <= n <= 9598 ->
  es_centesimal (centesimas n) = (n mod 25 =? 0).
Proof.
  assert (H1 : para_todo 1200 2300 (fun k =>
            Bool.eqb (es_centesimal (centesimas k)) (k mod 25 =? 0)) = true)
    by (vm_compute; reflexivity).
  assert (H2 : para_todo 7500 2099 (fun k =>
            Bool.eqb (es_centesimal (centesimas k)) (k mod 25 =? 0)) = true)
    by (vm_compute; reflexivity).
  intros [Hn | Hn]; apply Bool.eqb_prop.
  - apply (para_todo_spec _ _ _ H1). lia.
  - apply (para_todo_spec _ _ _ H2). lia.
Qed.

(** The binary64 the program holds for [float64(n) / 100.0]. *)
Lemma redondeo_centesimas (n : Z) :
  redondeo (float64_div (float64_of_int n) f100) = centesimas n.
Proof.
  unfold redondeo, centesimas, float64_div, float64_of_int, f100. simpl.
  by rewrite Z.mul_1_r.
Qed.

End Binary64Adecuacion.

(** ** The durations, as the binary64 numbers the program holds *)

Lemma duracion_generada_sector (n : Z) :
  1200 <= n <= 3499 ->
  duracion_generada 1200 3499 12%float Binary64.f35_99
    (float64_div (float64_of_int n) f100).
Proof.
  intros Hn. exists n. split; [done|]. split; [done|].
  rewrite Binary64Adecuacion.redondeo_centesimas. split; [done|].
  destruct (Binary64Adecuacion.rango_sector n Hn) as [Hlo Hhi].
  split; [done|]. split; [done|]. split.
  - apply Binary64Adecuacion.centesimas_cercanas. by left.
  - apply Binary64Adecuacion.centesimal_sii_multiplo_de_25. by left.
Qed.


(** C4, as the specification words it, fails: the program holds binary64
    numbers, and [float64(1608) / 100.0] is not 16.08. With a source whose
    first number gives 1608, the duration of the one sector record has not
    two decimal places, in exact arithmetic, and one hundred times it, as
    the processor computes the product, is 1607.9999999999998. *)
Lemma C4_contraejemplo :
  exists m' t,
    correrMPI 1 1 (mundo_inicial (fuente_constante 408)) = Normal tt m' /\
    cola (enviar m') =
      [msg_inicio_mpi 1 1; msg_cabecera 1; msg_sector 1 t 1;
       msg_resumen_mpi; msg_fin_mpi] /\
    Binary64.redondeo t = Binary64.centesimas 1608 /\
    Binary64.es_centesimal (Binary64.redondeo t) = false /\
    PrimFloat.eqb (PrimFloat.mul (Binary64.redondeo t) 100%float)
      (Binary64.of_int 1608) = false /\
    PrimFloat.mul (Binary64.redondeo t) 100%float =
      0x1.91fffffffffffp+10%float.
Proof.
  eexists _, _. split; [vm_compute; reflexivity|].
  split; [reflexivity|]. split; [vm_compute; reflexivity|].
  split; [vm_compute; reflexivity|].
  split; vm_compute; reflexivity.
Qed.

(** C4 (amended): every per-sector record of a ring run prints a duration
    [float64(n) / 100.0] for an integer n of 1200..3499, and the run draws
    one duration per per-sector record. The number of hundredths n/100
    lies in [12.00, 35.99] (indeed below 35), and the binary64 number the
    program holds lies in [12.00, 35.99], is within 2^-47 of n/100, and has
    exactly two decimal places only when n is a multiple of 25. *)
Theorem C4_duracion_de_sector (sectores vueltas : Z) (m : mundo) :
  cerrado (enviar m) = false ->
  exists m' regs,
    correrMPI sectores vueltas m = Normal tt m' /\
    cola (enviar m') = cola (enviar m) ++ regs /\
    cursor m' = (cursor m + contar es_sector regs)%nat /\
    forall r, r ∈ regs -> es_sector r = true ->
      exists t, duracion_sector r = Some t /\
                (12 <= t)%Q /\ (t <= 35.99)%Q /\
                duracion_generada 1200 3499 12%float Binary64.f35_99 t.
Proof.
  intros Ha. destruct (Z.lt_ge_cases sectores 1) as [Hs|Hs].
  - rewrite (correrMPI_sin_sectores _ _ _ Hs Ha).
    eexists _, [msg_error_mpi; msg_fin_mpi]. split; [done|]. split; [done|].
    split; [simpl; lia|].
    intros r Hin Hsec. exfalso. ninguno_de Hin Hsec.
  - destruct (correrMPI_abierto sectores vueltas m Hs Ha)
      as (m' & cuerpo & Hrun & He & Hf & Hns & Hnc & Hcur).
    eexists m', _. split; [exact Hrun|]. split; [apply He|]. split.
    + cbn [contar]. rewrite contar_app. cbn [contar].
      change (es_sector (msg_inicio_mpi sectores
                (if vueltas <? 1 then 1 else vueltas))) with false.
      change (es_sector msg_resumen_mpi) with false.
      change (es_sector msg_fin_mpi) with false. cbv iota. lia.
    + intros r Hin Hsec.
      apply elem_of_cons in Hin as [-> | Hin]; [discriminate Hsec|].
      apply elem_of_app in Hin as [Hin | Hin].
      * rewrite Forall_forall in Hf. apply Hf in Hin.
        destruct Hin as (v & _ & [-> | Hv]); [discriminate Hsec|].
        destruct (duracion_sector_valido _ _ _ _ Hv) as (t & n & Ht & Hn & ->).
        exists (float64_div (float64_of_int n) f100). split; [done|].
        destruct (centesimas_cotas n 1200 3499 Hn) as [Hlo Hhi].
        split; [|split].
        -- eapply Qle_trans; [|exact Hlo]. by unfold Qle.
        -- eapply Qle_trans; [exact Hhi|]. by unfold Qle.
        -- by apply duracion_generada_sector.
      * exfalso. ninguno_de Hin Hsec.
Qed.

Lemma C4_duracion_de_sector_testigo :
  exists m' regs,
    correrMPI 2 2 (mundo_inicial fuente_ejemplo) = Normal tt m' /\
    cola (enviar m') = cola (enviar (mundo_inicial fuente_ejemplo)) ++ regs /\
    cursor m' = (cursor (mundo_inicial fuente_ejemplo) + contar es_sector regs)%nat /\
    forall r, r ∈ regs -> es_sector r = true ->
      exists t, duracion_sector r = Some t /\
                (12 <= t)%Q /\ (t <= 35.99)%Q /\
                duracion_generada 1200 3499 12%float Binary64.f35_99 t.
Proof.
  apply (C4_duracion_de_sector 2 2 (mundo_inicial fuente_ejemplo)).
  reflexivity.
Defined.




(** * More of the code *)

(** ** The overall best on any slice *)

(** X1: [calcular_mejor_general] returns the sentinel exactly when no entry
    of the slice has a best lap below 1e9 (in particular on the empty
    slice); otherwise it returns an entry of the slice. *)
Theorem X1_centinela_sii_nada_mejora (resultados : list ResultadoOpenMP) :
  (calcular_mejor_general resultados = centinela <->
   forall r, r ∈ resultados -> (f1e9 <= MejorVuelta r)%Q) /\
  (calcular_mejor_general resultados = centinela \/
   calcular_mejor_general resultados ∈ resultados).
Proof.
  unfold calcular_mejor_general.
  destruct (primer_minimo resultados centinela)
    as [(Hg & Hall) | (i & Hi & Hlt & Hall)].
  - split; [|by left]. split; [intros _; exact Hall|done].
  - split; [|right; by eapply list_elem_of_lookup_2]. split.
    + intros Heq. rewrite Heq in Hlt. by apply Qlt_irrefl in Hlt.
    + intros Hno. exfalso.
      apply list_elem_of_lookup_2 in Hi. apply Hno in Hi.
      apply (Qlt_irrefl f1e9). eapply Qle_lt_trans; [exact Hi|exact Hlt].
Qed.

(** ** The ring runs in closed form *)

Lemma tras_tras m a r1 b r2 :
  tras (tras m a r1) b r2 = tras m (a + b) (r1 ++ r2).
Proof.
  unfold tras; simpl. f_equal; [lia|]. f_equal. by rewrite app_assoc.
Qed.

Lemma tras_abierto m n regs : cerrado (enviar (tras m n regs)) = false.
Proof. done. Qed.

Lemma tras_nada m : cerrado (enviar m) = false -> tras m 0 [] = m.
Proof.
  destruct m as [f c [ce co]]; unfold tras; simpl; intros ->.
  by rewrite Nat.add_0_r, app_nil_r.
Qed.

Lemma enviar_msg_tras r m :
  cerrado (enviar m) = false -> enviar_msg r m = Normal tt (tras m 0 [r]).
Proof.
  intros Hc. unfold enviar_msg, tras. rewrite Hc. by rewrite Nat.add_0_r.
Qed.

Lemma bloques_S {A} k i pos paso (g : Z -> nat -> list A) :
  bloques (S k) i pos paso g =
  g i pos ++ bloques k (i + 1) (pos + paso) paso g.
Proof.
  unfold bloques. rewrite <- cons_seq, <- fmap_S_seq. simpl.
  rewrite Z.add_0_r, Nat.add_0_r. f_equal. f_equal.
  rewrite map_map. apply map_ext. intros j.
  f_equal; lia.
Qed.

Lemma bloques_length {A} k i pos paso (g : Z -> nat -> list A) n :
  (forall j p, length (g j p) = n) ->
  length (bloques k i pos paso g) = (k * n)%nat.
Proof.
  intros Hg. revert i pos. induction k as [|k IH]; intros i pos; [done|].
  rewrite bloques_S, length_app, Hg, IH. lia.
Qed.

(** A loop whose every round, from an open channel, draws [paso] numbers
    and sends the block [g] gives for it, sends the blocks in order. *)
Lemma repetir_bloques (paso : nat) (g : (nat -> Z) -> Z -> nat -> list MensajeWS)
    (cuerpo : Z -> M unit) :
  (forall i m, cerrado (enviar m) = false ->
     cuerpo i m = Normal tt (tras m paso (g (crudo m) i (cursor m)))) ->
  forall k i m, cerrado (enviar m) = false ->
    repetir k i cuerpo m =
    Normal tt (tras m (k * paso) (bloques k i (cursor m) paso (g (crudo m)))).
Proof.
  intros Hcuerpo. induction k as [|k IH]; intros i m Hc.
  - simpl. unfold ret. by rewrite tras_nada.
  - simpl. unfold bind. rewrite Hcuerpo by done.
    rewrite IH by apply tras_abierto. rewrite tras_tras, bloques_S.
    done.
Qed.

Lemma paso_sector_tras v s m :
  cerrado (enviar m) = false ->
  paso_sector v s m =
  Normal tt (tras m 1 [msg_sector s (duracion_en (crudo m) (cursor m)) v]).
Proof.
  intros Hc. unfold paso_sector, bind, rand_Intn, dormir, ret, enviar_msg, tras.
  simpl. rewrite Hc. by rewrite Nat.add_1_r.
Qed.

Lemma paso_vuelta_tras sectores v m :
  0 <= sectores ->
  cerrado (enviar m) = false ->
  paso_vuelta sectores v m =
  Normal tt (tras m (Z.to_nat sectores)
               (traza_vuelta (crudo m) (Z.to_nat sectores) v (cursor m))).
Proof.
  intros Hs Hc. unfold paso_vuelta, bind. rewrite enviar_msg_tras by done.
  unfold para.
  rewrite (repetir_bloques 1
             (fun fuente s p => [msg_sector s (duracion_en fuente p) v]))
    by first [apply tras_abierto | intros; by apply paso_sector_tras].
  rewrite tras_tras. simpl crudo. simpl cursor at 1.
  replace (Z.to_nat (sectores - 1 + 1)) with (Z.to_nat sectores) by lia.
  unfold traza_vuelta. f_equal. f_equal; [lia|].
  simpl. by rewrite Nat.add_0_r.
Qed.

(** X2: a run of [correrMPI] with at least one sector on an open channel
    returns normally, draws exactly sectores x vueltas numbers (vueltas
    coerced to at least 1) and sends exactly: the start record; per lap, in
    the order of the laps, the header and the records of sectors 1, 2, ...
    in that order, the k-th record of the run printing the duration made of
    the k-th number drawn; the summary; the done record. *)
Theorem X2_traza_del_anillo (sectores vueltas : Z) (m : mundo)
    (Hs : 1 <= sectores) (Hc : cerrado (enviar m) = false) :
  let vueltas' := Z.max 1 vueltas in
  correrMPI sectores vueltas m =
  Normal tt
    (tras m (Z.to_nat vueltas' * Z.to_nat sectores)
       (traza_mpi (crudo m) sectores vueltas' (cursor m))).
Proof.
  intros vueltas'. unfold correrMPI.
  destruct (Z.ltb_spec sectores 1) as [?|_]; [lia|].
  replace (if vueltas <? 1 then 1 else vueltas) with vueltas'
    by (unfold vueltas'; destruct (Z.ltb_spec vueltas 1); lia).
  unfold bind. rewrite enviar_msg_tras by done.
  unfold para.
  rewrite (repetir_bloques (Z.to_nat sectores)
             (fun fuente v p => traza_vuelta fuente (Z.to_nat sectores) v p))
    by first [apply tras_abierto | intros; apply paso_vuelta_tras; [lia|done]].
  rewrite tras_tras.
  rewrite enviar_msg_tras by apply tras_abierto. rewrite tras_tras.
  rewrite enviar_msg_tras by apply tras_abierto. rewrite tras_tras.
  simpl crudo. simpl cursor.
  replace (Z.to_nat (vueltas' - 1 + 1)) with (Z.to_nat vueltas') by lia.
  f_equal. unfold tras, traza_mpi. f_equal; [lia|]. f_equal. f_equal.
  rewrite Nat.add_0_r. simpl. f_equal. by rewrite <- app_assoc.
Qed.

Lemma X2_traza_del_anillo_testigo :
  cola (enviar (tras (mundo_inicial fuente_ejemplo) 6
                  (traza_mpi fuente_ejemplo 3 2 0))) =
  [ msg_inicio_mpi 3 2;
    msg_cabecera 1;
    msg_sector 1 (duracion_en fuente_ejemplo 0) 1;
    msg_sector 2 (duracion_en fuente_ejemplo 1) 1;
    msg_sector 3 (duracion_en fuente_ejemplo 2) 1;
    msg_cabecera 2;
    msg_sector 1 (duracion_en fuente_ejemplo 3) 2;
    msg_sector 2 (duracion_en fuente_ejemplo 4) 2;
    msg_sector 3 (duracion_en fuente_ejemplo 5) 2;
    msg_resumen_mpi; msg_fin_mpi ] /\
  correrMPI 3 2 (mundo_inicial fuente_ejemplo) =
  Normal tt (tras (mundo_inicial fuente_ejemplo) 6
               (traza_mpi fuente_ejemplo 3 2 0)).
Proof.
  split; [reflexivity|].
  apply (X2_traza_del_anillo 3 2 (mundo_inicial fuente_ejemplo));
    [lia|reflexivity].
Defined.

Lemma bloques_elem {A} k i pos paso (g : Z -> nat -> list A) x :
  x ∈ bloques k i pos paso g -> exists j p, x ∈ g j p.
Proof.
  revert i pos. induction k as [|k IH]; intros i pos.
  - unfold bloques; simpl. by intros ?%elem_of_nil.
  - rewrite bloques_S. intros [Hx|Hx]%elem_of_app; eauto.
Qed.

Lemma bloques_fmap {A B} (f : A -> B) k i pos paso (g : Z -> nat -> list A) :
  f <$> bloques k i pos paso g =
  bloques k i pos paso (fun j p => f <$> g j p).
Proof.
  revert i pos. induction k as [|k IH]; intros i pos; [done|].
  by rewrite !bloques_S, fmap_app, IH.
Qed.

Lemma bloques_ext {A} k i pos paso (g g' : Z -> nat -> list A) :
  (forall j p, g j p = g' j p) ->
  bloques k i pos paso g = bloques k i pos paso g'.
Proof.
  intros Hg. revert i pos. induction k as [|k IH]; intros i pos; [done|].
  by rewrite !bloques_S, IH, Hg.
Qed.

(** X3: the second program's [correrMPI] (the revision with the mutex), run
    with at least one sector on an open channel, draws the same numbers as
    the first program's and sends the start record, per lap the header and
    the sector records in order, and a done record that carries the text
    [MPI finalizado]; it sends no summary record: every record but the last
    has type [registro]. *)
Theorem X3_traza_del_segundo_programa (sectores vueltas : Z) (m : mundo)
    (Hs : 1 <= sectores) (Hc : cerrado (enviar m) = false) :
  let vueltas' := Z.max 1 vueltas in
  SegundoPrograma.correrMPI sectores vueltas m =
  Normal tt
    (tras m (Z.to_nat vueltas' * Z.to_nat sectores)
       (SegundoPrograma.traza_mpi (crudo m) sectores vueltas' (cursor m))) /\
  (forall r, r ∈ SegundoPrograma.traza_mpi (crudo m) sectores vueltas' (cursor m) ->
     Tipo r = "registro" \/ r = SegundoPrograma.msg_fin_mpi) /\
  Texto SegundoPrograma.msg_fin_mpi = Literal "MPI finalizado".
Proof.
  intros vueltas'. split; [|split; [|done]].
  - unfold SegundoPrograma.correrMPI.
    destruct (Z.ltb_spec sectores 1) as [?|_]; [lia|].
    replace (if vueltas <? 1 then 1 else vueltas) with vueltas'
      by (unfold vueltas'; destruct (Z.ltb_spec vueltas 1); lia).
    assert (Hsector : forall v s m0, cerrado (enviar m0) = false ->
      (n <- rand_Intn 2300 ;;
       let tiempo := float64_div (float64_of_int (n + 1200)) f100 in
       enviar_msg (SegundoPrograma.msg_sector s tiempo v) ;; dormir 300) m0 =
      Normal tt (tras m0 1 [SegundoPrograma.msg_sector s
                              (duracion_en (crudo m0) (cursor m0)) v])).
    { intros v s m0 Hc0.
      unfold bind, rand_Intn, dormir, ret, enviar_msg, tras.
      simpl. rewrite Hc0. by rewrite Nat.add_1_r. }
    assert (Hvuelta : forall v m0, cerrado (enviar m0) = false ->
      (enviar_msg (msg_cabecera v) ;;
       para 1 sectores (fun s =>
         n <- rand_Intn 2300 ;;
         let tiempo := float64_div (float64_of_int (n + 1200)) f100 in
         enviar_msg (SegundoPrograma.msg_sector s tiempo v) ;; dormir 300)) m0 =
      Normal tt (tras m0 (Z.to_nat sectores)
                   (SegundoPrograma.traza_vuelta (crudo m0)
                      (Z.to_nat sectores) v (cursor m0)))).
    { intros v m0 Hc0. unfold bind at 1. rewrite enviar_msg_tras by done.
      unfold para.
      rewrite (repetir_bloques 1
                 (fun fuente s p =>
                    [SegundoPrograma.msg_sector s (duracion_en fuente p) v]))
        by first [apply tras_abierto | intros; by apply Hsector].
      rewrite tras_tras. simpl crudo. simpl cursor at 1.
      replace (Z.to_nat (sectores - 1 + 1)) with (Z.to_nat sectores) by lia.
      unfold SegundoPrograma.traza_vuelta. f_equal. f_equal; [lia|].
      simpl. by rewrite Nat.add_0_r. }
    unfold bind at 1. rewrite enviar_msg_tras by done.
    unfold bind at 1. unfold para.
    rewrite (repetir_bloques (Z.to_nat sectores)
               (fun fuente v p =>
                  SegundoPrograma.traza_vuelta fuente (Z.to_nat sectores) v p))
      by first [apply tras_abierto | intros; by apply Hvuelta].
    rewrite tras_tras.
    rewrite enviar_msg_tras by apply tras_abierto. rewrite tras_tras.
    simpl crudo. simpl cursor.
    replace (Z.to_nat (vueltas' - 1 + 1)) with (Z.to_nat vueltas') by lia.
    f_equal. unfold tras, SegundoPrograma.traza_mpi. f_equal; [lia|].
    f_equal. f_equal. rewrite Nat.add_0_r. simpl. done.
  - intros r. unfold SegundoPrograma.traza_mpi.
    intros [->|Hr]%elem_of_cons; [by left|].
    apply elem_of_app in Hr as [Hr|Hr].
    + apply bloques_elem in Hr as (v & p & Hr).
      unfold SegundoPrograma.traza_vuelta in Hr.
      apply elem_of_cons in Hr as [->|Hr]; [by left|].
      apply bloques_elem in Hr as (s & q & Hr).
      apply list_elem_of_singleton in Hr as ->. by left.
    + apply list_elem_of_singleton in Hr as ->. by right.
Qed.

Lemma X3_traza_del_segundo_programa_testigo :
  cola (enviar (tras (mundo_inicial fuente_ejemplo) 2
                  (SegundoPrograma.traza_mpi fuente_ejemplo 2 1 0))) =
  [ msg_inicio_mpi 2 1;
    msg_cabecera 1;
    SegundoPrograma.msg_sector 1 (duracion_en fuente_ejemplo 0) 1;
    SegundoPrograma.msg_sector 2 (duracion_en fuente_ejemplo 1) 1;
    SegundoPrograma.msg_fin_mpi ] /\
  SegundoPrograma.correrMPI 2 0 (mundo_inicial fuente_ejemplo) =
  Normal tt (tras (mundo_inicial fuente_ejemplo) 2
               (SegundoPrograma.traza_mpi fuente_ejemplo 2 1 0)).
Proof.
  split; [reflexivity|].
  apply (X3_traza_del_segundo_programa 2 0 (mundo_inicial fuente_ejemplo));
    [lia|reflexivity].
Defined.

(** ** [runMPI] of src/unnamed/part_000 *)

Lemma escribe_escribe m a r1 b r2 :
  escribe (escribe m a r1) b r2 = escribe m (a + b) (r1 ++ r2).
Proof.
  unfold escribe; simpl. destruct (cerrado (enviar m)) eqn:Hc; simpl.
  - rewrite Hc. f_equal; lia.
  - f_equal; [lia|]. f_equal. by rewrite app_assoc.
Qed.

Lemma escribe_nada m : escribe m 0 [] = m.
Proof.
  destruct m as [f c [ce co]]; unfold escribe; simpl.
  rewrite Nat.add_0_r. destruct ce; [done|]. by rewrite app_nil_r.
Qed.

Lemma send_escribe r m : Parte000.send r m = Normal tt (escribe m 0 [r]).
Proof.
  unfold Parte000.send, escribe. rewrite Nat.add_0_r.
  destruct m as [f c [[] co]]; done.
Qed.

Lemma repetir_escribe (paso : nat)
    (g : (nat -> Z) -> Z -> nat -> list MensajeWS) (cuerpo : Z -> M unit) :
  (forall i m,
     cuerpo i m = Normal tt (escribe m paso (g (crudo m) i (cursor m)))) ->
  forall k i m,
    repetir k i cuerpo m =
    Normal tt (escribe m (k * paso)
                 (bloques k i (cursor m) paso (g (crudo m)))).
Proof.
  intros Hcuerpo. induction k as [|k IH]; intros i m.
  - simpl. unfold ret. by rewrite escribe_nada.
  - simpl. unfold bind. rewrite Hcuerpo, IH, escribe_escribe, bloques_S.
    done.
Qed.

Lemma traducir_traza_mpi fuente sectores vueltas pos :
  traducir <$> traza_mpi fuente sectores vueltas pos =
  traducir (msg_inicio_mpi sectores vueltas) ::
  bloques (Z.to_nat vueltas) 1 pos (Z.to_nat sectores)
    (fun v p =>
       traducir (msg_cabecera v) ::
       bloques (Z.to_nat sectores) 1 p 1
         (fun s q => [traducir (msg_sector s (duracion_en fuente q) v)])) ++
  [traducir msg_resumen_mpi; traducir msg_fin_mpi].
Proof.
  unfold traza_mpi. rewrite fmap_cons, fmap_app, bloques_fmap. f_equal.
  f_equal. apply bloques_ext. intros v p. unfold traza_vuelta.
  by rewrite fmap_cons, bloques_fmap.
Qed.

Lemma traducir_resumen_mpi :
  traducir msg_resumen_mpi =
  {| Tipo := "summary"; Topico := "mpi"; Texto := Literal "";
     Obj := Some {[ "msg" := DTexto "MPI finalizado" ]} |}.
Proof.
  unfold traducir, msg_resumen_mpi, traducir_obj. simpl.
  rewrite lookup_singleton_eq, delete_singleton_eq. by rewrite insert_empty.
Qed.

(** X4: [runMPI] of part_000, with at least one sector, never panics and
    draws sectors x laps numbers (laps coerced to at least 1) whatever the
    state of the connection. On an open connection it writes exactly the
    records of [correrMPI] of src/main.go under part_000's names (types
    log, summary, done; summary key msg); on a closed connection it writes
    nothing. *)
Theorem X4_runMPI_frente_a_correrMPI (sectors laps : Z) (m : mundo)
    (Hs : 1 <= sectors) :
  let laps' := Z.max 1 laps in
  let n := (Z.to_nat laps' * Z.to_nat sectors)%nat in
  (cerrado (enviar m) = false ->
   Parte000.runMPI sectors laps m =
   Normal tt (tras m n (traducir <$> traza_mpi (crudo m) sectors laps' (cursor m)))) /\
  (cerrado (enviar m) = true ->
   Parte000.runMPI sectors laps m =
   Normal tt {| crudo := crudo m; cursor := cursor m + n;
                enviar := enviar m |}).
Proof.
  intros laps' n.
  assert (Hrun : Parte000.runMPI sectors laps m =
    Normal tt (escribe m n
                 (traducir <$> traza_mpi (crudo m) sectors laps' (cursor m)))).
  { unfold Parte000.runMPI.
    destruct (Z.ltb_spec sectors 1) as [?|_]; [lia|].
    replace (if laps <? 1 then 1 else laps) with laps'
      by (unfold laps'; destruct (Z.ltb_spec laps 1); lia).
    assert (Hsector : forall lap s m0,
      (x <- rand_Intn 2300 ;;
       let secTime := float64_div (float64_of_int (x + 1200)) f100 in
       dormir 300 ;;
       Parte000.send
         {| Tipo := "log"; Topico := "mpi";
            Texto := Sprintf fmt_sector [VInt s; VFloat secTime; VInt lap];
            Obj := None |}) m0 =
      Normal tt (escribe m0 1
                   [traducir (msg_sector s
                                (duracion_en (crudo m0) (cursor m0)) lap)])).
    { intros lap s m0.
      unfold bind, rand_Intn, dormir, ret. simpl. rewrite send_escribe.
      unfold escribe; simpl. by rewrite Nat.add_0_r, Nat.add_1_r. }
    assert (Hlap : forall lap m0,
      (Parte000.send {| Tipo := "log"; Topico := "mpi";
                        Texto := Sprintf fmt_cabecera [VInt lap];
                        Obj := None |} ;;
       para 1 sectors (fun s =>
         x <- rand_Intn 2300 ;;
         let secTime := float64_div (float64_of_int (x + 1200)) f100 in
         dormir 300 ;;
         Parte000.send
           {| Tipo := "log"; Topico := "mpi";
              Texto := Sprintf fmt_sector [VInt s; VFloat secTime; VInt lap];
              Obj := None |})) m0 =
      Normal tt (escribe m0 (Z.to_nat sectors)
        (traducir (msg_cabecera lap) ::
         bloques (Z.to_nat sectors) 1 (cursor m0) 1
           (fun s q =>
              [traducir (msg_sector s (duracion_en (crudo m0) q) lap)])))).
    { intros lap m0. unfold bind at 1. rewrite send_escribe. unfold para.
      rewrite (repetir_escribe 1
                 (fun fuente s q =>
                    [traducir (msg_sector s (duracion_en fuente q) lap)]))
        by (intros; apply Hsector).
      rewrite escribe_escribe. simpl crudo. simpl cursor at 1.
      replace (Z.to_nat (sectors - 1 + 1)) with (Z.to_nat sectors) by lia.
      f_equal. f_equal; [lia|]. simpl. by rewrite Nat.add_0_r. }
    unfold bind at 1. rewrite send_escribe.
    unfold bind at 1. unfold para.
    rewrite (repetir_escribe (Z.to_nat sectors)
               (fun fuente v p =>
                  traducir (msg_cabecera v) ::
                  bloques (Z.to_nat sectors) 1 p 1
                    (fun s q =>
                       [traducir (msg_sector s (duracion_en fuente q) v)])))
      by (intros; apply Hlap).
    rewrite escribe_escribe.
    unfold bind. rewrite send_escribe, escribe_escribe.
    rewrite send_escribe, escribe_escribe.
    simpl crudo. simpl cursor.
    replace (Z.to_nat (laps' - 1 + 1)) with (Z.to_nat laps') by lia.
    rewrite traducir_traza_mpi, traducir_resumen_mpi.
    f_equal. f_equal; [unfold n; lia|].
    rewrite Nat.add_0_r. simpl. f_equal. by rewrite <- app_assoc. }
  rewrite Hrun. unfold escribe, tras.
  split; intros ->; done.
Qed.

Lemma X4_runMPI_frente_a_correrMPI_testigo :
  Parte000.runMPI 2 1
    {| crudo := fuente_ejemplo; cursor := 0;
       enviar := {| cerrado := true; cola := [msg_inicio_mpi 2 1] |} |} =
  Normal tt {| crudo := fuente_ejemplo; cursor := 2;
               enviar := {| cerrado := true; cola := [msg_inicio_mpi 2 1] |} |}.
Proof.
  apply (X4_runMPI_frente_a_correrMPI 2 1
           {| crudo := fuente_ejemplo; cursor := 0;
              enviar := {| cerrado := true;
                           cola := [msg_inicio_mpi 2 1] |} |});
    [lia|reflexivity].
Defined.

(** ** The records of one car within a parallel run *)













(** ** How many records a parallel run sends *)









(** ** The command switch of [wsHandler] *)

(** [int(v)] truncates toward zero. *)
Lemma int_of_float64_trunca (x : float64) :
  ((0 <= x)%Q ->
   (inject_Z (int_of_float64 x) <= x)%Q /\
   (x < inject_Z (int_of_float64 x) + 1)%Q) /\
  ((x <= 0)%Q ->
   (inject_Z (int_of_float64 x) - 1 < x)%Q /\
   (x <= inject_Z (int_of_float64 x))%Q).
Proof.
  destruct x as [n d]. unfold int_of_float64, Qle, Qlt, inject_Z. simpl.
  pose proof (Z.quot_rem' n (Z.pos d)) as Hq.
  split; intros Hn.
  - assert (H0 : 0 <= n) by lia.
    pose proof (Z.rem_bound_pos n (Z.pos d) H0 ltac:(lia)) as Hr.
    set (q := n ÷ Z.pos d) in *. set (r := Z.rem n (Z.pos d)) in *.
    clearbody q r. lia.
  - assert (H0 : 0 <= - n) by lia.
    pose proof (Z.rem_bound_pos (- n) (Z.pos d) H0 ltac:(lia)) as Hr.
    rewrite Z.rem_opp_l in Hr by lia.
    set (q := n ÷ Z.pos d) in *. set (r := Z.rem n (Z.pos d)) in *.
    clearbody q r. lia.
Qed.

Lemma int_of_float64_bajo_1 (x : float64) :
  int_of_float64 x < 1 <-> (x < 1)%Q.
Proof.
  destruct x as [n d]. unfold int_of_float64, Qlt. simpl.
  pose proof (Z.quot_rem' n (Z.pos d)) as Hq.
  destruct (Z.le_gt_cases 0 n) as [H0|H0].
  - pose proof (Z.rem_bound_pos n (Z.pos d) H0 ltac:(lia)) as Hr.
    set (q := n ÷ Z.pos d) in *. set (r := Z.rem n (Z.pos d)) in *.
    clearbody q r. nia.
  - assert (H1 : 0 <= - n) by lia.
    pose proof (Z.rem_bound_pos (- n) (Z.pos d) H1 ltac:(lia)) as Hr.
    rewrite Z.rem_opp_l in Hr by lia.
    set (q := n ÷ Z.pos d) in *. set (r := Z.rem n (Z.pos d)) in *.
    clearbody q r. nia.
Qed.

(** X7: for a command [iniciar_mpi] whose field [sectores] is a number x
    whose truncation fits in [int], the handler launches the ring with
    [int(x)] sectors, x truncated toward zero; so the launched run,
    whatever its number of laps, is the error run (error record and done
    record, nothing drawn) exactly when x < 1, also for a fractional x such
    as 0.9. *)
Theorem X7_sectores_fraccionarios (comando : gmap string json) (x : float64)
    (m : mundo)
    (Hacc : accion_es comando "iniciar_mpi" = true)
    (Hx : comando !! "sectores" = Some (JNum x))
    (Hcabe : cabe_en_int x = true)
    (Hc : cerrado (enviar m) = false) :
  (exists vueltas, despachar comando = LanzaMPI (int_of_float64 x) vueltas) /\
  - 2 ^ 63 <= int_of_float64 x < 2 ^ 63 /\
  ((0 <= x)%Q ->
   (inject_Z (int_of_float64 x) <= x)%Q /\
   (x < inject_Z (int_of_float64 x) + 1)%Q) /\
  ((x <= 0)%Q ->
   (inject_Z (int_of_float64 x) - 1 < x)%Q /\
   (x <= inject_Z (int_of_float64 x))%Q) /\
  (forall vueltas,
     (x < 1)%Q <->
     correrMPI (int_of_float64 x) vueltas m =
     Normal tt (tras m 0 [msg_error_mpi; msg_fin_mpi])).
Proof.
  split.
  { unfold despachar. rewrite Hacc. unfold campo_float64 at 1. rewrite Hx.
    by eexists. }
  split.
  { unfold cabe_en_int in Hcabe. apply andb_prop in Hcabe as [H1 H2].
    apply Z.leb_le in H1. apply Z.ltb_lt in H2. lia. }
  destruct (int_of_float64_trunca x) as [Hpos Hneg].
  split; [done|]. split; [done|]. intros vueltas.
  rewrite <- int_of_float64_bajo_1. split.
  - intros Hlt. rewrite correrMPI_sin_sectores by done.
    unfold tras. by rewrite Nat.add_0_r.
  - intros Hrun. destruct (Z.lt_ge_cases (int_of_float64 x) 1) as [|Hge];
      [done|exfalso].
    pose proof (correrMPI_abierto (int_of_float64 x) vueltas m Hge Hc) as Hab.
    cbv zeta in Hab.
    destruct Hab as (m' & cuerpo & Hr & (_ & _ & Hq) & _).
    rewrite Hr in Hrun. injection Hrun as ->. simpl in Hq.
    apply app_inv_head in Hq. discriminate Hq.
Qed.

Lemma X7_sectores_fraccionarios_testigo :
  (exists vueltas,
     despachar {[ "action" := JStr "iniciar_mpi"; "sectores" := JNum 0.9%Q ]}
       = LanzaMPI (int_of_float64 0.9%Q) vueltas) /\
  - 2 ^ 63 <= int_of_float64 0.9%Q < 2 ^ 63 /\
  ((0 <= 0.9)%Q ->
   (inject_Z (int_of_float64 0.9%Q) <= 0.9)%Q /\
   (0.9 < inject_Z (int_of_float64 0.9%Q) + 1)%Q) /\
  ((0.9 <= 0)%Q ->
   (inject_Z (int_of_float64 0.9%Q) - 1 < 0.9)%Q /\
   (0.9 <= inject_Z (int_of_float64 0.9%Q))%Q) /\
  (forall vueltas,
     (0.9 < 1)%Q <->
     correrMPI (int_of_float64 0.9%Q) vueltas (mundo_inicial fuente_ejemplo) =
     Normal tt (tras (mundo_inicial fuente_ejemplo) 0
                  [msg_error_mpi; msg_fin_mpi])).
Proof.
  apply (X7_sectores_fraccionarios
           {[ "action" := JStr "iniciar_mpi"; "sectores" := JNum 0.9%Q ]}
           0.9%Q (mundo_inicial fuente_ejemplo));
    [vm_compute; reflexivity | vm_compute; reflexivity | reflexivity
    | reflexivity].
Defined.

Lemma accion_es_spec (comando : gmap string json) (s : string) :
  accion_es comando s = true <-> comando !! "action" = Some (JStr s).
Proof.
  unfold accion_es. destruct (comando !! "action") as [[]|]; try done.
  rewrite String.eqb_eq. split; [by intros ->|by intros [= ->]].
Qed.

(** X8: the handler answers with the notice [Comando no reconocido], and
    launches nothing, exactly when the action of the command is neither the
    string [iniciar_mpi] nor the string [iniciar_openmp] (missing, not a
    string, or another string). The notice has type [registro] and no topic
    and prints the action as received; the second program of src/main.go
    answers the same; part_000 prints the action only when it is a string,
    and the empty string otherwise. *)
Theorem X8_comando_no_reconocido (comando : gmap string json) :
  ((exists msg, despachar comando = NoReconocido msg) <->
   comando !! "action" <> Some (JStr "iniciar_mpi") /\
   comando !! "action" <> Some (JStr "iniciar_openmp")) /\
  (forall msg, despachar comando = NoReconocido msg ->
     msg = {| Tipo := "registro"; Topico := "";
              Texto := Sprintf "Comando no reconocido: %v"
                         [VAny (comando !! "action")];
              Obj := None |} /\
     Revision2.despachar comando = NoReconocido msg) /\
  (forall msg, Parte000.despachar comando = NoReconocido msg ->
     Parte000.cmd comando <> "start_mpi" /\
     Parte000.cmd comando <> "start_openmp" /\
     Tipo msg = "log" /\ Topico msg = "" /\
     Texto msg =
       Sprintf "Comando no reconocido: %v"
         [VAny (Some (JStr (match comando !! "action" with
                            | Some (JStr a) => a
                            | _ => ""
                            end)))]).
Proof.
  pose proof (accion_es_spec comando "iniciar_mpi") as H1.
  pose proof (accion_es_spec comando "iniciar_openmp") as H2.
  unfold despachar, Revision2.despachar.
  destruct (accion_es comando "iniciar_mpi") eqn:E1.
  { split; [split|split].
    - by intros (msg & ?).
    - intros (Hno & _). destruct Hno. by apply H1.
    - done.
    - unfold Parte000.despachar.
      destruct (String.eqb_spec (Parte000.cmd comando) "start_mpi");
        [done|].
      destruct (String.eqb_spec (Parte000.cmd comando) "start_openmp");
        [done|].
      by intros msg [= <-]. }
  destruct (accion_es comando "iniciar_openmp") eqn:E2.
  { split; [split|split].
    - by intros (msg & ?).
    - intros (_ & Hno). destruct Hno. by apply H2.
    - done.
    - unfold Parte000.despachar.
      destruct (String.eqb_spec (Parte000.cmd comando) "start_mpi");
        [done|].
      destruct (String.eqb_spec (Parte000.cmd comando) "start_openmp");
        [done|].
      by intros msg [= <-]. }
  split; [split|split].
  - intros _. split; intros Heq.
    + apply H1 in Heq. discriminate Heq.
    + apply H2 in Heq. discriminate Heq.
  - intros _. by eexists.
  - by intros msg [= <-].
  - unfold Parte000.despachar.
    destruct (String.eqb_spec (Parte000.cmd comando) "start_mpi"); [done|].
    destruct (String.eqb_spec (Parte000.cmd comando) "start_openmp");
      [done|].
    by intros msg [= <-].
Qed.

(** ** The page: [sanitizar] *)

Lemma replace_g_sin (c : N) (por s : Pagina.cadena) :
  c ∉ por -> c ∉ Pagina.replace_g c por s.
Proof.
  intros Hpor. induction s as [|u s IH]; simpl.
  - apply not_elem_of_nil.
  - destruct (N.eqb_spec u c) as [->|Hne].
    + rewrite elem_of_app. tauto.
    + rewrite elem_of_cons. intros [->|?]; tauto.
Qed.

Lemma replace_g_conserva (c d : N) (por s : Pagina.cadena) :
  d ∉ por -> d ∉ s -> d ∉ Pagina.replace_g c por s.
Proof.
  intros Hpor. induction s as [|u s IH]; simpl; [done|].
  rewrite not_elem_of_cons. intros [Hdu Hs].
  destruct (N.eqb_spec u c) as [->|Hne].
  - rewrite elem_of_app. intros [?|?]; [done|by apply IH].
  - rewrite elem_of_cons. intros [?|?]; [done|by apply IH].
Qed.

Lemma replace_g_igual (c : N) (por s : Pagina.cadena) :
  c ∉ s -> Pagina.replace_g c por s = s.
Proof.
  induction s as [|u s IH]; simpl; [done|].
  rewrite not_elem_of_cons. intros [Hcu Hs].
  destruct (N.eqb_spec u c) as [->|Hne]; [done|]. by rewrite IH.
Qed.

(** X9: the text [sanitizar] returns holds neither the character [<] nor
    the character [>], whatever the text given; a text with neither of
    them is returned as it is (the character [&] is not escaped), and a
    missing or empty text gives the empty text. *)
Theorem X9_sanitizar_sin_marcas (s : option Pagina.cadena) :
  (Pagina.menor ∉ Pagina.sanitizar s) /\
  (Pagina.mayor ∉ Pagina.sanitizar s) /\
  (forall t, s = Some t -> Pagina.menor ∉ t -> Pagina.mayor ∉ t ->
     Pagina.sanitizar s = t) /\
  (s = None \/ s = Some [] -> Pagina.sanitizar s = []) /\
  Pagina.sanitizar (Some (Pagina.unidades "a<b>&")) =
    Pagina.unidades "a&lt;b&gt;&".
Proof.
  change (Pagina.unidades "a<b>&") with [97; 60; 98; 62; 38]%N.
  change (Pagina.unidades "a&lt;b&gt;&")
    with [97; 38; 108; 116; 59; 98; 38; 103; 116; 59; 38]%N.
  unfold Pagina.sanitizar.
  change (Pagina.unidades "&lt;") with [38; 108; 116; 59]%N.
  change (Pagina.unidades "&gt;") with [38; 103; 116; 59]%N.
  assert (Hlt : Pagina.menor ∉ [38; 108; 116; 59]%N)
    by (rewrite !not_elem_of_cons; repeat split; try done;
        apply not_elem_of_nil).
  assert (Hgt : Pagina.mayor ∉ [38; 103; 116; 59]%N)
    by (rewrite !not_elem_of_cons; repeat split; try done;
        apply not_elem_of_nil).
  assert (Hlt' : Pagina.menor ∉ [38; 103; 116; 59]%N)
    by (rewrite !not_elem_of_cons; repeat split; try done;
        apply not_elem_of_nil).
  split; [|split; [|split; [|split]]].
  - destruct s as [[|u t]|]; try apply not_elem_of_nil.
    apply replace_g_conserva; [done|]. by apply replace_g_sin.
  - destruct s as [[|u t]|]; try apply not_elem_of_nil.
    by apply replace_g_sin.
  - intros t -> H1 H2. destruct t as [|u t]; [done|].
    rewrite (replace_g_igual Pagina.menor) by done.
    by rewrite replace_g_igual.
  - by intros [-> | ->].
  - reflexivity.
Qed.

(** ** The channel of [wsHandler] and the goroutine that drains it *)

Lemma tuberia_inv_paso (ev : Tuberia.evento) (e e' : Tuberia.estado) :
  Tuberia.inv e -> Tuberia.paso ev e = Tuberia.Avanza e' -> Tuberia.inv e'.
Proof.
  intros (Hac & Hcap & Hper & Hact).
  destruct e as [buf ce lec esc ac per]. simpl in *.
  destruct ev as [msg|ok|]; unfold Tuberia.paso; simpl.
  - destruct ce; [done|].
    destruct (Nat.ltb_spec (length buf) Tuberia.capacidad); [|done].
    intros [= <-]. split; simpl.
    + by rewrite Hac, <- !app_assoc.
    + rewrite length_app. simpl. split; [lia|done].
  - destruct lec; [|done]. rewrite Hact in * by done.
    destruct buf as [|msg resto].
    + destruct ce; [|done]. intros [= <-]. by split.
    + destruct ok; intros [= <-]; split; simpl in *.
      * by rewrite Hac, <- !app_assoc.
      * split; [lia|]. by split.
      * done.
      * split; [lia|]. split; [lia|done].
  - destruct ce; [done|]. intros [= <-]. by split.
Qed.

Lemma tuberia_inv_correr (evs : list Tuberia.evento) (e e' : Tuberia.estado) :
  Tuberia.inv e -> Tuberia.correr evs e = Tuberia.Avanza e' -> Tuberia.inv e'.
Proof.
  revert e. induction evs as [|ev evs IH]; intros e Hinv; simpl.
  - by intros [= <-].
  - destruct (Tuberia.paso ev e) as [e1| |] eqn:Hp; [|by apply IH|done].
    apply IH. by eapply tuberia_inv_paso.
Qed.

Lemma tuberia_inv_inicial : Tuberia.inv Tuberia.inicial.
Proof.
  unfold Tuberia.inv, Tuberia.capacidad. simpl.
  split; [done|]. split; [lia|]. split; [lia|done].
Qed.

(** X10: whatever the goroutines do with the channel of [wsHandler], it
    never holds more than 100 messages, and what the draining goroutine has
    written on the connection is an initial part of what the channel
    accepted, in the order of acceptance: the accepted messages are the
    written ones, then at most one whose write failed, then the ones still
    in the channel. *)
Theorem X10_entrega_en_orden (evs : list Tuberia.evento)
    (e : Tuberia.estado)
    (Hrun : Tuberia.correr evs Tuberia.inicial = Tuberia.Avanza e) :
  Tuberia.aceptados e =
    Tuberia.escritos e ++ Tuberia.perdidos e ++ Tuberia.buffer e /\
  (length (Tuberia.buffer e) <= 100)%nat /\
  (length (Tuberia.perdidos e) <= 1)%nat /\
  Tuberia.escritos e `prefix_of` Tuberia.aceptados e.
Proof.
  assert (Hinv : Tuberia.inv e).
  { eapply tuberia_inv_correr; [|exact Hrun]. apply tuberia_inv_inicial. }
  destruct Hinv as (Hac & Hcap & Hper & _).
  do 3 (split; [done|]). rewrite Hac. by eexists.
Qed.

Lemma X10_entrega_en_orden_testigo :
  let e := {| Tuberia.buffer := [msg_fin_mpi];
              Tuberia.canal_cerrado := false; Tuberia.lector := Tuberia.Salio;
              Tuberia.escritos := [msg_inicio_mpi 1 1];
              Tuberia.aceptados :=
                [msg_inicio_mpi 1 1; msg_cabecera 1; msg_fin_mpi];
              Tuberia.perdidos := [msg_cabecera 1] |} in
  Tuberia.aceptados e =
    Tuberia.escritos e ++ Tuberia.perdidos e ++ Tuberia.buffer e /\
  (length (Tuberia.buffer e) <= 100)%nat /\
  (length (Tuberia.perdidos e) <= 1)%nat /\
  Tuberia.escritos e `prefix_of` Tuberia.aceptados e.
Proof.
  apply (X10_entrega_en_orden
           [Tuberia.Enviar (msg_inicio_mpi 1 1); Tuberia.Consumir true;
            Tuberia.Enviar (msg_cabecera 1); Tuberia.Consumir false;
            Tuberia.Consumir true; Tuberia.Enviar msg_fin_mpi]).
  reflexivity.
Defined.

Lemma tuberia_sin_lector_paso (ev : Tuberia.evento)
    (e e' : Tuberia.estado) :
  Tuberia.lector e = Tuberia.Salio ->
  Tuberia.paso ev e = Tuberia.Avanza e' ->
  Tuberia.lector e' = Tuberia.Salio /\
  Tuberia.escritos e' = Tuberia.escritos e /\
  Tuberia.perdidos e' = Tuberia.perdidos e /\
  Tuberia.buffer e `prefix_of` Tuberia.buffer e'.
Proof.
  destruct e as [buf ce lec esc ac per]. simpl. intros ->.
  destruct ev as [msg|ok|]; unfold Tuberia.paso; simpl.
  - destruct ce; [done|].
    destruct (Nat.ltb_spec (length buf) Tuberia.capacidad); [|done].
    intros [= <-]. simpl. do 3 (split; [done|]). by eexists.
  - done.
  - destruct ce; [done|]. intros [= <-]. by repeat split.
Qed.

Lemma tuberia_sin_lector (evs : list Tuberia.evento)
    (e e' : Tuberia.estado) :
  Tuberia.lector e = Tuberia.Salio ->
  Tuberia.correr evs e = Tuberia.Avanza e' ->
  Tuberia.lector e' = Tuberia.Salio /\
  Tuberia.escritos e' = Tuberia.escritos e /\
  Tuberia.perdidos e' = Tuberia.perdidos e /\
  Tuberia.buffer e `prefix_of` Tuberia.buffer e'.
Proof.
  revert e. induction evs as [|ev evs IH]; intros e Hl; simpl.
  - by intros [= <-].
  - destruct (Tuberia.paso ev e) as [e1| |] eqn:Hp; [|by apply IH|done].
    destruct (tuberia_sin_lector_paso ev e e1 Hl Hp)
      as (Hl1 & Hes1 & Hpe1 & Hb1).
    intros Hrun. destruct (IH e1 Hl1 Hrun) as (Hl2 & Hes2 & Hpe2 & Hb2).
    split; [done|]. split; [congruence|]. split; [congruence|].
    by etrans.
Qed.

(** X11: once the draining goroutine has returned (a write on the
    connection failed, or the channel was closed and emptied), nothing
    is written on the connection any more and nothing leaves the channel:
    from a state reached by any events, at most 100 minus the held
    messages more sends are accepted and a send to the full channel
    blocks. *)
Theorem X11_sin_lector_el_canal_se_llena (antes despues : list Tuberia.evento)
    (e e' : Tuberia.estado)
    (Hantes : Tuberia.correr antes Tuberia.inicial = Tuberia.Avanza e)
    (Hsalio : Tuberia.lector e = Tuberia.Salio)
    (Hdespues : Tuberia.correr despues e = Tuberia.Avanza e') :
  Tuberia.escritos e' = Tuberia.escritos e /\
  Tuberia.buffer e `prefix_of` Tuberia.buffer e' /\
  (length (Tuberia.aceptados e') + length (Tuberia.buffer e)
   <= length (Tuberia.aceptados e) + 100)%nat /\
  (length (Tuberia.buffer e') = 100%nat ->
   forall msg, Tuberia.canal_cerrado e' = false ->
     Tuberia.paso (Tuberia.Enviar msg) e' = Tuberia.Bloquea).
Proof.
  assert (Hinv : Tuberia.inv e).
  { eapply tuberia_inv_correr; [|exact Hantes]. apply tuberia_inv_inicial. }
  assert (Hinv' : Tuberia.inv e') by (by eapply tuberia_inv_correr).
  destruct (tuberia_sin_lector despues e e' Hsalio Hdespues)
    as (_ & Hes & Hpe & Hb).
  split; [done|]. split; [done|]. split.
  - destruct Hinv as (Hac & _). destruct Hinv' as (Hac' & Hcap' & _).
    rewrite Hac, Hac', Hes, Hpe, !length_app.
    unfold Tuberia.capacidad in Hcap'. lia.
  - intros Hfull msg Hc. unfold Tuberia.paso. rewrite Hc.
    rewrite Hfull. done.
Qed.

Lemma X11_sin_lector_el_canal_se_llena_testigo :
  let e := {| Tuberia.buffer := [];
              Tuberia.canal_cerrado := false; Tuberia.lector := Tuberia.Salio;
              Tuberia.escritos := [];
              Tuberia.aceptados := [msg_cabecera 1];
              Tuberia.perdidos := [msg_cabecera 1] |} in
  let e' := {| Tuberia.buffer := [msg_fin_mpi];
               Tuberia.canal_cerrado := false; Tuberia.lector := Tuberia.Salio;
               Tuberia.escritos := [];
               Tuberia.aceptados := [msg_cabecera 1; msg_fin_mpi];
               Tuberia.perdidos := [msg_cabecera 1] |} in
  Tuberia.escritos e' = Tuberia.escritos e /\
  Tuberia.buffer e `prefix_of` Tuberia.buffer e' /\
  (length (Tuberia.aceptados e') + length (Tuberia.buffer e)
   <= length (Tuberia.aceptados e) + 100)%nat /\
  (length (Tuberia.buffer e') = 100%nat ->
   forall msg, Tuberia.canal_cerrado e' = false ->
     Tuberia.paso (Tuberia.Enviar msg) e' = Tuberia.Bloquea).
Proof.
  apply (X11_sin_lector_el_canal_se_llena
           [Tuberia.Enviar (msg_cabecera 1); Tuberia.Consumir false]
           [Tuberia.Consumir true; Tuberia.Enviar msg_fin_mpi]);
    reflexivity.
Defined.

Lemma tuberia_todo_escrito_paso (ev : Tuberia.evento)
    (e e' : Tuberia.estado) :
  Tuberia.escritura_fallida ev = false ->
  Tuberia.perdidos e = [] ->
  (Tuberia.lector e = Tuberia.Salio ->
   Tuberia.buffer e = [] /\ Tuberia.canal_cerrado e = true) ->
  Tuberia.paso ev e = Tuberia.Avanza e' ->
  Tuberia.perdidos e' = [] /\
  (Tuberia.lector e' = Tuberia.Salio ->
   Tuberia.buffer e' = [] /\ Tuberia.canal_cerrado e' = true).
Proof.
  destruct e as [buf ce lec esc ac per]. simpl. intros Hok -> Hs.
  destruct ev as [msg|ok|]; unfold Tuberia.paso; simpl.
  - destruct ce; [done|].
    destruct (Nat.ltb_spec (length buf) Tuberia.capacidad); [|done].
    intros [= <-]. simpl. split; [done|]. intros Hl.
    by destruct (Hs Hl).
  - destruct lec; [|done]. destruct buf as [|msg resto].
    + destruct ce; [|done]. by intros [= <-].
    + destruct ok; [|done]. by intros [= <-].
  - destruct ce; [done|]. intros [= <-]. simpl. split; [done|].
    intros Hl. by destruct (Hs Hl) as [-> _].
Qed.

(** X12: when no write on the connection fails and the draining goroutine
    has returned, the channel was closed and every message it accepted has
    been written on the connection, in the order of acceptance. *)
Theorem X12_entrega_completa (evs : list Tuberia.evento)
    (e : Tuberia.estado)
    (Hok : forallb (fun ev => negb (Tuberia.escritura_fallida ev)) evs = true)
    (Hrun : Tuberia.correr evs Tuberia.inicial = Tuberia.Avanza e)
    (Hsalio : Tuberia.lector e = Tuberia.Salio) :
  Tuberia.canal_cerrado e = true /\
  Tuberia.buffer e = [] /\
  Tuberia.escritos e = Tuberia.aceptados e.
Proof.
  assert (Hinv : Tuberia.inv e).
  { eapply tuberia_inv_correr; [|exact Hrun]. apply tuberia_inv_inicial. }
  assert (Hgen : forall evs e0 e1,
            forallb (fun ev => negb (Tuberia.escritura_fallida ev)) evs = true ->
            Tuberia.perdidos e0 = [] ->
            (Tuberia.lector e0 = Tuberia.Salio ->
             Tuberia.buffer e0 = [] /\ Tuberia.canal_cerrado e0 = true) ->
            Tuberia.correr evs e0 = Tuberia.Avanza e1 ->
            Tuberia.perdidos e1 = [] /\
            (Tuberia.lector e1 = Tuberia.Salio ->
             Tuberia.buffer e1 = [] /\ Tuberia.canal_cerrado e1 = true)).
  { clear. induction evs as [|ev evs IH]; intros e0 e1 Hok Hp Hs; simpl.
    - by intros [= <-].
    - simpl in Hok. apply andb_prop in Hok as [Hev Hok].
      apply negb_true_iff in Hev.
      destruct (Tuberia.paso ev e0) as [e2| |] eqn:Hpaso;
        [|by apply IH|done].
      destruct (tuberia_todo_escrito_paso ev e0 e2 Hev Hp Hs Hpaso).
      by apply IH. }
  destruct (Hgen evs Tuberia.inicial e Hok eq_refl ltac:(done) Hrun)
    as (Hper & Hs).
  destruct (Hs Hsalio) as (Hb & Hc).
  destruct Hinv as (Hac & _).
  rewrite Hac, Hper, Hb, app_nil_r. done.
Qed.

Lemma X12_entrega_completa_testigo :
  let e := {| Tuberia.buffer := [];
              Tuberia.canal_cerrado := true; Tuberia.lector := Tuberia.Salio;
              Tuberia.escritos := [msg_cabecera 1; msg_fin_mpi];
              Tuberia.aceptados := [msg_cabecera 1; msg_fin_mpi];
              Tuberia.perdidos := [] |} in
  Tuberia.canal_cerrado e = true /\
  Tuberia.buffer e = [] /\
  Tuberia.escritos e = Tuberia.aceptados e.
Proof.
  apply (X12_entrega_completa
           [Tuberia.Enviar (msg_cabecera 1); Tuberia.Enviar msg_fin_mpi;
            Tuberia.Consumir true; Tuberia.Cerrar; Tuberia.Consumir true;
            Tuberia.Consumir true]);
    reflexivity.
Defined.

(** ** The ring of goroutines of src/mpi.go *)

Lemma anillo_siguiente (n id : nat) :
  (id < 5)%nat -> (n mod 5 = Anillo.entrada id)%nat -> (S n mod 5 = id)%nat.
Proof.
  intros Hid Hn.
  pose proof (Nat.div_mod_eq n 5) as H1.
  pose proof (Nat.div_mod_eq (S n) 5) as H2.
  pose proof (Nat.mod_upper_bound (S n) 5 ltac:(lia)) as H3.
  destruct id as [|id]; unfold Anillo.entrada in Hn; lia.
Qed.

Lemma anillo_es_ping_ping (n : Z) : Anillo.es_ping (Anillo.ping n) = true.
Proof. unfold Anillo.es_ping, Anillo.ping. simpl. by destruct (pretty n). Qed.

Lemma anillo_es_ping_aviso (n : Z) : Anillo.es_ping (Anillo.aviso n) = false.
Proof. reflexivity. Qed.

Lemma anillo_es_aviso_ping (n : Z) : Anillo.es_aviso (Anillo.ping n) = false.
Proof. reflexivity. Qed.

Lemma anillo_es_aviso_aviso (n : Z) : Anillo.es_aviso (Anillo.aviso n) = true.
Proof. reflexivity. Qed.

Lemma anillo_fin_no_es_aviso (n : Z) : Anillo.fin <> Anillo.aviso n.
Proof.
  intros Heq. pose proof (anillo_es_aviso_aviso n) as Ha.
  rewrite <- Heq in Ha. discriminate Ha.
Qed.

Lemma anillo_fin_no_es_ping (n : Z) : Anillo.fin <> Anillo.ping n.
Proof.
  intros Heq. pose proof (anillo_es_ping_ping n) as Ha.
  rewrite <- Heq in Ha. discriminate Ha.
Qed.

Lemma anillo_pings_S (n : nat) :
  Anillo.pings_hasta (S n) =
  Anillo.pings_hasta n ++ [Anillo.ping (Z.of_nat (n mod 5) + 1)].
Proof. unfold Anillo.pings_hasta. by rewrite seq_S, fmap_app. Qed.

Lemma anillo_canales_lleno (t : Anillo.testigo) (i : nat) (s : string) :
  Anillo.canales_de t !! i = Some (Some s) ->
  t = Anillo.EnCanal i /\ s = Anillo.ping (Z.of_nat i + 1).
Proof.
  destruct t as [|j|j]; unfold Anillo.canales_de.
  - intros Hl. apply lookup_replicate in Hl as [? _]. done.
  - destruct (decide (i = j)) as [->|Hne].
    + intros Hl. apply list_lookup_insert_Some in Hl as [(_ & [= <-] & _)|(? & _)]; done.
    + rewrite list_lookup_insert_ne by done.
      intros Hl. apply lookup_replicate in Hl as [? _]. done.
  - intros Hl. apply lookup_replicate in Hl as [? _]. done.
Qed.

Lemma anillo_canales_vaciar (i : nat) :
  <[i := None]> (Anillo.canales_de (Anillo.EnCanal i)) = replicate 5 None.
Proof.
  unfold Anillo.canales_de. rewrite list_insert_insert_eq.
  do 5 (destruct i as [|i]; [done|]). done.
Qed.

Lemma anillo_vivos (l : list Anillo.estado_nodo) (id : nat) st :
  l !! id = Some st -> Anillo.vivo st = true ->
  (1 <= contar Anillo.vivo l)%nat.
Proof.
  intros Hl Hv. eapply contar_elem; [|exact Hv].
  by eapply list_elem_of_lookup_2.
Qed.

Lemma anillo_inv_inicial : Anillo.inv Anillo.inicial.
Proof.
  exists Anillo.SinTestigo, 0%nat. unfold Anillo.inicial. cbn [Anillo.nodo Anillo.canales Anillo.main Anillo.wg Anillo.salida Anillo.done_cerrado Anillo.lugar Anillo.canales_de].
  split; [done|]. split; [done|]. split; [done|]. split; [done|].
  split; [done|]. split.
  { intros id. split; [|done].
    intros Hl. apply lookup_replicate in Hl as [? _]. done. }
  split.
  { intros id Hl. apply lookup_replicate in Hl as [? _]. done. }
  split; [done|]. split; [done|]. split; [done|]. split; [done|].
  split; [|done]. by intros ?%elem_of_nil.
Qed.

Ltac anillo_proy :=
  cbn [Anillo.canales Anillo.nodo Anillo.done_cerrado Anillo.wg Anillo.main
       Anillo.salida Anillo.lugar] in *.

Lemma anillo_no_finalizado (e : Anillo.estado) (id : nat) st :
  Anillo.wg e = Z.of_nat (contar Anillo.vivo (Anillo.nodo e)) ->
  (Anillo.main e = Anillo.Finalizado -> Anillo.wg e = 0) ->
  Anillo.nodo e !! id = Some st -> Anillo.vivo st = true ->
  Anillo.main e <> Anillo.Finalizado.
Proof.
  intros Hwg Hfin Hl Hv Hm. specialize (Hfin Hm).
  pose proof (anillo_vivos _ _ _ Hl Hv). lia.
Qed.

Lemma anillo_filter_snoc (f : string -> bool) (l : list string) (s : string) :
  List.filter f (l ++ [s]) =
  List.filter f l ++ (if f s then [s] else []).
Proof. rewrite List.filter_app. simpl. by destruct (f s). Qed.

(** An enabled event keeps the invariant of the ring. *)
Lemma anillo_inv_paso (ev : Anillo.evento) (e e' : Anillo.estado) :
  Anillo.inv e -> Anillo.paso ev e = Anillo.Avanza e' -> Anillo.inv e'.
Proof.
  intros (t & n & Hlen & Hcan & Hlug & Hsin & Hn0 & Hpor & Hret & Hwg &
          Hfinwg & Hpings & Havisos & Hfin & Hlast).
  destruct ev as [id|id|id| | |]; unfold Anillo.paso.
  - (* Recibe *)
    destruct (Anillo.nodo e !! id) as [[]|] eqn:Hnodo; try done.
    destruct (Anillo.canales e !! Anillo.entrada id) as [[msj|]|] eqn:Hc;
      try done.
    intros [= <-].
    rewrite Hcan in Hc. apply anillo_canales_lleno in Hc as [-> ->].
    assert (Hid : (id < 5)%nat)
      by (rewrite <- Hlen; by eapply lookup_lt_Some).
    destruct (Hlug _ eq_refl) as [Hent Hmod].
    pose proof (anillo_no_finalizado e id _ Hwg Hfinwg Hnodo eq_refl) as Hnf.
    exists (Anillo.EnNodo id), (S n). anillo_proy.
    split; [by rewrite length_insert|]. split.
    { rewrite Hcan, anillo_canales_vaciar. done. }
    split.
    { intros i [= <-]. split; [done|]. by apply anillo_siguiente. }
    split.
    { split; [done|]. intros Hm. apply Hsin in Hm. discriminate Hm. }
    split; [done|]. split.
    { intros id'. destruct (decide (id' = id)) as [->|Hne].
      - rewrite list_lookup_insert_eq by lia. done.
      - rewrite list_lookup_insert_ne by done. rewrite Hpor.
        split; [done|]. intros [= ->]. done. }
    split.
    { intros id'. destruct (decide (id' = id)) as [->|Hne].
      - rewrite list_lookup_insert_eq by lia. done.
      - rewrite list_lookup_insert_ne by done. apply Hret. }
    split.
    { pose proof (contar_insert Anillo.vivo _ id _ Anillo.PorEnviar Hnodo)
        as Hc. simpl in Hc. lia. }
    split; [done|]. split.
    { rewrite anillo_filter_snoc, anillo_es_ping_ping, Hpings,
        anillo_pings_S, Hmod. done. }
    split.
    { rewrite anillo_filter_snoc, anillo_es_aviso_ping, app_nil_r. done. }
    split; [|done].
    intros [Hin|Hin]%elem_of_app; [by apply Hfin|].
    apply list_elem_of_singleton in Hin.
    by destruct (anillo_fin_no_es_ping _ Hin).
  - (* Envia *)
    destruct (Anillo.nodo e !! id) as [[]|] eqn:Hnodo; try done.
    destruct (Anillo.canales e !! id) as [[msj|]|] eqn:Hc; try done.
    intros [= <-].
    assert (Hid : (id < 5)%nat)
      by (rewrite <- Hlen; by eapply lookup_lt_Some).
    pose proof (proj1 (Hpor id) Hnodo) as ->.
    destruct (Hlug _ eq_refl) as [_ Hmod].
    pose proof (anillo_no_finalizado e id _ Hwg Hfinwg Hnodo eq_refl) as Hnf.
    exists (Anillo.EnCanal id), n. anillo_proy.
    split; [by rewrite length_insert|]. split.
    { by rewrite Hcan. }
    split.
    { intros i [= <-]. done. }
    split.
    { split; [done|]. intros Hm. apply Hsin in Hm. discriminate Hm. }
    split; [done|]. split.
    { intros id'. destruct (decide (id' = id)) as [->|Hne].
      - rewrite list_lookup_insert_eq by lia. done.
      - rewrite list_lookup_insert_ne by done. rewrite Hpor.
        split; [|done]. intros [= ->]. done. }
    split.
    { intros id'. destruct (decide (id' = id)) as [->|Hne].
      - rewrite list_lookup_insert_eq by lia. done.
      - rewrite list_lookup_insert_ne by done. apply Hret. }
    split.
    { pose proof (contar_insert Anillo.vivo _ id _ Anillo.EnSelect Hnodo)
        as Hc'. simpl in Hc'. lia. }
    done.
  - (* Termina *)
    destruct (Anillo.nodo e !! id) as [[]|] eqn:Hnodo; try done.
    destruct (Anillo.done_cerrado e) eqn:Hdone; [|done].
    destruct (Z.ltb_spec (Anillo.wg e - 1) 0); [done|].
    intros [= <-].
    assert (Hid : (id < 5)%nat)
      by (rewrite <- Hlen; by eapply lookup_lt_Some).
    pose proof (anillo_no_finalizado e id _ Hwg Hfinwg Hnodo eq_refl) as Hnf.
    exists t, n. anillo_proy.
    split; [by rewrite length_insert|]. split; [done|]. split; [done|].
    split; [done|]. split; [done|]. split.
    { intros id'. destruct (decide (id' = id)) as [->|Hne].
      - rewrite list_lookup_insert_eq by lia. rewrite <- Hpor, Hnodo. done.
      - rewrite list_lookup_insert_ne by done. apply Hpor. }
    split; [done|]. split.
    { pose proof (contar_insert Anillo.vivo _ id _ Anillo.Retornado Hnodo)
        as Hc. simpl in Hc. lia. }
    split; [done|]. split.
    { rewrite anillo_filter_snoc, anillo_es_ping_aviso, app_nil_r. done. }
    split.
    { rewrite anillo_filter_snoc, anillo_es_aviso_aviso, length_app.
      simpl. lia. }
    split; [|done].
    intros [Hin|Hin]%elem_of_app; [by apply Hfin|].
    apply list_elem_of_singleton in Hin.
    by destruct (anillo_fin_no_es_aviso _ Hin).
  - (* Inicia *)
    destruct (Anillo.main e) eqn:Hmain; try done.
    destruct (Anillo.canales e !! 0%nat) as [[msj|]|] eqn:Hc; try done.
    intros [= <-].
    pose proof (proj2 Hsin eq_refl) as ->.
    exists (Anillo.EnCanal 0), 0%nat. anillo_proy.
    split; [done|]. split; [by rewrite Hcan|]. split.
    { intros i [= <-]. split; [lia|done]. }
    split; [done|]. split; [done|]. split.
    { intros id. rewrite Hpor. done. }
    split; [done|]. split; [done|]. split; [done|]. split.
    { by rewrite Hpings, (Hn0 eq_refl). }
    split; [done|]. split; [|done].
    intros Hin. by specialize (Hfin Hin).
  - (* Cierra *)
    destruct (Anillo.done_cerrado e) eqn:Hdone; [done|].
    intros [= <-]. exists t, n. anillo_proy. by repeat (split; [done|]).
  - (* Espera *)
    destruct (Anillo.main e) eqn:Hmain; try done.
    destruct (Z.eqb_spec (Anillo.wg e) 0) as [Hz|]; [|done].
    intros [= <-]. exists t, n. anillo_proy.
    split; [done|]. split; [done|]. split; [done|]. split.
    { rewrite Hsin. done. }
    split; [done|]. split; [done|]. split; [done|]. split; [done|].
    split; [done|]. split.
    { rewrite anillo_filter_snoc. by rewrite app_nil_r. }
    split.
    { rewrite anillo_filter_snoc. by rewrite app_nil_r. }
    split; [done|]. intros _. by rewrite last_snoc.
Qed.

Lemma anillo_sin_panico (ev : Anillo.evento) (e : Anillo.estado) motivo :
  Anillo.inv e -> Anillo.paso ev e <> Anillo.Panico motivo.
Proof.
  intros (t & n & Hlen & Hcan & Hlug & Hsin & Hn0 & Hpor & Hret & Hwg & _).
  destruct ev as [id|id|id| | |]; unfold Anillo.paso.
  - destruct (Anillo.nodo e !! id) as [[]|]; try done;
      by destruct (Anillo.canales e !! Anillo.entrada id) as [[]|].
  - destruct (Anillo.nodo e !! id) as [[]|]; try done;
      by destruct (Anillo.canales e !! id) as [[]|].
  - destruct (Anillo.nodo e !! id) as [[]|] eqn:Hnodo; try done.
    destruct (Anillo.done_cerrado e); [|done].
    destruct (Z.ltb_spec (Anillo.wg e - 1) 0); [|done].
    pose proof (anillo_vivos _ _ _ Hnodo eq_refl). lia.
  - destruct (Anillo.main e); try done;
      by destruct (Anillo.canales e !! 0%nat) as [[]|].
  - by destruct (Anillo.done_cerrado e).
  - destruct (Anillo.main e); try done. by destruct (Anillo.wg e =? 0).
Qed.

Lemma anillo_inv_correr (evs : list Anillo.evento) (e : Anillo.estado) :
  Anillo.inv e ->
  (forall motivo, Anillo.correr evs e <> Anillo.Panico motivo) /\
  (forall e', Anillo.correr evs e = Anillo.Avanza e' -> Anillo.inv e') /\
  Anillo.correr evs e <> Anillo.Bloquea.
Proof.
  revert e. induction evs as [|ev evs IH]; intros e Hinv; simpl.
  - split; [done|]. split; [|done]. by intros e' [= <-].
  - destruct (Anillo.paso ev e) as [e1| |motivo] eqn:Hp.
    + apply IH. by eapply anillo_inv_paso.
    + by apply IH.
    + by destruct (anillo_sin_panico ev e motivo Hinv).
Qed.

Lemma anillo_correr_app (evs1 evs2 : list Anillo.evento)
    (e e1 e2 : Anillo.estado) :
  Anillo.correr evs1 e = Anillo.Avanza e1 ->
  Anillo.correr evs2 e1 = Anillo.Avanza e2 ->
  Anillo.correr (evs1 ++ evs2) e = Anillo.Avanza e2.
Proof.
  revert e. induction evs1 as [|ev evs1 IH]; intros e; simpl.
  - by intros [= ->].
  - destruct (Anillo.paso ev e); [apply IH|apply IH|done].
Qed.

Lemma anillo_canales_vacio (t : Anillo.testigo) (id : nat) :
  (id < 5)%nat -> (forall i, t <> Anillo.EnCanal i) ->
  Anillo.canales_de t !! id = Some None.
Proof.
  intros Hid Ht. destruct t as [|i|i]; [|by destruct (Ht i)|];
    unfold Anillo.canales_de; by apply lookup_replicate.
Qed.

(** [mpi]'s first send finds [canales[0]] empty. *)
Lemma anillo_inicia (e : Anillo.estado) :
  Anillo.inv e ->
  exists e1, Anillo.correr [Anillo.Inicia] e = Anillo.Avanza e1 /\
    Anillo.inv e1 /\ Anillo.main e1 <> Anillo.PorIniciar.
Proof.
  intros Hinv. pose proof Hinv as (t & n & _ & Hcan & _ & Hsin & _).
  cbn [Anillo.correr]. destruct (Anillo.paso Anillo.Inicia e) as [e1| |motivo] eqn:Hp.
  - exists e1. split; [done|]. split; [by eapply anillo_inv_paso|].
    unfold Anillo.paso in Hp. destruct (Anillo.main e); try done.
    destruct (Anillo.canales e !! 0%nat) as [[]|]; try done.
    by injection Hp as <-.
  - exists e. split; [done|]. split; [done|].
    unfold Anillo.paso in Hp. intros Hm. rewrite Hm in Hp.
    rewrite (proj2 Hsin Hm) in Hcan. rewrite Hcan in Hp.
    rewrite anillo_canales_vacio in Hp by (done || lia). done.
  - by destruct (anillo_sin_panico _ _ _ Hinv Hp).
Qed.

Lemma anillo_cierra (e : Anillo.estado) :
  Anillo.inv e ->
  exists e1, Anillo.correr [Anillo.Cierra] e = Anillo.Avanza e1 /\
    Anillo.inv e1 /\ Anillo.done_cerrado e1 = true /\
    Anillo.main e1 = Anillo.main e.
Proof.
  intros Hinv. cbn [Anillo.correr].
  destruct (Anillo.paso Anillo.Cierra e) as [e1| |motivo] eqn:Hp.
  - exists e1. split; [done|]. split; [by eapply anillo_inv_paso|].
    unfold Anillo.paso in Hp. destruct (Anillo.done_cerrado e); [done|].
    by injection Hp as <-.
  - exists e. split; [done|]. split; [done|].
    unfold Anillo.paso in Hp. by destruct (Anillo.done_cerrado e).
  - by destruct (anillo_sin_panico _ _ _ Hinv Hp).
Qed.

(** Once [done] is closed, node [id] can finish its send and return. *)
Lemma anillo_apaga_nodo (id : nat) (e : Anillo.estado) :
  (id < 5)%nat -> Anillo.inv e -> Anillo.done_cerrado e = true ->
  exists e1,
    Anillo.correr [Anillo.Envia id; Anillo.Termina id] e = Anillo.Avanza e1 /\
    Anillo.inv e1 /\ Anillo.done_cerrado e1 = true /\
    Anillo.main e1 = Anillo.main e /\
    Anillo.nodo e1 !! id = Some Anillo.Retornado /\
    forall j, Anillo.nodo e !! j = Some Anillo.Retornado ->
              Anillo.nodo e1 !! j = Some Anillo.Retornado.
Proof.
  intros Hid Hinv Hdone.
  assert (Htermina : forall e0, Anillo.inv e0 ->
            Anillo.done_cerrado e0 = true ->
            Anillo.nodo e0 !! id = Some Anillo.EnSelect ->
            exists e1, Anillo.paso (Anillo.Termina id) e0 = Anillo.Avanza e1 /\
              Anillo.done_cerrado e1 = true /\
              Anillo.main e1 = Anillo.main e0 /\
              Anillo.nodo e1 = <[id := Anillo.Retornado]> (Anillo.nodo e0)).
  { intros e0 Hinv0 Hdone0 Hn0.
    pose proof (anillo_sin_panico (Anillo.Termina id) e0
                  "sync: negative WaitGroup counter" Hinv0) as Hnp.
    unfold Anillo.paso in *. rewrite Hn0, Hdone0 in *.
    destruct (Anillo.wg e0 - 1 <? 0); [done|]. by eexists. }
  pose proof Hinv as (t & n & Hlen & Hcan & _ & _ & _ & Hpor & _).
  destruct (lookup_lt_is_Some_2 (Anillo.nodo e) id) as (st & Hst); [lia|].
  cbn [Anillo.correr]. destruct st.
  - (* at its select *)
    assert (Hp : Anillo.paso (Anillo.Envia id) e = Anillo.Bloquea)
      by (unfold Anillo.paso; by rewrite Hst).
    rewrite Hp.
    destruct (Htermina e Hinv Hdone Hst) as (e1 & Hp1 & Hd1 & Hm1 & Hn1).
    rewrite Hp1. exists e1. split; [done|].
    split; [by eapply anillo_inv_paso|]. split; [done|]. split; [done|].
    rewrite Hn1. split; [by rewrite list_lookup_insert_eq by lia|].
    intros j Hj. destruct (decide (j = id)) as [->|Hne]; [congruence|].
    by rewrite list_lookup_insert_ne.
  - (* about to send *)
    pose proof (proj1 (Hpor id) Hst) as ->.
    assert (Hp : Anillo.paso (Anillo.Envia id) e =
      Anillo.Avanza
        {| Anillo.canales :=
             <[id := Some (Anillo.ping (Z.of_nat id + 1))]> (Anillo.canales e);
           Anillo.nodo := <[id := Anillo.EnSelect]> (Anillo.nodo e);
           Anillo.done_cerrado := Anillo.done_cerrado e;
           Anillo.wg := Anillo.wg e; Anillo.main := Anillo.main e;
           Anillo.salida := Anillo.salida e |}).
    { unfold Anillo.paso. rewrite Hst, Hcan.
      by rewrite anillo_canales_vacio by done. }
    rewrite Hp.
    pose proof (anillo_inv_paso _ _ _ Hinv Hp) as Hinv0.
    destruct (Htermina _ Hinv0 Hdone) as (e1 & Hp1 & Hd1 & Hm1 & Hn1).
    { simpl. by rewrite list_lookup_insert_eq by lia. }
    rewrite Hp1. exists e1. split; [done|].
    split; [by eapply anillo_inv_paso|]. split; [done|]. split; [done|].
    rewrite Hn1. simpl.
    split; [by rewrite list_lookup_insert_eq by (rewrite length_insert; lia)|].
    intros j Hj. destruct (decide (j = id)) as [->|Hne]; [congruence|].
    by rewrite !list_lookup_insert_ne.
  - (* returned already *)
    assert (Hp : Anillo.paso (Anillo.Envia id) e = Anillo.Bloquea)
      by (unfold Anillo.paso; by rewrite Hst).
    assert (Hp' : Anillo.paso (Anillo.Termina id) e = Anillo.Bloquea)
      by (unfold Anillo.paso; by rewrite Hst).
    rewrite Hp, Hp'. by exists e.
Qed.

Lemma anillo_espera (e : Anillo.estado) :
  Anillo.inv e -> Anillo.main e <> Anillo.PorIniciar ->
  (forall j, (j < 5)%nat -> Anillo.nodo e !! j = Some Anillo.Retornado) ->
  exists e1, Anillo.correr [Anillo.Espera] e = Anillo.Avanza e1 /\
    Anillo.inv e1 /\ Anillo.main e1 = Anillo.Finalizado.
Proof.
  intros Hinv Hm Hall.
  pose proof Hinv as (t & n & Hlen & _ & _ & _ & _ & _ & _ & Hwg & _).
  assert (Hcero : Anillo.wg e = 0).
  { rewrite Hwg, contar_ninguno; [done|].
    apply Forall_lookup. intros j st Hj.
    assert (Hj5 : (j < 5)%nat)
      by (rewrite <- Hlen; by eapply lookup_lt_Some).
    rewrite (Hall j Hj5) in Hj. by injection Hj as <-. }
  cbn [Anillo.correr]. destruct (Anillo.paso Anillo.Espera e) as [e1| |motivo] eqn:Hp.
  - exists e1. split; [done|]. split; [by eapply anillo_inv_paso|].
    unfold Anillo.paso in Hp. destruct (Anillo.main e); try done.
    destruct (Anillo.wg e =? 0); [|done]. by injection Hp as <-.
  - exists e. split; [done|]. split; [done|].
    unfold Anillo.paso in Hp. rewrite Hcero in Hp.
    by destruct (Anillo.main e).
  - by destruct (anillo_sin_panico _ _ _ Hinv Hp).
Qed.

(** The schedule [apagar] takes the ring from any state it can be in to
    the end of [mpi]. *)
Lemma anillo_apagar (e : Anillo.estado) :
  Anillo.inv e ->
  exists e', Anillo.correr Anillo.apagar e = Anillo.Avanza e' /\
    Anillo.inv e' /\ Anillo.main e' = Anillo.Finalizado.
Proof.
  intros Hinv.
  destruct (anillo_inicia e Hinv) as (e1 & Hr1 & Hinv1 & Hm1).
  destruct (anillo_cierra e1 Hinv1) as (e2 & Hr2 & Hinv2 & Hd2 & Hm2).
  destruct (anillo_apaga_nodo 0 e2 ltac:(lia) Hinv2 Hd2)
    as (a0 & Ha0 & Hi0 & Hd0 & Hmm0 & Hn0 & Hk0).
  destruct (anillo_apaga_nodo 1 a0 ltac:(lia) Hi0 Hd0)
    as (a1 & Ha1 & Hi1 & Hd1 & Hmm1 & Hn1 & Hk1).
  destruct (anillo_apaga_nodo 2 a1 ltac:(lia) Hi1 Hd1)
    as (a2 & Ha2 & Hi2 & Hd2' & Hmm2 & Hn2 & Hk2).
  destruct (anillo_apaga_nodo 3 a2 ltac:(lia) Hi2 Hd2')
    as (a3 & Ha3 & Hi3 & Hd3 & Hmm3 & Hn3 & Hk3).
  destruct (anillo_apaga_nodo 4 a3 ltac:(lia) Hi3 Hd3)
    as (a4 & Ha4 & Hi4 & Hd4 & Hmm4 & Hn4 & Hk4).
  destruct (anillo_espera a4 Hi4) as (e' & Hr' & Hinv' & Hm').
  { congruence. }
  { intros j Hj. do 5 (destruct j as [|j]; [by auto 10|]). lia. }
  exists e'. split; [|done].
  change Anillo.apagar with
    ([Anillo.Inicia] ++ [Anillo.Cierra] ++
     [Anillo.Envia 0; Anillo.Termina 0] ++
     [Anillo.Envia 1; Anillo.Termina 1] ++
     [Anillo.Envia 2; Anillo.Termina 2] ++
     [Anillo.Envia 3; Anillo.Termina 3] ++
     [Anillo.Envia 4; Anillo.Termina 4] ++ [Anillo.Espera]).
  repeat (eapply anillo_correr_app; [eassumption|]). exact Hr'.
Qed.

(** X13: in every state the ring of src/mpi.go can reach, whatever the
    scheduler does, there is at most one message in the ring: at most one
    channel is full, at most one node is between its receive and its send,
    and then every channel is empty. So no send ever blocks (neither a
    node's nor the first one of [mpi]), and [WgAnillo] never goes
    negative: no event panics. *)
Theorem X13_un_solo_mensaje_en_el_anillo (evs : list Anillo.evento) :
  (forall motivo, Anillo.correr evs Anillo.inicial <> Anillo.Panico motivo) /\
  forall e, Anillo.correr evs Anillo.inicial = Anillo.Avanza e ->
    (forall i j s s',
       Anillo.canales e !! i = Some (Some s) ->
       Anillo.canales e !! j = Some (Some s') -> i = j) /\
    (forall id id',
       Anillo.nodo e !! id = Some Anillo.PorEnviar ->
       Anillo.nodo e !! id' = Some Anillo.PorEnviar -> id = id') /\
    (forall id, Anillo.nodo e !! id = Some Anillo.PorEnviar ->
       Forall (fun c => c = None) (Anillo.canales e) /\
       exists e', Anillo.paso (Anillo.Envia id) e = Anillo.Avanza e') /\
    (Anillo.main e = Anillo.PorIniciar ->
       Forall (fun c => c = None) (Anillo.canales e) /\
       exists e', Anillo.paso Anillo.Inicia e = Anillo.Avanza e').
Proof.
  destruct (anillo_inv_correr evs _ anillo_inv_inicial) as (Hnp & Hinv & _).
  split; [done|]. intros e Hrun.
  destruct (Hinv e Hrun)
    as (t & n & Hlen & Hcan & _ & Hsin & _ & Hpor & _).
  assert (Hvacios : (forall i, t <> Anillo.EnCanal i) ->
            Forall (fun c => c = None) (Anillo.canales e)).
  { intros Ht. rewrite Hcan. destruct t as [|i|i]; [|by destruct (Ht i)|];
      unfold Anillo.canales_de; by apply Forall_replicate. }
  split; [|split; [|split]].
  - intros i j s s' Hi Hj. rewrite Hcan in Hi, Hj.
    apply anillo_canales_lleno in Hi as [-> _].
    apply anillo_canales_lleno in Hj as [[= ->] _]. done.
  - intros id id' Hid Hid'. apply Hpor in Hid as ->.
    apply Hpor in Hid' as [= ->]. done.
  - intros id Hid. pose proof (proj1 (Hpor id) Hid) as ->.
    split; [by apply Hvacios|].
    assert (Hid5 : (id < 5)%nat)
      by (rewrite <- Hlen; by eapply lookup_lt_Some).
    unfold Anillo.paso. rewrite Hid, Hcan.
    rewrite anillo_canales_vacio by done. by eexists.
  - intros Hm. pose proof (proj2 Hsin Hm) as ->.
    split; [by apply Hvacios|].
    unfold Anillo.paso. rewrite Hm, Hcan.
    rewrite anillo_canales_vacio by (done || lia). by eexists.
Qed.

(** X14: the lines [Ping desde nodo k] that the ring of src/mpi.go prints
    name the nodes in the order of the ring, 1, 2, 3, 4, 5, 1, 2, ...,
    whatever the scheduler does: the k-th such line (from 0) names node
    k mod 5 + 1. *)
Theorem X14_orden_de_los_pings (evs : list Anillo.evento)
    (e : Anillo.estado)
    (Hrun : Anillo.correr evs Anillo.inicial = Anillo.Avanza e) :
  forall (k : nat) (s : string),
    List.filter Anillo.es_ping (Anillo.salida e) !! k = Some s ->
    s = Anillo.ping (Z.of_nat (k mod 5) + 1).
Proof.
  destruct (anillo_inv_correr evs _ anillo_inv_inicial) as (_ & Hinv & _).
  destruct (Hinv e Hrun)
    as (t & n & _ & _ & _ & _ & _ & _ & _ & _ & _ & Hpings & _).
  intros k s. rewrite Hpings. unfold Anillo.pings_hasta.
  rewrite list_lookup_fmap.
  destruct (seq 0 n !! k) as [k'|] eqn:Hk; [|done].
  apply lookup_seq in Hk as [-> _]. by intros [= <-].
Qed.

Lemma X14_orden_de_los_pings_testigo :
  exists e,
    Anillo.correr
      [Anillo.Inicia; Anillo.Recibe 1; Anillo.Envia 1; Anillo.Recibe 2]
      Anillo.inicial = Anillo.Avanza e /\
    Anillo.salida e = [ "Ping desde nodo 1"; "Ping desde nodo 2" ] /\
    forall (k : nat) (s : string),
      List.filter Anillo.es_ping (Anillo.salida e) !! k = Some s ->
      s = Anillo.ping (Z.of_nat (k mod 5) + 1).
Proof.
  eexists. split; [reflexivity|]. split; [reflexivity|].
  apply (X14_orden_de_los_pings
           [Anillo.Inicia; Anillo.Recibe 1; Anillo.Envia 1;
            Anillo.Recibe 2]).
  reflexivity.
Defined.

(** X15: in every state the ring of src/mpi.go can reach, the counter of
    [WgAnillo] is the number of nodes that have not returned and as many
    lines [Terminó el tiempo en el nodo k] were printed as nodes have
    returned; no node returns before [done] is closed; [mpi] prints its
    last line only when the five nodes have returned, and nothing is
    printed after it; and from that state there is a schedule on which
    [mpi] ends. *)
Theorem X15_apagado_del_anillo (evs : list Anillo.evento)
    (e : Anillo.estado)
    (Hrun : Anillo.correr evs Anillo.inicial = Anillo.Avanza e) :
  Anillo.wg e = Z.of_nat (contar Anillo.vivo (Anillo.nodo e)) /\
  Z.of_nat (length (List.filter Anillo.es_aviso (Anillo.salida e))) =
    5 - Anillo.wg e /\
  (Anillo.done_cerrado e = false -> Anillo.wg e = 5) /\
  (Anillo.fin ∈ Anillo.salida e ->
   Anillo.wg e = 0 /\ last (Anillo.salida e) = Some Anillo.fin) /\
  exists e', Anillo.correr Anillo.apagar e = Anillo.Avanza e' /\
    Anillo.main e' = Anillo.Finalizado /\ Anillo.wg e' = 0 /\
    last (Anillo.salida e') = Some Anillo.fin.
Proof.
  destruct (anillo_inv_correr evs _ anillo_inv_inicial) as (_ & Hinv & _).
  pose proof (Hinv e Hrun) as Hinve.
  pose proof Hinve
    as (t & n & Hlen & _ & _ & _ & _ & _ & Hret & Hwg & Hfinwg & _ &
        Havisos & Hfin & Hlast).
  split; [done|]. split; [done|]. split; [|split].
  - intros Hdone. rewrite Hwg, contar_todos, Hlen; [done|].
    apply Forall_lookup. intros j st Hj. destruct st; try done.
    rewrite (Hret j Hj) in Hdone. done.
  - intros Hin. specialize (Hfin Hin). split; [by apply Hfinwg|by apply Hlast].
  - destruct (anillo_apagar e Hinve) as (e' & Hr' & Hinv' & Hm').
    exists e'. split; [done|]. split; [done|].
    destruct Hinv'
      as (t' & n' & _ & _ & _ & _ & _ & _ & _ & _ & Hfinwg' & _ & _ & _ &
          Hlast').
    split; [by apply Hfinwg'|by apply Hlast'].
Qed.

Lemma X15_apagado_del_anillo_testigo :
  exists e,
    Anillo.correr [Anillo.Inicia; Anillo.Recibe 1; Anillo.Cierra]
      Anillo.inicial = Anillo.Avanza e /\
    Anillo.wg e = Z.of_nat (contar Anillo.vivo (Anillo.nodo e)) /\
    Z.of_nat (length (List.filter Anillo.es_aviso (Anillo.salida e))) =
      5 - Anillo.wg e /\
    (Anillo.done_cerrado e = false -> Anillo.wg e = 5) /\
    (Anillo.fin ∈ Anillo.salida e ->
     Anillo.wg e = 0 /\ last (Anillo.salida e) = Some Anillo.fin) /\
    exists e', Anillo.correr Anillo.apagar e = Anillo.Avanza e' /\
      Anillo.main e' = Anillo.Finalizado /\ Anillo.wg e' = 0 /\
      last (Anillo.salida e') = Some Anillo.fin.
Proof.
  eexists. split; [reflexivity|].
  apply (X15_apagado_del_anillo
           [Anillo.Inicia; Anillo.Recibe 1; Anillo.Cierra]).
  reflexivity.
Defined.

(** ** The best-lap records of a car *)









(** ** The page's buttons and the handler *)

Lemma int_of_float64_inject_Z (n : Z) : int_of_float64 (inject_Z n) = n.
Proof. unfold int_of_float64, inject_Z. simpl. apply Z.quot_1_r. Qed.

Lemma pagina_o_no_cero (x : option Z) (d : Z) : d <> 0 -> Pagina.o x d <> 0.
Proof. intros Hd. destruct x as [[| |]|]; simpl; done. Qed.

Lemma pagina_o_cabe (x : option Z) (d : Z) :
  Pagina.en_rango x = true -> cabe_en_int (inject_Z d) = true ->
  cabe_en_int (inject_Z (Pagina.o x d)) = true.
Proof. destruct x as [[| |]|]; simpl; done. Qed.

(** X17: a click on a button of the page, when the numbers read by
    [parseInt] fit in [int], makes the handler launch the run with those
    numbers, an unparsable, missing or zero number being replaced by the
    page's default (5 sectors and 3 laps, 4 cars and 5 laps), in both
    programs of src/main.go: every number the handler converts fits in
    [int], the handler's own defaults are never used, the count 0 is never
    received, and the ring's error run is launched exactly when the number
    of sectors read is negative. *)
Theorem X17_botones_de_la_pagina (a b : option Z)
    (Hra : Pagina.en_rango a = true) (Hrb : Pagina.en_rango b = true) :
  despachar (Pagina.comando_mpi a b) =
    LanzaMPI (Pagina.o a 5) (Pagina.o b 3) /\
  despachar (Pagina.comando_openmp a b) =
    LanzaOpenMP (Pagina.o a 4) (Pagina.o b 5) /\
  Revision2.despachar (Pagina.comando_mpi a b) =
    despachar (Pagina.comando_mpi a b) /\
  Revision2.despachar (Pagina.comando_openmp a b) =
    despachar (Pagina.comando_openmp a b) /\
  (forall clave v,
     campo_float64 (Pagina.comando_mpi a b) clave = Some v \/
     campo_float64 (Pagina.comando_openmp a b) clave = Some v ->
     cabe_en_int v = true) /\
  Pagina.o a 5 <> 0 /\ Pagina.o b 3 <> 0 /\
  Pagina.o a 4 <> 0 /\ Pagina.o b 5 <> 0 /\
  (Pagina.o a 5 < 1 <-> exists n, a = Some n /\ n < 0).
Proof.
  assert (Ha1 : accion_es (Pagina.comando_mpi a b) "iniciar_mpi" = true).
  { unfold accion_es, Pagina.comando_mpi. by rewrite lookup_insert_eq. }
  assert (Hs1 : campo_float64 (Pagina.comando_mpi a b) "sectores" =
                Some (inject_Z (Pagina.o a 5))).
  { unfold campo_float64, Pagina.comando_mpi.
    rewrite lookup_insert_ne by done. by rewrite lookup_insert_eq. }
  assert (Hv1 : campo_float64 (Pagina.comando_mpi a b) "vueltas" =
                Some (inject_Z (Pagina.o b 3))).
  { unfold campo_float64, Pagina.comando_mpi.
    rewrite !lookup_insert_ne by done. by rewrite lookup_singleton_eq. }
  assert (Ha2 : accion_es (Pagina.comando_openmp a b) "iniciar_mpi" = false).
  { unfold accion_es, Pagina.comando_openmp. by rewrite lookup_insert_eq. }
  assert (Ha3 : accion_es (Pagina.comando_openmp a b) "iniciar_openmp" = true).
  { unfold accion_es, Pagina.comando_openmp. by rewrite lookup_insert_eq. }
  assert (Hs2 : campo_float64 (Pagina.comando_openmp a b) "autos" =
                Some (inject_Z (Pagina.o a 4))).
  { unfold campo_float64, Pagina.comando_openmp.
    rewrite lookup_insert_ne by done. by rewrite lookup_insert_eq. }
  assert (Hv2 : campo_float64 (Pagina.comando_openmp a b) "vueltas" =
                Some (inject_Z (Pagina.o b 5))).
  { unfold campo_float64, Pagina.comando_openmp.
    rewrite !lookup_insert_ne by done. by rewrite lookup_singleton_eq. }
  unfold despachar, Revision2.despachar.
  rewrite Ha1, Hs1, Hv1, Ha2, Ha3, Hs2, Hv2, !int_of_float64_inject_Z.
  do 4 (split; [done|]).
  split.
  { intros clave v.
    intros [Hv | Hv]; revert Hv;
      unfold campo_float64, Pagina.comando_mpi, Pagina.comando_openmp;
      destruct (decide (clave = "action")) as [->|Hk1];
      [by rewrite lookup_insert_eq| |by rewrite lookup_insert_eq|];
      rewrite lookup_insert_ne by done.
    - destruct (decide (clave = "sectores")) as [->|Hk2].
      + rewrite lookup_insert_eq. intros [= <-]. by apply pagina_o_cabe.
      + rewrite lookup_insert_ne by done.
        destruct (decide (clave = "vueltas")) as [->|Hk3].
        * rewrite lookup_singleton_eq. intros [= <-]. by apply pagina_o_cabe.
        * by rewrite lookup_singleton_ne.
    - destruct (decide (clave = "autos")) as [->|Hk2].
      + rewrite lookup_insert_eq. intros [= <-]. by apply pagina_o_cabe.
      + rewrite lookup_insert_ne by done.
        destruct (decide (clave = "vueltas")) as [->|Hk3].
        * rewrite lookup_singleton_eq. intros [= <-]. by apply pagina_o_cabe.
        * by rewrite lookup_singleton_ne. }
  do 4 (split; [by apply pagina_o_no_cero|]).
  destruct a as [[|p|p]|]; simpl; split; try lia.
  - intros (n & [= <-] & Hn). lia.
  - intros (n & [= <-] & Hn). lia.
  - intros _. exists (Z.neg p). split; [done|lia].
  - intros (n & [=] & _).
Qed.

Lemma X17_botones_de_la_pagina_testigo :
  despachar (Pagina.comando_mpi (Some 0) None) =
    LanzaMPI (Pagina.o (Some 0) 5) (Pagina.o None 3) /\
  despachar (Pagina.comando_openmp (Some 0) None) =
    LanzaOpenMP (Pagina.o (Some 0) 4) (Pagina.o None 5) /\
  Revision2.despachar (Pagina.comando_mpi (Some 0) None) =
    despachar (Pagina.comando_mpi (Some 0) None) /\
  Revision2.despachar (Pagina.comando_openmp (Some 0) None) =
    despachar (Pagina.comando_openmp (Some 0) None) /\
  (forall clave v,
     campo_float64 (Pagina.comando_mpi (Some 0) None) clave = Some v \/
     campo_float64 (Pagina.comando_openmp (Some 0) None) clave = Some v ->
     cabe_en_int v = true) /\
  Pagina.o (Some 0) 5 <> 0 /\ Pagina.o None 3 <> 0 /\
  Pagina.o (Some 0) 4 <> 0 /\ Pagina.o None 5 <> 0 /\
  (Pagina.o (Some 0) 5 < 1 <-> exists n, Some 0 = Some n /\ n < 0).
Proof.
  apply (X17_botones_de_la_pagina (Some 0) None); reflexivity.
Defined.
